(** * Crime report extractor: extractors.py and main.py

    A shallow embedding of the regex-based extractors, the LLM client
    wrapper with its retry loop, and the row pipeline, followed by the
    properties of the extraction engine.

    Text model.  A Python [str] is a [string] of the code points 0 to
    255 (Latin-1).  Case conversion, [\w], [\s], [str.strip] and
    [str.title] follow Python on this range, the letters, digits and
    white space above 127 included.  Two capitals leave the range, those
    of the micro sign (181) and of y with diaeresis (255): the two
    letters stand for them in upper-cased text. *)

From Stdlib Require Import Bool List Ascii String NArith ZArith Lia.
From Stdlib Require Import Floats.PrimFloat.
From Stdlib Require Import Numbers.DecimalString.
Import ListNotations.

Local Open Scope string_scope.
Local Open Scope list_scope.

(* ------------------------------------------------------------------ *)
(** ** Python string primitives *)

Module PyStr.

Definition code (c : ascii) : N := N_of_ascii c.

Definition in_range (lo hi : N) (c : ascii) : bool :=
  (N.leb lo (code c)) && (N.leb (code c) hi).

(** The classes [A-Z], [a-z] and [0-9] of the patterns. *)
Definition is_upper (c : ascii) : bool := in_range 65 90 c.
Definition is_lower (c : ascii) : bool := in_range 97 122 c.
Definition is_digit (c : ascii) : bool := in_range 48 57 c.

Definition is_code (n : N) (c : ascii) : bool := N.eqb (code c) n.

(** Capital letters 192..222 (but the multiplication sign, 215) and
    small letters 223..255 (but the division sign, 247). *)
Definition is_upper_latin (c : ascii) : bool :=
  in_range 192 222 c && negb (is_code 215 c).
Definition is_lower_latin (c : ascii) : bool :=
  in_range 223 255 c && negb (is_code 247 c).

(** [str.isalpha] on one character: the letters above, the two ordinal
    indicators (170, 186) and the micro sign (181).  In this range the
    letters are also exactly the cased characters of [str.title]. *)
Definition is_alpha (c : ascii) : bool :=
  is_upper c || is_lower c || is_upper_latin c || is_lower_latin c
  || is_code 170 c || is_code 181 c || is_code 186 c.

(** Characters that are numeric without being decimal digits:
    superscripts 2, 3 (178, 179) and 1 (185), fractions (188..190). *)
Definition is_numeric_latin (c : ascii) : bool :=
  in_range 178 179 c || is_code 185 c || in_range 188 190 c.

(** [str.isspace] on one character: TAB, LF, VT, FF, CR, the four
    separators FS, GS, RS, US, the space, the next-line control (133)
    and the no-break space (160). *)
Definition is_space (c : ascii) : bool :=
  in_range 9 13 c || in_range 28 32 c || is_code 133 c || is_code 160 c.

(** [\w] of the [re] module: alphanumeric characters and underscore. *)
Definition is_word (c : ascii) : bool :=
  is_alpha c || is_digit c || is_numeric_latin c || Ascii.eqb c "_".

(** [c.lower()]: always one character. *)
Definition to_lower (c : ascii) : ascii :=
  if is_upper c || is_upper_latin c then ascii_of_N (code c + 32) else c.

(** [c.upper()]: the sharp s (223) becomes two letters.  The capitals
    of the micro sign (181) and of y with diaeresis (255) are U+039C
    and U+0178, outside this alphabet: the two letters are kept, and
    no test applied to upper-cased text tells them from their capitals
    (both are word characters outside [A-Z] and [0-9]). *)
Definition to_upper (c : ascii) : string :=
  if is_lower c then String (ascii_of_N (code c - 32)) EmptyString
  else if is_code 223 c then "SS"
  else if is_lower_latin c && negb (is_code 255 c)
       then String (ascii_of_N (code c - 32)) EmptyString
  else String c EmptyString.

(** Title-case form of one character: as [to_upper], but the sharp s
    becomes "Ss". *)
Definition to_title (c : ascii) : string :=
  if is_code 223 c then "Ss" else to_upper c.

(** [s.upper()] *)
Fixpoint upper (s : string) : string :=
  match s with
  | EmptyString => EmptyString
  | String c s' => to_upper c ++ upper s'
  end.

(** [s.lower()] *)
Fixpoint lower (s : string) : string :=
  match s with
  | EmptyString => EmptyString
  | String c s' => String (to_lower c) (lower s')
  end.

(** [s.replace(old, new)] for a one-character [old]. *)
Fixpoint replace (old : ascii) (new : string) (s : string) : string :=
  match s with
  | EmptyString => EmptyString
  | String c s' =>
      if Ascii.eqb c old then new ++ replace old new s'
      else String c (replace old new s')
  end.

Fixpoint lstrip (s : string) : string :=
  match s with
  | EmptyString => EmptyString
  | String c s' => if is_space c then lstrip s' else s
  end.

Fixpoint rstrip (s : string) : string :=
  match s with
  | EmptyString => EmptyString
  | String c s' =>
      match rstrip s' with
      | EmptyString => if is_space c then EmptyString else String c EmptyString
      | r => String c r
      end
  end.

(** [s.strip()] *)
Definition strip (s : string) : string := rstrip (lstrip s).

(** [s[:n]] *)
Fixpoint take (n : nat) (s : string) : string :=
  match n, s with
  | S k, String c s' => String c (take k s')
  | _, _ => EmptyString
  end.

(** [s.title()]: a character is lower-cased when the character before
    it is cased, and title-cased otherwise. *)
Fixpoint title_from (prev_cased : bool) (s : string) : string :=
  match s with
  | EmptyString => EmptyString
  | String c s' =>
      (if prev_cased then String (to_lower c) EmptyString else to_title c)
      ++ title_from (is_alpha c) s'
  end.

Definition title (s : string) : string := title_from false s.

(** [x in l] for a list of strings. *)
Definition mem (x : string) (l : list string) : bool :=
  existsb (String.eqb x) l.

(** Truth value of a string: [bool(s)]. *)
Definition nonempty (s : string) : bool :=
  match s with EmptyString => false | String _ _ => true end.

(** [str(n)] for an integer. *)
Definition str_of_int (z : Z) : string :=
  NilEmpty.string_of_int (Z.to_int z).

End PyStr.

(* ------------------------------------------------------------------ *)
(** ** The fragment of [re] used by the pattern library

    Matching follows the backtracking order of [re]: the matches of a
    pattern at a position are listed with the preferred one first, and
    [search] takes the first match at the leftmost position that has
    one. *)

Module Re.

Inductive regex : Type :=
| Eps                                        (* empty pattern *)
| Chr (p : ascii -> bool)                    (* one character of a class *)
| Seq (r1 r2 : regex)                        (* r1 r2 *)
| Alt (r1 r2 : regex)                        (* r1|r2 *)
| Rep (r : regex) (lo extra : nat)           (* r{lo,lo+extra}, greedy *)
| WordB.                                     (* \b *)

(** A position in the subject: the text before it, nearest character
    first, and the text after it. *)
Definition cursor : Type := (list ascii * list ascii)%type.

Definition before_is_word (c : cursor) : bool :=
  match fst c with x :: _ => PyStr.is_word x | [] => false end.

Definition after_is_word (c : cursor) : bool :=
  match snd c with x :: _ => PyStr.is_word x | [] => false end.

Fixpoint rep_upto (f : cursor -> list cursor) (extra : nat) (c : cursor)
  : list cursor :=
  match extra with
  | O => [c]
  | S k => flat_map (rep_upto f k) (f c) ++ [c]
  end.

Fixpoint rep_exact (f : cursor -> list cursor) (lo : nat)
         (k : cursor -> list cursor) (c : cursor) : list cursor :=
  match lo with
  | O => k c
  | S l => flat_map (rep_exact f l k) (f c)
  end.

(** The end positions of the matches of [r] that start at [c], best
    first. *)
Fixpoint rmatch (r : regex) (c : cursor) : list cursor :=
  match r with
  | Eps => [c]
  | Chr p =>
      match snd c with
      | x :: a => if p x then [(x :: fst c, a)] else []
      | [] => []
      end
  | Seq r1 r2 => flat_map (rmatch r2) (rmatch r1 c)
  | Alt r1 r2 => rmatch r1 c ++ rmatch r2 c
  | Rep r0 lo extra => rep_exact (rmatch r0) lo (rep_upto (rmatch r0) extra) c
  | WordB => if xorb (before_is_word c) (after_is_word c) then [c] else []
  end.

(** Leftmost match: start and end position. *)
Fixpoint search_from (r : regex) (b a : list ascii) : option (cursor * cursor) :=
  match rmatch r (b, a) with
  | e :: _ => Some ((b, a), e)
  | [] =>
      match a with
      | [] => None
      | x :: a' => search_from r (x :: b) a'
      end
  end.

(** [re.search(r, s)] *)
Definition search (r : regex) (s : string) : option (cursor * cursor) :=
  search_from r [] (list_ascii_of_string s).

(** [m.group(0)] *)
Definition group0 (m : cursor * cursor) : string :=
  let a := snd (fst m) in
  let a' := snd (snd m) in
  string_of_list_ascii (firstn (List.length a - List.length a') a).

(** [bool(re.search(r, s))] *)
Definition found (r : regex) (s : string) : bool :=
  match search r s with Some _ => true | None => false end.

(** Pattern builders. *)

Fixpoint lit (s : string) : regex :=
  match s with
  | EmptyString => Eps
  | String c s' => Seq (Chr (Ascii.eqb c)) (lit s')
  end.

Fixpoint alts (w : string) (ws : list string) : regex :=
  match ws with
  | [] => lit w
  | w' :: ws' => Alt (lit w) (alts w' ws')
  end.

(** [.] : any character but the line feed. *)
Definition dot : regex := Chr (fun c => negb (Ascii.eqb c "010"%char)).

Definition opt (r : regex) : regex := Rep r 0 1.

End Re.

(* ------------------------------------------------------------------ *)
(** ** Python values that travel through the extractors

    The result of an extraction is a [dict] built either by the regex
    fallback or by [json.loads]; both are values of this type. *)

Module Py.

#[warnings="-register-all"]
Inductive value : Type :=
| VNone
| VBool (b : bool)
| VInt (z : Z)
| VFloat (f : float)
| VStr (s : string)
| VList (l : list value)
| VDict (d : list (string * value)).

(** [bool(v)] *)
Definition truthy (v : value) : bool :=
  match v with
  | VNone => false
  | VBool b => b
  | VInt z => negb (Z.eqb z 0)
  | VFloat f => negb (PrimFloat.eqb f PrimFloat.zero)
  | VStr s => PyStr.nonempty s
  | VList l => match l with [] => false | _ :: _ => true end
  | VDict d => match d with [] => false | _ :: _ => true end
  end.

(** A [dict] is its items in insertion order, keys distinct. *)
Definition dict : Type := list (string * value).

(** [k in d] *)
Fixpoint dict_has (k : string) (d : dict) : bool :=
  match d with
  | [] => false
  | (k', _) :: d' => String.eqb k k' || dict_has k d'
  end.

(** [d.get(k)], [None] mapped to [VNone] as Python does. *)
Fixpoint dict_get (k : string) (d : dict) : value :=
  match d with
  | [] => VNone
  | (k', v) :: d' => if String.eqb k k' then v else dict_get k d'
  end.

(** [d[k] = v] *)
Fixpoint dict_set (k : string) (v : value) (d : dict) : dict :=
  match d with
  | [] => [(k, v)]
  | (k', v') :: d' =>
      if String.eqb k k' then (k', v) :: d' else (k', v') :: dict_set k v d'
  end.

(** [d.values()] *)
Definition dict_values (d : dict) : list value := map snd d.

(** [any(l)] *)
Definition any (l : list value) : bool := existsb truthy l.

(** An [Optional[str]] as a value. *)
Definition of_opt_str (o : option string) : value :=
  match o with Some s => VStr s | None => VNone end.

End Py.

(* ------------------------------------------------------------------ *)
(** ** extractors.py: regex-based extraction *)

Module Extractors.

Import PyStr Re Py.

(** The [entry_methods] table of [extract_entry_method_regex], in the
    order the dict literal lists it. *)
Definition entry_methods : list (string * regex) :=
  [ ("window_smash",
      Seq (alts "broke" ["smashed"; "shattered"; "broken"])
          (Seq (Rep dot 0 15) (alts "window" ["glass"])));
    ("door_pry",
      Seq (alts "pried" ["forced"; "jimmied"; "pry"])
          (Seq (Rep dot 0 15) (alts "door" ["entry"])));
    ("door_kick",
      Seq (alts "kicked" ["boot"; "kick"])
          (Seq (Rep dot 0 15) (lit "door")));
    ("lock_pick",
      Seq (alts "picked" ["pick"])
          (Seq (Rep dot 0 15) (lit "lock")));
    ("unlocked",
      Seq (alts "unlocked" ["open"; "unsecured"])
          (Seq (Rep dot 0 15) (alts "door" ["window"; "entry"])));
    ("cut_screen",
      Seq (alts "cut" ["sliced"])
          (Seq (Rep dot 0 15) (alts "screen" ["mesh"])));
    ("garage_door",
      Seq (alts "garage" ["overhead"])
          (Seq (Rep dot 0 15) (lit "door")));
    ("unknown",
      Seq (alts "unknown" ["undetermined"])
          (Seq (Rep dot 0 15) (alts "entry" ["method"; "access"]))) ].

(** The loop [for method, pattern in entry_methods.items()]. *)
Fixpoint first_method (rules : list (string * regex)) (narrative_lower : string)
  : string :=
  match rules with
  | [] => "Not specified"
  | (method, pattern) :: rest =>
      if found pattern narrative_lower
      then replace "_" " " method
      else first_method rest narrative_lower
  end.

Definition extract_entry_method_regex (narrative : string) : string :=
  let narrative_lower := lower narrative in
  first_method entry_methods narrative_lower.

Definition class_AZ : regex := Chr is_upper.
Definition class_09 : regex := Chr is_digit.
(** [[-\s]] *)
Definition class_sep : regex :=
  Chr (fun c => Ascii.eqb c "-" || is_space c).

(** The [patterns] list of [extract_license_plate_regex]. *)
Definition plate_patterns : list regex :=
  [ Seq WordB (Seq (Rep class_AZ 2 1)
       (Seq (opt class_sep) (Seq (Rep class_09 3 1) WordB)));
    Seq WordB (Seq class_09 (Seq (Rep class_AZ 2 1)
       (Seq (opt class_sep) (Seq (Rep class_09 3 0) WordB))));
    Seq WordB (Seq (Rep class_AZ 3 0)
       (Seq (opt class_sep) (Seq (Rep class_09 4 0) WordB))) ].

(** The loop [for pattern in patterns] over the upper-cased narrative. *)
Fixpoint first_plate (patterns : list regex) (text : string) : option string :=
  match patterns with
  | [] => None
  | pattern :: rest =>
      match search pattern text with
      | Some m => Some (replace "-" "" (replace " " "" (group0 m)))
      | None => first_plate rest text
      end
  end.

Definition extract_license_plate_regex (narrative : string) : option string :=
  first_plate plate_patterns (upper narrative).

Definition makes : list string :=
  [ "honda"; "toyota"; "ford"; "chevrolet"; "chevy"; "nissan";
    "bmw"; "mercedes"; "tesla"; "hyundai"; "kia"; "mazda";
    "dodge"; "jeep"; "ram"; "gmc"; "volkswagen"; "vw"; "audi";
    "lexus"; "acura"; "infiniti"; "subaru"; "volvo" ].

Definition colors : list string :=
  [ "black"; "white"; "red"; "blue"; "silver"; "grey"; "gray";
    "green"; "yellow"; "orange"; "brown"; "tan"; "beige";
    "gold"; "maroon"; "purple" ].

(** [r'\b' + w + r'\b'] *)
Definition whole_word (w : string) : regex := Seq WordB (Seq (lit w) WordB).

(** The two loops [for make in makes] and [for color in colors]: the
    first word of the list found in the text, title-cased. *)
Fixpoint first_word (words : list string) (narrative_lower : string)
  : option string :=
  match words with
  | [] => None
  | w :: rest =>
      if found (whole_word w) narrative_lower
      then Some (title w)
      else first_word rest narrative_lower
  end.

Definition extract_vehicle_regex (narrative : string) : dict :=
  let result := [ ("make", VNone); ("model", VNone);
                  ("color", VNone); ("plate", VNone) ] in
  let narrative_lower := lower narrative in
  let result :=
    match first_word makes narrative_lower with
    | Some m => dict_set "make" (VStr m) result
    | None => result
    end in
  let result :=
    match first_word colors narrative_lower with
    | Some c => dict_set "color" (VStr c) result
    | None => result
    end in
  dict_set "plate" (of_opt_str (extract_license_plate_regex narrative)) result.

Definition fallback_regex_extraction (narrative : string) : dict :=
  let vehicle := extract_vehicle_regex narrative in
  [ ("method_of_entry", VStr (extract_entry_method_regex narrative));
    ("suspects", VList []);
    ("vehicles",
      VList (if any (dict_values vehicle) then [VDict vehicle] else [])) ].

(** [clean_suspect_description] and [format_license_plate] are applied
    to values read out of the extraction dict; on a value that has no
    [strip] or [upper] method they raise. *)
Inductive exn : Type :=
| AttributeError
| LLMExtractionFailed.

Inductive result (A : Type) : Type :=
| Ok (a : A)
| Raise (e : exn).
Arguments Ok {A} a.
Arguments Raise {A} e.

Definition clean_suspect_description (description : value) : result value :=
  match description with
  | VStr s =>
      if negb (nonempty s) || String.eqb s "null" then Ok VNone
      else Ok (VStr (take 100 (strip s)))
  | other => if truthy other then Raise AttributeError else Ok VNone
  end.

Definition format_license_plate (plate : value) : result value :=
  match plate with
  | VStr s =>
      if negb (nonempty s) || String.eqb s "null" then Ok VNone
      else Ok (VStr (replace "-" "" (replace " " "" (upper s))))
  | other => if truthy other then Raise AttributeError else Ok VNone
  end.

End Extractors.

(* ------------------------------------------------------------------ *)
(** ** config.py *)

Module Config.

Definition MAX_RETRIES : Z := 3.
Definition RETRY_DELAY : Z := 1.

End Config.

(* ------------------------------------------------------------------ *)
(** ** extractors.py: the LLM client and its retry wrapper

    The outside world of the extractors is the remote service, the clock
    and the console.  [calls] counts the requests sent so far, [sleeps]
    lists the arguments of [time.sleep] and [stdout] the lines printed,
    both latest first. *)

Module Llm.

Import PyStr Py Extractors.

Inductive line : Type :=
| FallbackWarning (retries : Z) (last_error : option exn)
| FallingBack
| RowError (idx : nat) (e : exn)
| Processing (n : nat)
| Rule
| Progress (done total : nat)
| ProgressDone (total : nat).

Record World : Type := mkWorld {
  calls : nat;
  sleeps : list Z;
  stdout : list line
}.

Definition W (A : Type) : Type := World -> result A * World.

Definition wret {A} (a : A) : W A := fun w => (Ok a, w).

Definition wbind {A B} (m : W A) (k : A -> W B) : W B :=
  fun w =>
    match m w with
    | (Ok a, w') => k a w'
    | (Raise e, w') => (Raise e, w')
    end.

(** [try: m except Exception as e: h(e)] *)
Definition wtry {A} (m : W A) (h : exn -> W A) : W A :=
  fun w =>
    match m w with
    | (Ok a, w') => (Ok a, w')
    | (Raise e, w') => h e w'
    end.

Definition sleep (d : Z) : W unit :=
  fun w => (Ok tt, mkWorld (calls w) (d :: sleeps w) (stdout w)).

Definition print (l : line) : W unit :=
  fun w => (Ok tt, mkWorld (calls w) (sleeps w) (l :: stdout w)).

(** The remote service as the client sees it: [client narrative
    crime_code k] is the outcome of the request sent when [k] requests
    went out before it, [None] when the request, the status check or
    the decoding of the answer raises, and the decoded answer
    otherwise. *)
Definition Client : Type := string -> string -> nat -> option value.

Section WithClient.

Variable client : Client.

(** Lines 160-184 of [extract_with_llm]: post the prompt, check the
    status, strip the fences, [json.loads]. *)
Definition request (narrative crime_code : string) : W value :=
  fun w =>
    let w' := mkWorld (S (calls w)) (sleeps w) (stdout w) in
    match client narrative crime_code (calls w) with
    | Some v => (Ok v, w')
    | None => (Raise LLMExtractionFailed, w')
    end.

(** Lines 190-196: the three keys a payload may lack. *)
Definition ensure_keys (extracted_data : dict) : dict :=
  let d := extracted_data in
  let d := if dict_has "method_of_entry" d then d
           else dict_set "method_of_entry" VNone d in
  let d := if dict_has "suspects" d then d
           else dict_set "suspects" (VList []) d in
  if dict_has "vehicles" d then d else dict_set "vehicles" (VList []) d.

Definition extract_with_llm (narrative crime_code : string) : W dict :=
  wbind (request narrative crime_code) (fun extracted_data =>
    match extracted_data with
    | VDict d => wret (ensure_keys d)
    | _ => fun w => (Raise LLMExtractionFailed, w)
    end).

(** The loop [for attempt in range(retries)] with [todo] iterations
    left, followed by the fallback after the loop. *)
Fixpoint attempts (narrative crime_code : string) (retries : Z)
         (todo : nat) (attempt : Z) (last_error : option exn) : W dict :=
  match todo with
  | O =>
      wbind (print (FallbackWarning retries last_error)) (fun _ =>
      wbind (print FallingBack) (fun _ =>
      wret (fallback_regex_extraction narrative)))
  | S todo' =>
      wtry (extract_with_llm narrative crime_code)
           (fun e =>
              wbind (if Z.ltb attempt (retries - 1)
                     then sleep Config.RETRY_DELAY
                     else wret tt) (fun _ =>
              attempts narrative crime_code retries todo' (attempt + 1)
                       (Some e)))
  end.

Definition extract_with_llm_safe (narrative crime_code : string)
           (retries : option Z) : W dict :=
  let retries := match retries with
                 | None => Config.MAX_RETRIES
                 | Some r => r
                 end in
  attempts narrative crime_code retries (Z.to_nat retries) 0 None.

End WithClient.

End Llm.

(* ------------------------------------------------------------------ *)
(** ** extractors.py: from the answer of the service to a payload

    Lines 175-184 of [extract_with_llm]: the content of the answer is
    stripped, freed of code fences by three [re.sub] calls and handed
    to [json.loads]. *)

Module Fences.

Import PyStr Py.

(** The pieces the three patterns are made of. *)
Inductive atom : Type :=
| Bos                      (* ^ : the start of the string *)
| Eos                      (* $ : the end, or before a final line feed *)
| Lit (s : string)         (* literal text *)
| Spaces.                  (* \s*, greedy *)

(** [s] without the prefix [l]. *)
Fixpoint strip_prefix (l s : string) : option string :=
  match l, s with
  | EmptyString, _ => Some s
  | String a l', String b s' =>
      if Ascii.eqb a b then strip_prefix l' s' else None
  | String _ _, EmptyString => None
  end.

Definition at_end (s : string) : bool :=
  String.eqb s "" || String.eqb s (String "010" "").

(** [\s*] followed by [k]: as many white-space characters as possible,
    fewer when [k] fails after them. *)
Fixpoint spaces (k : bool -> string -> option string) (start : bool)
         (s : string) : option string :=
  match s with
  | String c s' =>
      if is_space c
      then match spaces k false s' with
           | Some r => Some r
           | None => k start s
           end
      else k start s
  | EmptyString => k start s
  end.

(** A match of the pattern at the head of [s]: what follows the match.
    [start] tells whether [s] is the whole string. *)
Fixpoint match_here (p : list atom) (start : bool) (s : string)
  : option string :=
  match p with
  | [] => Some s
  | Bos :: p' => if start then match_here p' start s else None
  | Eos :: p' => if at_end s then match_here p' start s else None
  | Lit l :: p' =>
      match strip_prefix l s with
      | Some r => match_here p' (start && negb (nonempty l)) r
      | None => None
      end
  | Spaces :: p' => spaces (match_here p') start s
  end.

(** [re.sub(p, '', s)] from a position on: every match is dropped, an
    empty match drops nothing, and the scan goes on after the match. *)
Fixpoint sub_from (fuel : nat) (p : list atom) (start : bool) (s : string)
  : string :=
  match fuel with
  | O => s
  | S fuel' =>
      match match_here p start s with
      | Some r =>
          if Nat.ltb (String.length r) (String.length s)
          then sub_from fuel' p false r
          else match s with
               | EmptyString => EmptyString
               | String c s' => String c (sub_from fuel' p false s')
               end
      | None =>
          match s with
          | EmptyString => EmptyString
          | String c s' => String c (sub_from fuel' p false s')
          end
      end
  end.

(** [re.sub(p, '', s)] *)
Definition sub (p : list atom) (s : string) : string :=
  sub_from (S (String.length s)) p true s.

(** Lines 178-181. *)
Definition strip_fences (result : string) : string :=
  let result := strip result in
  let result := sub [Bos; Lit "```json"; Spaces] result in
  let result := sub [Bos; Lit "```"; Spaces] result in
  sub [Spaces; Lit "```"; Eos] result.

(** The client behind [extract_with_llm]: [post narrative crime_code k]
    is the content of the answer to the request, [None] when the
    request or the status check raises or the answer has no content,
    and [loads] is [json.loads], [None] when it raises. *)
Definition decoded (post : string -> string -> nat -> option string)
           (loads : string -> option value)
  : string -> string -> nat -> option value :=
  fun narrative crime_code k =>
    match post narrative crime_code k with
    | Some content => loads (strip_fences content)
    | None => None
    end.

End Fences.

(* ------------------------------------------------------------------ *)
(** ** main.py: CrimeReportExtractor *)

Module Main.

Import PyStr Py Extractors Llm.

(** A cell of an input column as [pandas] hands it over. *)
Inductive cell : Type :=
| CellStr (s : string)
| CellInt (z : Z)
| CellNaN
| CellNone.

(** [str(x)] on a cell. *)
Definition str (x : cell) : string :=
  match x with
  | CellStr s => s
  | CellInt z => str_of_int z
  | CellNaN => "nan"
  | CellNone => "None"
  end.

(** A row of [self.df]: the two input columns and the extraction
    columns, by name. *)
Record Row : Type := mkRow {
  crime_code : cell;
  narrative : cell;
  columns : dict
}.

(** [self.stats] *)
Record Stats : Type := mkStats {
  total_rows : Z;
  successful : Z;
  failed : Z;
  method_extracted : Z;
  suspects_found : Z;
  vehicles_found : Z
}.

Definition init_stats : Stats := mkStats 0 0 0 0 0 0.

Record State : Type := mkState {
  df : list Row;
  stats : Stats;
  world : World
}.

Definition M (A : Type) : Type := State -> result A * State.

Definition ret {A} (a : A) : M A := fun st => (Ok a, st).

Definition bind {A B} (m : M A) (k : A -> M B) : M B :=
  fun st =>
    match m st with
    | (Ok a, st') => k a st'
    | (Raise e, st') => (Raise e, st')
    end.

Notation "x <- m ;; k" := (bind m (fun x => k))
  (at level 61, m at next level, right associativity).
Notation "m ;;; k" := (bind m (fun _ => k))
  (at level 61, right associativity).

Definition try_except {A} (m : M A) (h : exn -> M A) : M A :=
  fun st =>
    match m st with
    | (Ok a, st') => (Ok a, st')
    | (Raise e, st') => h e st'
    end.

(** A call into extractors.py runs on the world alone. *)
Definition call {A} (m : W A) : M A :=
  fun st =>
    let (r, w') := m (world st) in
    (r, mkState (df st) (stats st) w').

(** A function that may raise but touches no state. *)
Definition pure {A} (r : result A) : M A := fun st => (r, st).

Definition set_stats (f : Stats -> Stats) : M unit :=
  fun st => (Ok tt, mkState (df st) (f (stats st)) (world st)).

Fixpoint update_nth {A} (n : nat) (f : A -> A) (l : list A) : list A :=
  match l, n with
  | [], _ => []
  | x :: l', O => f x :: l'
  | x :: l', S n' => x :: update_nth n' f l'
  end.

(** [self.df.at[idx, col] = v]; [idx] always comes from [iterrows]. *)
Definition df_at_set (idx : nat) (col : string) (v : value) : M unit :=
  fun st =>
    (Ok tt,
     mkState (update_nth idx
                (fun r => mkRow (crime_code r) (narrative r)
                                (dict_set col v (columns r)))
                (df st))
             (stats st) (world st)).

Definition incr_method_extracted (s : Stats) : Stats :=
  mkStats (total_rows s) (successful s) (failed s)
          (method_extracted s + 1) (suspects_found s) (vehicles_found s).

Definition incr_suspects_found (s : Stats) : Stats :=
  mkStats (total_rows s) (successful s) (failed s)
          (method_extracted s) (suspects_found s + 1) (vehicles_found s).

Definition incr_vehicles_found (s : Stats) : Stats :=
  mkStats (total_rows s) (successful s) (failed s)
          (method_extracted s) (suspects_found s) (vehicles_found s + 1).

Definition incr_successful (s : Stats) : Stats :=
  mkStats (total_rows s) (successful s + 1) (failed s)
          (method_extracted s) (suspects_found s) (vehicles_found s).

Definition incr_failed (s : Stats) : Stats :=
  mkStats (total_rows s) (successful s) (failed s + 1)
          (method_extracted s) (suspects_found s) (vehicles_found s).

Definition set_total_rows (n : Z) (s : Stats) : Stats :=
  mkStats n (successful s) (failed s)
          (method_extracted s) (suspects_found s) (vehicles_found s).

(** [initialize_output_columns]: the seven extraction columns. *)
Definition output_columns : list string :=
  [ "method_of_entry"; "suspect_1"; "suspect_2"; "vehicle_make";
    "vehicle_model"; "vehicle_color"; "vehicle_plate" ].

Definition initialize_output_columns : M unit :=
  fun st =>
    (Ok tt,
     mkState (map (fun r => mkRow (crime_code r) (narrative r)
                                  (fold_left (fun d c => dict_set c VNone d)
                                             output_columns (columns r)))
                  (df st))
             (stats st) (world st)).

Definition is_list (v : value) : bool :=
  match v with VList _ => true | _ => false end.

Definition as_list (v : value) : list value :=
  match v with VList l => l | _ => [] end.

(** The skip test of [process_row]. *)
Definition skipped (narrative : string) : bool :=
  negb (nonempty narrative) || mem (lower narrative) ["nan"; "none"; ""].

(** Lines 118-121. *)
Definition fill_method (idx : nat) (extracted : dict) : M unit :=
  if truthy (dict_get "method_of_entry" extracted)
  then df_at_set idx "method_of_entry" (dict_get "method_of_entry" extracted) ;;;
       set_stats incr_method_extracted
  else ret tt.

(** Lines 126-132: the body of the loop over the suspects, at index [i]. *)
Definition fill_suspect (idx : nat) (i : nat) (suspect : value) : M unit :=
  match suspect with
  | VDict d =>
      if dict_has "description" d
      then desc <- pure (clean_suspect_description (dict_get "description" d)) ;;
           if truthy desc
           then let col_name :=
                  String.append "suspect_" (str_of_int (Z.of_nat i + 1)) in
                df_at_set idx col_name desc ;;;
                (if Nat.eqb i 0 then set_stats incr_suspects_found
                 else ret tt)
           else ret tt
      else ret tt
  | _ => ret tt
  end.

(** Line 125: the loop over [enumerate(extracted['suspects'][:2])], from
    index [i] on. *)
Fixpoint fill_suspects_loop (idx : nat) (i : nat) (suspects : list value)
  : M unit :=
  match suspects with
  | [] => ret tt
  | suspect :: rest =>
      fill_suspect idx i suspect ;;;
      fill_suspects_loop idx (S i) rest
  end.

(** Lines 124-132. *)
Definition fill_suspects (idx : nat) (extracted : dict) : M unit :=
  let suspects := dict_get "suspects" extracted in
  if truthy suspects && is_list suspects
  then fill_suspects_loop idx 0 (firstn 2 (as_list suspects))
  else ret tt.

(** Lines 137-148: the loop over [extracted['vehicles']], left at the
    first vehicle that has a value. *)
Fixpoint fill_vehicle_loop (idx : nat) (vehicles : list value) : M unit :=
  match vehicles with
  | [] => ret tt
  | vehicle :: rest =>
      match vehicle with
      | VDict d =>
          if any (dict_values d)
          then df_at_set idx "vehicle_make" (dict_get "make" d) ;;;
               df_at_set idx "vehicle_model" (dict_get "model" d) ;;;
               df_at_set idx "vehicle_color" (dict_get "color" d) ;;;
               (let plate := dict_get "plate" d in
                if truthy plate
                then p <- pure (format_license_plate plate) ;;
                     df_at_set idx "vehicle_plate" p
                else ret tt) ;;;
               set_stats incr_vehicles_found
          else fill_vehicle_loop idx rest
      | _ => fill_vehicle_loop idx rest
      end
  end.

(** Lines 135-148. *)
Definition fill_vehicle (idx : nat) (extracted : dict) : M unit :=
  let vehicles := dict_get "vehicles" extracted in
  if truthy vehicles && is_list vehicles
  then fill_vehicle_loop idx (as_list vehicles)
  else ret tt.

Section WithClient.

Variable client : Client.

Definition process_row (idx : nat) (row : Row) : M bool :=
  try_except
    (let crime_code := str (crime_code row) in
     let narrative := str (narrative row) in
     if skipped narrative then ret false
     else
       extracted <- call (extract_with_llm_safe client narrative crime_code None) ;;
       fill_method idx extracted ;;;
       fill_suspects idx extracted ;;;
       fill_vehicle idx extracted ;;;
       ret true)
    (fun e => call (print (RowError idx e)) ;;; ret false).

(** The loop of [process_all] from row [idx] on. *)
Fixpoint process_rows (total : nat) (idx : nat) (rows : list Row) : M unit :=
  match rows with
  | [] => ret tt
  | row :: rest =>
      (if Nat.eqb (Nat.modulo (idx + 1) 10) 0 || Nat.eqb idx 0
       then call (print (Progress (idx + 1) total))
       else ret tt) ;;;
      success <- process_row idx row ;;
      set_stats (if success then incr_successful else incr_failed) ;;;
      process_rows total (S idx) rest
  end.

Definition process_all : M unit :=
  fun st =>
    let n := List.length (df st) in
    (call (print (Processing n)) ;;;
     call (print Rule) ;;;
     set_stats (set_total_rows (Z.of_nat n)) ;;;
     process_rows n 0 (df st) ;;;
     call (print (ProgressDone n)) ;;;
     call (print Rule)) st.

End WithClient.

(** A table of freshly loaded rows, after [initialize_output_columns]. *)
Definition load (rows : list (cell * cell)) : State :=
  snd (initialize_output_columns
         (mkState (map (fun r => mkRow (fst r) (snd r) []) rows)
                  init_stats (mkWorld 0 [] []))).

(** [self.df.at[idx, col]] read back. *)
Definition df_at (st : State) (idx : nat) (col : string) : value :=
  match nth_error (df st) idx with
  | Some r => dict_get col (columns r)
  | None => VNone
  end.

End Main.

(* ------------------------------------------------------------------ *)
(** * Properties *)

Import PyStr Re Py Extractors Llm Main.
Import Fences.

(** ** Vocabulary of the statements *)

(** Every character of [s] satisfies [p]. *)
Fixpoint all_chars (p : ascii -> bool) (s : string) : bool :=
  match s with
  | EmptyString => true
  | String c s' => p c && all_chars p s'
  end.

(** A character that upper-casing leaves as it is. *)
Definition upper_fixed (c : ascii) : bool :=
  String.eqb (to_upper c) (String c EmptyString).
Definition not_char (x c : ascii) : bool := negb (Ascii.eqb c x).

(** A plate in normal form: no lower-case letter, space or hyphen. *)
Definition plate_char (c : ascii) : bool :=
  upper_fixed c && not_char " " c && not_char "-" c.

(** The normal form computed by [format_license_plate] and by the regex
    plate extractor. *)
Definition strip_separators (s : string) : string :=
  replace "-" "" (replace " " "" s).

Definition separator (c : ascii) : bool :=
  Ascii.eqb c " " || Ascii.eqb c "-".

(** A non-empty string made of spaces and hyphens only. *)
Definition only_separators (s : string) : bool :=
  nonempty s && all_chars separator s.

(** [format_license_plate(format_license_plate(p))] *)
Definition format_twice (p : value) : result value :=
  match format_license_plate p with
  | Ok v => format_license_plate v
  | Raise e => Raise e
  end.

(** Every match of a matcher consumes a piece of the text after the
    start position. *)
Definition advances (f : cursor -> list cursor) : Prop :=
  forall c e, In e (f c) -> exists m, snd c = m ++ snd e.

(** Every match of a matcher consumes at least one character, the first
    of which satisfies [p]. *)
Definition starts (p : ascii -> bool) (f : cursor -> list cursor) : Prop :=
  forall c e, In e (f c) ->
    exists x m, snd c = x :: m ++ snd e /\ p x = true.

(** An attribute of a vehicle is populated when it holds a value. *)
Definition populated (v : value) : bool :=
  match v with VNone => false | _ => true end.

(** At least one of the four attributes of a vehicle is populated. *)
Definition any_populated (vehicle : dict) : bool :=
  existsb (fun k => populated (dict_get k vehicle))
          ["make"; "model"; "color"; "plate"].

(** The first character of a plate pattern: a letter or a digit. *)
Definition plate_start (c : ascii) : bool := is_upper c || is_digit c.

(** The names of the entry-method rules in their priority order. *)
Definition entry_method_order : list string :=
  [ "window_smash"; "door_pry"; "door_kick"; "lock_pick"; "unlocked";
    "cut_screen"; "garage_door"; "unknown" ].

(** The label returned for a rule: its name with spaces for underscores. *)
Definition label (method : string) : string := replace "_" " " method.

(** The retry bound [extract_with_llm_safe] works with. *)
Definition effective_retries (retries : option Z) : Z :=
  match retries with None => Config.MAX_RETRIES | Some r => r end.

(** A client whose every request fails. *)
Definition unreachable : Client := fun _ _ _ => None.

(** The shape the data model gives an extraction result: at most two
    suspects, at most one vehicle, and an entry method that is the
    sentinel or a non-empty string. *)
Definition conforms (extracted : dict) : bool :=
  match dict_get "suspects" extracted with
  | VList l => Nat.leb (List.length l) 2
  | _ => false
  end &&
  match dict_get "vehicles" extracted with
  | VList l => Nat.leb (List.length l) 1
  | _ => false
  end &&
  match dict_get "method_of_entry" extracted with
  | VStr s => String.eqb s "Not specified" || nonempty s
  | _ => false
  end.

(** A payload with three suspects, two vehicles and no entry method. *)
Definition crowded_payload : value :=
  VDict [ ("suspects",
            VList [ VDict [("id", VStr "S1"); ("description", VStr "tall male")];
                    VDict [("id", VStr "S2"); ("description", VStr "short female")];
                    VDict [("id", VStr "S3"); ("description", VStr "driver")] ]);
          ("vehicles",
            VList [ VDict [("make", VStr "Ford"); ("model", VNone);
                           ("color", VNone); ("plate", VNone)];
                    VDict [("make", VNone); ("model", VNone);
                           ("color", VStr "red"); ("plate", VNone)] ]) ].

(** A client that answers every request with the same payload. *)
Definition answering (payload : value) : Client := fun _ _ _ => Some payload.

Definition idle : World := mkWorld 0 [] [].

(** A result of the service is one of its payloads with the three keys
    ensured. *)
Definition from_payload (client : Client) (narrative crime_code : string)
           (d : dict) : Prop :=
  exists k payload,
    client narrative crime_code k = Some (VDict payload) /\
    d = ensure_keys payload.

(** The result [process_row] gets from [extract_with_llm_safe] for a
    row, in a given world; the wrapper never raises. *)
Definition extraction (client : Client) (row : Row) (w : World) : dict :=
  match fst (extract_with_llm_safe client (str (narrative row))
               (str (crime_code row)) None w) with
  | Ok d => d
  | Raise _ => []
  end.

(** What a step leaves alone: the size of the table, the columns [cols]
    of every row and the counter [proj]. *)
Definition kept (cols : list string) (proj : Stats -> Z) (st st' : State)
  : Prop :=
  List.length (df st') = List.length (df st) /\
  (forall idx c, In c cols -> df_at st' idx c = df_at st idx c) /\
  proj (stats st') = proj (stats st).

(** The suspects [process_row] looks at: the first two of the list. *)
Definition first_suspects (extracted : dict) : list value :=
  firstn 2 (as_list (dict_get "suspects" extracted)).

(** The description of a suspect, when it is a string. *)
Definition description_of (suspect : value) : option string :=
  match suspect with
  | VDict d =>
      if dict_has "description" d
      then match dict_get "description" d with
           | VStr s => Some s
           | _ => None
           end
      else None
  | _ => None
  end.

(** A description cleaned: trimmed, capped at 100 characters, absent
    when it is the literal null or when nothing is left of it. *)
Definition cleaned (suspect : value) : option string :=
  match description_of suspect with
  | Some s =>
      if String.eqb s "null" then None
      else if nonempty (take 100 (strip s)) then Some (take 100 (strip s))
           else None
  | None => None
  end.

(** The cleaned description of the suspect at position 1 or 2. *)
Definition cleaned_at (extracted : dict) (position : nat) : option string :=
  match nth_error (first_suspects extracted) (position - 1) with
  | Some suspect => cleaned suspect
  | None => None
  end.

(** A suspect whose description, if any, is a string or an empty
    value. *)
Definition described_by_text (suspect : value) : bool :=
  match suspect with
  | VDict d =>
      match dict_get "description" d with
      | VStr _ => true
      | v => negb (dict_has "description" d) || negb (truthy v)
      end
  | _ => true
  end.

(** The value a column holds after a row was processed: the new text,
    or what it held before. *)
Definition column_after (new : option string) (old : value) : value :=
  match new with Some t => VStr t | None => old end.

Definition count (b : bool) : Z := if b then 1%Z else 0%Z.

Definition is_some {A} (o : option A) : bool :=
  match o with Some _ => true | None => false end.

(** A row as [initialize_output_columns] leaves it. *)
Definition fresh_row (code text : cell) : Row :=
  mkRow code text (map (fun c => (c, VNone)) output_columns).

(** A table of one row, ready to be processed. *)
Definition table_of (row : Row) : State :=
  mkState [row] init_stats idle.

Definition smashed_row : Row :=
  fresh_row (CellInt 459) (CellStr "Suspect smashed rear window.").

Definition overnight_row : Row :=
  fresh_row (CellInt 220) (CellStr "Burglary occurred overnight.").

(** A payload whose first suspect is the literal null and whose third
    suspect is beyond the two that are kept. *)
Definition lookout_payload : value :=
  VDict [ ("method_of_entry", VStr "door pry");
          ("suspects",
            VList [ VDict [("id", VStr "S1"); ("description", VStr "null")];
                    VDict [("id", VStr "S2");
                           ("description", VStr "  female, blonde, lookout ")];
                    VDict [("id", VStr "S3"); ("description", VStr "driver")] ]);
          ("vehicles", VList []) ].

Definition lookout_row : Row :=
  fresh_row (CellInt 220) (CellStr "S1 pried front door. S2 was lookout.").

(** A computation keeps the frame whatever its outcome. *)
Definition keeps (cols : list string) (proj : Stats -> Z) {A} (m : M A)
  : Prop :=
  forall st, kept cols proj st (snd (m st)).

(** An outcome of a request that [extract_with_llm] turns into a
    failure: the request raised, or the answer is not a JSON object. *)
Definition rejected (outcome : option value) : bool :=
  match outcome with
  | Some (VDict _) => false
  | _ => true
  end.

(** A client whose first [k] requests fail and whose later requests are
    answered with [payload]. *)
Definition failing_first (k : nat) (payload : value) : Client :=
  fun _ _ n => if Nat.ltb n k then None else Some payload.

(** The value [ensure_keys] gives a key that the payload lacks. *)
Definition default_of (k : string) : value :=
  if String.eqb k "suspects" || String.eqb k "vehicles" then VList []
  else VNone.

(** No rule of a table matches the text. *)
Definition none_found (rules : list (string * regex)) (text : string) : bool :=
  forallb (fun rule => negb (found (snd rule) text)) rules.

(** Some word of a table occurs in the text as a whole word. *)
Definition some_word_found (words : list string) (text : string) : bool :=
  existsb (fun w => found (whole_word w) text) words.

(** The two attributes [extract_vehicle_regex] reads off a word list. *)
Definition word_attribute (key : string) (words : list string) : Prop :=
  (key = "make" /\ words = makes) \/ (key = "color" /\ words = colors).

(** [n] pieces, each in [L], one after the other. *)
Fixpoint power (L : list ascii -> Prop) (n : nat) (m : list ascii) : Prop :=
  match n with
  | O => m = []
  | S k => exists m1 m2, m = m1 ++ m2 /\ L m1 /\ power L k m2
  end.

(** The texts a pattern can match, word boundaries left aside. *)
Fixpoint lang (r : regex) (m : list ascii) : Prop :=
  match r with
  | Eps => m = []
  | Chr p => exists x, m = [x] /\ p x = true
  | Seq r1 r2 => exists m1 m2, m = m1 ++ m2 /\ lang r1 m1 /\ lang r2 m2
  | Alt r1 r2 => lang r1 m \/ lang r2 m
  | Rep r0 lo extra =>
      exists n, lo <= n <= lo + extra /\ power (lang r0) n m
  | WordB => m = []
  end.

(** Every match of a matcher is a text of [L]. *)
Definition matches_in (L : list ascii -> Prop) (f : cursor -> list cursor)
  : Prop :=
  forall c e, In e (f c) -> exists m, snd c = m ++ snd e /\ L m.

(** A white-space character that [str.replace(' ', '')] leaves in
    place. *)
Definition other_space (c : ascii) : bool :=
  is_space c && negb (Ascii.eqb c " ").

(** The shape of a plate returned by the regex extractor: two or three
    letters, an optional white-space character other than the space,
    three or four digits; or a digit before the letters and three
    digits after them. *)
Definition plate_shape (v : string) : Prop :=
  exists head letters sep digits,
    v = string_of_list_ascii (head ++ letters ++ sep ++ digits) /\
    List.length head <= 1 /\ forallb is_digit head = true /\
    2 <= List.length letters <= 3 /\ forallb is_upper letters = true /\
    List.length sep <= 1 /\ forallb other_space sep = true /\
    3 <= List.length digits <= 4 /\ forallb is_digit digits = true /\
    List.length head + List.length digits <= 4.

(** What a step may do to the counters: it leaves the row totals alone
    and raises each of the three found-counters by no more than its
    allowance. *)
Definition within (a b c : Z) (st st' : State) : Prop :=
  total_rows (stats st') = total_rows (stats st) /\
  successful (stats st') = successful (stats st) /\
  failed (stats st') = failed (stats st) /\
  (method_extracted (stats st) <= method_extracted (stats st')
   <= method_extracted (stats st) + a)%Z /\
  (suspects_found (stats st) <= suspects_found (stats st')
   <= suspects_found (stats st) + b)%Z /\
  (vehicles_found (stats st) <= vehicles_found (stats st')
   <= vehicles_found (stats st) + c)%Z.

(** A computation that stays within the allowance, whatever its
    outcome. *)
Definition costs (a b c : Z) {A} (m : M A) : Prop :=
  forall st, within a b c st (snd (m st)).

(** The input cells of a row. *)
Definition inputs (r : Row) : cell * cell := (crime_code r, narrative r).

(** What [process_row] leaves alone when it works on row [idx]: the
    input cells of every row, every other row, and the columns of its
    own row that are not extraction columns. *)
Definition untouched (idx : nat) (st st' : State) : Prop :=
  map inputs (df st') = map inputs (df st) /\
  (forall j, j <> idx -> nth_error (df st') j = nth_error (df st) j) /\
  (forall c, ~ In c output_columns -> df_at st' idx c = df_at st idx c).

(** A computation confined to the extraction columns of row [idx]. *)
Definition confined (idx : nat) {A} (m : M A) : Prop :=
  forall st, untouched idx st (snd (m st)).

(** The counters after [n] more rows: every row counted once, as
    successful or as failed, and each found-counter raised by [n] at
    most. *)
Definition tallied (n : Z) (st st' : State) : Prop :=
  total_rows (stats st') = total_rows (stats st) /\
  (successful (stats st') + failed (stats st') =
   successful (stats st) + failed (stats st) + n)%Z /\
  (successful (stats st) <= successful (stats st'))%Z /\
  (failed (stats st) <= failed (stats st'))%Z /\
  (method_extracted (stats st) <= method_extracted (stats st')
   <= method_extracted (stats st) + n)%Z /\
  (suspects_found (stats st) <= suspects_found (stats st')
   <= suspects_found (stats st) + n)%Z /\
  (vehicles_found (stats st) <= vehicles_found (stats st')
   <= vehicles_found (stats st) + n)%Z.

(** A computation that leaves the outside world alone and raises
    nothing but [AttributeError]. *)
Definition quiet {A} (m : M A) : Prop :=
  forall st,
    world (snd (m st)) = world st /\
    forall e, fst (m st) = Raise e -> e = AttributeError.

(** A vehicle [process_row] stops at: a dict with a truthy value. *)
Definition usable_vehicle (v : value) : bool :=
  match v with
  | VDict d => any (dict_values d)
  | _ => false
  end.

(** A vehicle whose plate is a string or an empty value. *)
Definition plate_is_text (d : dict) : bool :=
  match dict_get "plate" d with
  | VStr _ => true
  | v => negb (truthy v)
  end.

(** The plate column after a vehicle was taken: the formatted plate
    when the vehicle has one, what the column held before otherwise. *)
Definition plate_after (d : dict) (old : value) : value :=
  if truthy (dict_get "plate" d)
  then match format_license_plate (dict_get "plate" d) with
       | Ok p => p
       | Raise _ => old
       end
  else old.

(** A payload with an empty vehicle before the one that counts, and a
    third vehicle after it. *)
Definition getaway_payload : value :=
  VDict [ ("method_of_entry", VNone);
          ("suspects", VList []);
          ("vehicles",
            VList [ VDict [("make", VNone); ("model", VNone);
                           ("color", VNone); ("plate", VStr "")];
                    VDict [("make", VStr "Toyota"); ("model", VStr "Camry");
                           ("color", VStr "red"); ("plate", VStr "ab-12 34")];
                    VDict [("make", VStr "Ford"); ("model", VNone);
                           ("color", VNone); ("plate", VNone)] ]) ].

Definition getaway_row : Row :=
  fresh_row (CellInt 459) (CellStr "Fled in red Toyota Camry.").

(** [s.endswith(suffix)] for a non-empty suffix. *)
Fixpoint ends_with (suffix s : string) : bool :=
  String.eqb s suffix ||
  match s with
  | EmptyString => false
  | String _ s' => ends_with suffix s'
  end.

(** The closing fence, as the third pattern sees it. *)
Definition closing : list atom := [Spaces; Lit "```"; Eos].

(** An answer in a code fence: the opening tag, a line feed, the body,
    a line feed and the closing fence. *)
Definition fenced (tag body : string) : string :=
  String.append tag
    (String "010" (String.append body (String "010" "```"))).

(** A value on which [clean_suspect_description] and
    [format_license_plate] raise: truthy and not a string. *)
Definition raising (v : value) : bool :=
  match v with
  | VStr _ => false
  | _ => truthy v
  end.

(** A string that does not start with white space. *)
Definition no_leading_space (t : string) : bool :=
  match t with
  | EmptyString => true
  | String c _ => negb (is_space c)
  end.

(** A payload whose first suspect is described by a number. *)
Definition numbered_payload : value :=
  VDict [ ("method_of_entry", VStr "door kick");
          ("suspects",
            VList [ VDict [("id", VStr "S1"); ("description", VInt 1)];
                    VDict [("id", VStr "S2"); ("description", VStr "tall")] ]);
          ("vehicles",
            VList [ VDict [("make", VStr "Ford"); ("model", VNone);
                           ("color", VNone); ("plate", VNone)] ]) ].

Definition kicked_row : Row :=
  fresh_row (CellInt 220) (CellStr "S1 kicked door.").

(** What [n] rows may cost at the default retry bound: three requests
    and two sleeps each, at most. *)
Definition spent (n : nat) (w w' : World) : Prop :=
  calls w <= calls w' <= calls w + 3 * n /\
  List.length (sleeps w) <= List.length (sleeps w')
    <= List.length (sleeps w) + 2 * n.

(** A payload whose only vehicle has no value at all. *)
Definition no_vehicle_payload : value :=
  VDict [ ("method_of_entry", VStr "unlocked");
          ("suspects", VList []);
          ("vehicles",
            VList [ VDict [("make", VNone); ("model", VNone);
                           ("color", VNone); ("plate", VNone)] ]) ].

(** A client that fails in both ways: odd requests raise, even requests
    are answered with text that decodes to a JSON list, not an object. *)
Definition flaky : Client :=
  fun _ _ n => if Nat.even n then Some (VList [VStr "no object"]) else None.



(** A string that does not end with white space. *)
Fixpoint no_trailing_space (t : string) : bool :=
  match t with
  | EmptyString => true
  | String c EmptyString => negb (is_space c)
  | String _ t' => no_trailing_space t'
  end.

(** [core] is [s] without the white space on either side of it. *)
Definition trimmed (s core : string) : Prop :=
  exists lead trail,
    s = (lead ++ core ++ trail)%string /\
    all_chars is_space lead = true /\
    all_chars is_space trail = true /\
    no_leading_space core = true /\
    no_trailing_space core = true.

(** [t] is [core] cut after [n] characters: its first [n] characters,
    or all of it when it has fewer. *)
Definition cut_at (n : nat) (core t : string) : Prop :=
  exists rest,
    core = (t ++ rest)%string /\
    String.length t = Nat.min n (String.length core).


(** A payload whose vehicle has a number for a plate. *)
Definition numbered_plate_payload : value :=
  VDict [ ("method_of_entry", VNone);
          ("suspects", VList []);
          ("vehicles",
            VList [ VDict [("make", VStr "Toyota"); ("model", VNone);
                           ("color", VStr "red"); ("plate", VInt 1234)] ]) ].

(** The narrative "smashed gla" followed by a sharp s (223). *)
Definition smashed_glass_sharp_s : string :=
  String.append "smashed gla" (String "223" "").

(** ** Characters and strings *)

Lemma all_chars_app (p : ascii -> bool) (a b : string) :
  all_chars p (a ++ b) = all_chars p a && all_chars p b.
Proof.
  induction a as [|c a IH]; simpl; [reflexivity|].
  now rewrite IH, andb_assoc.
Qed.

(** Upper-casing is idempotent, character by character. *)
Lemma to_upper_fixed (c : ascii) : all_chars upper_fixed (to_upper c) = true.
Proof.
  destruct c as [[] [] [] [] [] [] [] []]; vm_compute; reflexivity.
Qed.

Lemma class_starts_plate (c : ascii) :
  is_upper c || is_digit c = true -> plate_char c = true.
Proof.
  destruct c as [[] [] [] [] [] [] [] []]; vm_compute; intro H;
    first [reflexivity | discriminate H].
Qed.

Lemma all_chars_impl (p q : ascii -> bool) (s : string) :
  (forall c, p c = true -> q c = true) ->
  all_chars p s = true -> all_chars q s = true.
Proof.
  intros Hpq. induction s as [|c s IH]; simpl; [reflexivity|].
  rewrite !andb_true_iff. intros [Hc Hs]. split; auto.
Qed.

Lemma all_chars_and (p q : ascii -> bool) (s : string) :
  all_chars p s = true -> all_chars q s = true ->
  all_chars (fun c => p c && q c) s = true.
Proof.
  induction s as [|c s IH]; simpl; [reflexivity|].
  rewrite !andb_true_iff. intros [Hp Hs] [Hq Hs']. auto.
Qed.

Lemma all_chars_upper (s : string) : all_chars upper_fixed (upper s) = true.
Proof.
  induction s as [|c s IH]; simpl; [reflexivity|].
  now rewrite all_chars_app, to_upper_fixed, IH.
Qed.

Lemma upper_of_fixed (s : string) :
  all_chars upper_fixed s = true -> upper s = s.
Proof.
  induction s as [|c s IH]; simpl; [reflexivity|].
  rewrite andb_true_iff. intros [Hc Hs].
  apply String.eqb_eq in Hc. rewrite Hc. simpl. now rewrite IH.
Qed.

Lemma all_chars_drop (p : ascii -> bool) (x : ascii) (s : string) :
  all_chars p s = true -> all_chars p (replace x "" s) = true.
Proof.
  induction s as [|c s IH]; simpl; [reflexivity|].
  rewrite andb_true_iff. intros [Hc Hs].
  destruct (Ascii.eqb c x); simpl; [auto|]. now rewrite Hc, IH.
Qed.

Lemma dropped_absent (x : ascii) (s : string) :
  all_chars (not_char x) (replace x "" s) = true.
Proof.
  induction s as [|c s IH]; simpl; [reflexivity|].
  destruct (Ascii.eqb c x) eqn:E; simpl; [exact IH|].
  unfold not_char at 1. now rewrite E, IH.
Qed.

Lemma drop_of_absent (x : ascii) (s : string) :
  all_chars (not_char x) s = true -> replace x "" s = s.
Proof.
  induction s as [|c s IH]; simpl; [reflexivity|].
  rewrite andb_true_iff. unfold not_char at 1. intros [Hc Hs].
  apply negb_true_iff in Hc. now rewrite Hc, IH.
Qed.

Lemma strip_separators_plate (s : string) :
  all_chars upper_fixed s = true ->
  all_chars plate_char (strip_separators s) = true.
Proof.
  intro H. unfold strip_separators, plate_char.
  apply all_chars_and; [apply all_chars_and|].
  - now apply all_chars_drop, all_chars_drop.
  - apply all_chars_drop, dropped_absent.
  - apply dropped_absent.
Qed.

Lemma plate_normal_form (s : string) :
  all_chars plate_char s = true ->
  upper s = s /\ strip_separators s = s.
Proof.
  intro H.
  assert (Hu : all_chars upper_fixed s = true).
  { revert H. apply all_chars_impl. unfold plate_char. intros c Hc.
    now apply andb_true_iff in Hc as [Hc _]; apply andb_true_iff in Hc as [Hc _]. }
  assert (Hs : all_chars (not_char " ") s = true).
  { revert H. apply all_chars_impl. unfold plate_char. intros c Hc.
    now apply andb_true_iff in Hc as [Hc _]; apply andb_true_iff in Hc as [_ Hc]. }
  assert (Hh : all_chars (not_char "-") s = true).
  { revert H. apply all_chars_impl. unfold plate_char. intros c Hc.
    now apply andb_true_iff in Hc as [_ Hc]. }
  split; [now apply upper_of_fixed|].
  unfold strip_separators. rewrite (drop_of_absent " " s Hs).
  now apply drop_of_absent.
Qed.

Lemma plate_not_null (s : string) :
  all_chars plate_char s = true -> String.eqb s "null" = false.
Proof.
  intro H. destruct (String.eqb s "null") eqn:E; [|reflexivity].
  apply String.eqb_eq in E. subst s. vm_compute in H. discriminate H.
Qed.

(** [format_license_plate] leaves a non-empty plate in normal form as
    it is. *)
Lemma format_plate_normal (s : string) :
  nonempty s = true -> all_chars plate_char s = true ->
  format_license_plate (VStr s) = Ok (VStr s).
Proof.
  intros Hne H. unfold format_license_plate.
  rewrite Hne, (plate_not_null s H). simpl.
  destruct (plate_normal_form s H) as [Hu Hs].
  fold (strip_separators (upper s)). now rewrite Hu, Hs.
Qed.

(** No character becomes a space or a hyphen by upper-casing. *)
Lemma separator_upper (c : ascii) :
  strip_separators (to_upper c) = "" -> separator c = true.
Proof.
  destruct c as [[] [] [] [] [] [] [] []]; vm_compute; intro H;
    first [reflexivity | discriminate H].
Qed.

Lemma strip_separators_cons (c : ascii) (s : string) :
  strip_separators (String c s) =
  if separator c then strip_separators s else String c (strip_separators s).
Proof.
  unfold strip_separators, separator. simpl.
  destruct (Ascii.eqb c " ") eqn:E1; simpl; [reflexivity|].
  destruct (Ascii.eqb c "-"); reflexivity.
Qed.

Lemma strip_separators_app (a b : string) :
  strip_separators (a ++ b) =
  (strip_separators a ++ strip_separators b)%string.
Proof.
  induction a as [|c a IH]; [reflexivity|].
  change (String c a ++ b)%string with (String c (a ++ b)).
  rewrite !strip_separators_cons, IH. now destruct (separator c).
Qed.

Lemma strip_separators_empty (s : string) :
  strip_separators (upper s) = "" -> all_chars separator s = true.
Proof.
  induction s as [|c s IH]; [reflexivity|].
  cbn [upper all_chars]. rewrite strip_separators_app.
  destruct (strip_separators (to_upper c)) eqn:E; [|discriminate].
  simpl. intro H. now rewrite (separator_upper c E), (IH H).
Qed.

Lemma nonempty_false (s : string) : nonempty s = false -> s = "".
Proof. destruct s; [reflexivity | discriminate]. Qed.

(** ** The plate normalizer *)

(** C7, as amended.  Applying [format_license_plate] twice gives the
    result of applying it once for every string that is not a non-empty
    run of spaces and hyphens. *)
Theorem format_license_plate_idempotent (p : string) :
  only_separators p = false ->
  format_twice (VStr p) = format_license_plate (VStr p).
Proof.
  intro Hsep. unfold format_twice.
  cbn [format_license_plate].
  destruct (negb (nonempty p) || String.eqb p "null") eqn:Hguard;
    [reflexivity|].
  apply orb_false_iff in Hguard as [Hne _]. apply negb_false_iff in Hne.
  fold (strip_separators (upper p)).
  assert (Hplate : all_chars plate_char (strip_separators (upper p)) = true)
    by apply strip_separators_plate, all_chars_upper.
  destruct (nonempty (strip_separators (upper p))) eqn:Hres.
  - now apply format_plate_normal.
  - apply nonempty_false, strip_separators_empty in Hres.
    unfold only_separators in Hsep. now rewrite Hne, Hres in Hsep.
Qed.

Lemma format_license_plate_idempotent_witness :
  only_separators "ab-1234" = false /\
  format_twice (VStr "ab-1234") = format_license_plate (VStr "ab-1234").
Proof.
  split; [reflexivity|].
  apply (format_license_plate_idempotent "ab-1234"). reflexivity.
Defined.

(** C7, as stated, fails on a plate made of one space: the first
    application returns the empty string, the second one [None]. *)
Lemma format_license_plate_not_idempotent :
  format_license_plate (VStr " ") = Ok (VStr "") /\
  format_twice (VStr " ") = Ok VNone /\
  format_twice (VStr " ") <> format_license_plate (VStr " ").
Proof.
  repeat split; try reflexivity. vm_compute. discriminate.
Qed.

(** ** The matcher *)

Lemma advances_rep_upto (f : cursor -> list cursor) (n : nat) :
  advances f -> advances (rep_upto f n).
Proof.
  intros Hf. induction n as [|n IH]; intros c e; simpl.
  - intros [<-|[]]. now exists [].
  - rewrite in_app_iff, in_flat_map. intros [[c1 [H1 H2]]|[<-|[]]].
    + destruct (Hf _ _ H1) as [m1 E1]. destruct (IH _ _ H2) as [m2 E2].
      exists (m1 ++ m2). now rewrite E1, E2, app_assoc.
    + now exists [].
Qed.

Lemma advances_rep_exact (f k : cursor -> list cursor) (n : nat) :
  advances f -> advances k -> advances (rep_exact f n k).
Proof.
  intros Hf Hk. induction n as [|n IH]; intros c e; simpl.
  - apply Hk.
  - rewrite in_flat_map. intros [c1 [H1 H2]].
    destruct (Hf _ _ H1) as [m1 E1]. destruct (IH _ _ H2) as [m2 E2].
    exists (m1 ++ m2). now rewrite E1, E2, app_assoc.
Qed.

Lemma advances_rmatch (r : regex) : advances (rmatch r).
Proof.
  induction r as [|p|r1 IH1 r2 IH2|r1 IH1 r2 IH2|r IH lo extra|];
    intros c e; simpl.
  - intros [<-|[]]. now exists [].
  - destruct c as [b [|x a]]; simpl; [intros []|].
    destruct (p x); [|intros []]. intros [<-|[]]. now exists [x].
  - rewrite in_flat_map. intros [c1 [H1 H2]].
    destruct (IH1 _ _ H1) as [m1 E1]. destruct (IH2 _ _ H2) as [m2 E2].
    exists (m1 ++ m2). now rewrite E1, E2, app_assoc.
  - rewrite in_app_iff. intros [H|H]; [now apply IH1 | now apply IH2].
  - apply advances_rep_exact; [exact IH|]. now apply advances_rep_upto.
  - destruct (xorb _ _); [|intros []]. intros [<-|[]]. now exists [].
Qed.

Lemma starts_chr (p : ascii -> bool) : starts p (rmatch (Chr p)).
Proof.
  intros [b [|x a]] e; simpl; [intros []|].
  destruct (p x) eqn:E; [|intros []]. intros [<-|[]].
  exists x, []. now split.
Qed.

Lemma starts_seq (p : ascii -> bool) (r1 r2 : regex) :
  starts p (rmatch r1) -> starts p (rmatch (Seq r1 r2)).
Proof.
  intros H1 c e. simpl. rewrite in_flat_map. intros [c1 [Hc1 He]].
  destruct (H1 _ _ Hc1) as [x [m [E Hx]]].
  destruct (advances_rmatch r2 _ _ He) as [m2 E2].
  exists x, (m ++ m2). split; [|exact Hx].
  now rewrite E, E2, <- app_assoc.
Qed.

Lemma starts_after_wordb (p : ascii -> bool) (r : regex) :
  starts p (rmatch r) -> starts p (rmatch (Seq WordB r)).
Proof.
  intros H c e. simpl. destruct (xorb _ _); simpl; [|intros []].
  rewrite app_nil_r. apply H.
Qed.

Lemma starts_rep (p : ascii -> bool) (r : regex) (lo extra : nat) :
  starts p (rmatch r) -> starts p (rmatch (Rep r (S lo) extra)).
Proof.
  intros H c e. simpl. rewrite in_flat_map. intros [c1 [Hc1 He]].
  destruct (H _ _ Hc1) as [x [m [E Hx]]].
  assert (Hadv : advances (rep_exact (rmatch r) lo (rep_upto (rmatch r) extra)))
    by (apply advances_rep_exact;
        [apply advances_rmatch | apply advances_rep_upto, advances_rmatch]).
  destruct (Hadv _ _ He) as [m2 E2].
  exists x, (m ++ m2). split; [|exact Hx].
  now rewrite E, E2, <- app_assoc.
Qed.

Lemma starts_impl (p q : ascii -> bool) (f : cursor -> list cursor) :
  (forall x, p x = true -> q x = true) -> starts p f -> starts q f.
Proof.
  intros Hpq H c e He. destruct (H _ _ He) as [x [m [E Hx]]].
  exists x, m. auto.
Qed.

(** The text of a match is a piece of the subject. *)
Lemma search_from_sound (r : regex) (a b : list ascii) (m : cursor * cursor) :
  search_from r b a = Some m ->
  In (snd m) (rmatch r (fst m)) /\
  exists pre, a = pre ++ snd (fst m).
Proof.
  revert b. induction a as [|x a IH]; intros b; simpl.
  - destruct (rmatch r (b, [])) as [|e l] eqn:E; [discriminate|].
    intros [= <-]. simpl. rewrite E. split; [now left | now exists []].
  - destruct (rmatch r (b, x :: a)) as [|e l] eqn:E.
    + intros H. destruct (IH _ H) as [H1 [pre H2]].
      split; [exact H1|]. exists (x :: pre). now rewrite H2.
    + intros [= <-]. simpl. rewrite E. split; [now left | now exists []].
Qed.

Lemma firstn_app_exact {A} (m rest : list A) :
  firstn (List.length (m ++ rest) - List.length rest) (m ++ rest) = m.
Proof.
  rewrite length_app.
  replace (List.length m + List.length rest - List.length rest)
    with (List.length m) by lia.
  rewrite firstn_app, firstn_all. 
  replace (List.length m - List.length m) with 0 by lia.
  simpl. apply app_nil_r.
Qed.

Lemma all_chars_of_list (p : ascii -> bool) (l : list ascii) :
  all_chars p (string_of_list_ascii l) = forallb p l.
Proof.
  induction l as [|x l IH]; simpl; [reflexivity | now rewrite IH].
Qed.

Lemma all_chars_to_list (p : ascii -> bool) (s : string) :
  forallb p (list_ascii_of_string s) = all_chars p s.
Proof.
  induction s as [|x s IH]; simpl; [reflexivity | now rewrite IH].
Qed.

(** The text matched by a search is made of characters of the subject,
    and starts as the pattern starts. *)
Lemma search_group0 (r : regex) (s : string) (m : cursor * cursor)
      (p q : ascii -> bool) :
  search r s = Some m ->
  all_chars p s = true ->
  starts q (rmatch r) ->
  all_chars p (group0 m) = true /\
  exists x t, group0 m = String x t /\ q x = true.
Proof.
  unfold search. intros Hs Hp Hq.
  destruct (search_from_sound _ _ _ _ Hs) as [Hin [pre Hpre]].
  destruct (Hq _ _ Hin) as [x [t [E Hx]]].
  unfold group0. rewrite E.
  change (x :: t ++ snd (snd m)) with ((x :: t) ++ snd (snd m)).
  rewrite firstn_app_exact. split.
  - rewrite all_chars_of_list.
    rewrite <- all_chars_to_list, Hpre, E in Hp.
    rewrite forallb_app in Hp. apply andb_true_iff in Hp as [_ Hp].
    change (x :: t ++ snd (snd m)) with ((x :: t) ++ snd (snd m)) in Hp.
    rewrite forallb_app in Hp. now apply andb_true_iff in Hp as [Hp _].
  - exists x, (string_of_list_ascii t). now split.
Qed.

(** ** The regex plate extractor *)

Lemma plate_patterns_start :
  Forall (fun r => starts plate_start (rmatch r)) plate_patterns.
Proof.
  unfold plate_patterns. repeat constructor.
  - apply starts_after_wordb, starts_seq, starts_rep.
    apply (starts_impl is_upper); [|apply starts_chr].
    intros x Hx. unfold plate_start. now rewrite Hx.
  - apply starts_after_wordb, starts_seq.
    apply (starts_impl is_digit); [|apply starts_chr].
    intros x Hx. unfold plate_start. rewrite Hx. apply orb_true_r.
  - apply starts_after_wordb, starts_seq, starts_rep.
    apply (starts_impl is_upper); [|apply starts_chr].
    intros x Hx. unfold plate_start. now rewrite Hx.
Qed.

Lemma plate_char_not_separator (c : ascii) :
  plate_char c = true -> separator c = false.
Proof.
  destruct c as [[] [] [] [] [] [] [] []]; vm_compute; intro H;
    first [reflexivity | discriminate H].
Qed.

Lemma first_plate_normal (patterns : list regex) (text v : string) :
  Forall (fun r => starts plate_start (rmatch r)) patterns ->
  all_chars upper_fixed text = true ->
  first_plate patterns text = Some v ->
  nonempty v = true /\ all_chars plate_char v = true.
Proof.
  intros Hpat Htext. induction Hpat as [|r rs Hr _ IH]; simpl; [discriminate|].
  destruct (search r text) as [m|] eqn:Hs; [|exact IH].
  intros [= <-]. fold (strip_separators (group0 m)).
  destruct (search_group0 r text m upper_fixed plate_start Hs Htext Hr)
    as [Hall [x [t [Hg Hx]]]].
  split; [|now apply strip_separators_plate].
  rewrite Hg, strip_separators_cons.
  now rewrite (plate_char_not_separator x (class_starts_plate x Hx)).
Qed.

Lemma extracted_plate_normal (narrative v : string) :
  extract_license_plate_regex narrative = Some v ->
  nonempty v = true /\ all_chars plate_char v = true.
Proof.
  apply first_plate_normal; [apply plate_patterns_start | apply all_chars_upper].
Qed.

Lemma plate_char_parts (s : string) :
  all_chars plate_char s = true ->
  all_chars (not_char " ") s = true /\ all_chars (not_char "-") s = true.
Proof.
  intro H. split; revert H; apply all_chars_impl; unfold plate_char;
    intros c Hc; apply andb_true_iff in Hc as [Hc Hh];
    [now apply andb_true_iff in Hc as [_ Hc] | exact Hh].
Qed.

(** C10.  A plate returned by the regex extractor is a fixpoint of the
    normalizer: upper-casing leaves it as it is, it holds no space and
    no hyphen, and [format_license_plate] returns it unchanged. *)
Theorem extracted_plate_is_normalized (narrative v : string) :
  extract_license_plate_regex narrative = Some v ->
  upper v = v /\
  all_chars (not_char " ") v = true /\
  all_chars (not_char "-") v = true /\
  format_license_plate (VStr v) = Ok (VStr v).
Proof.
  intro H. destruct (extracted_plate_normal _ _ H) as [Hne Hall].
  destruct (plate_char_parts v Hall) as [Hs Hh].
  destruct (plate_normal_form v Hall) as [Hu _].
  repeat split; try assumption. now apply format_plate_normal.
Qed.

Lemma extracted_plate_is_normalized_witness :
  extract_license_plate_regex "Plate: abc-1234." = Some "ABC1234" /\
  format_license_plate (VStr "ABC1234") = Ok (VStr "ABC1234").
Proof.
  split; [reflexivity|].
  apply (extracted_plate_is_normalized "Plate: abc-1234." "ABC1234").
  reflexivity.
Defined.

(** ** The regex fallback *)

Lemma first_word_nonempty (words : list string) (text w : string) :
  Forall (fun x => nonempty (title x) = true) words ->
  first_word words text = Some w -> nonempty w = true.
Proof.
  intros Hw. induction Hw as [|x xs Hx _ IH]; simpl; [discriminate|].
  destruct (found (whole_word x) text); [|exact IH]. now intros [= <-].
Qed.

Lemma makes_nonempty : Forall (fun x => nonempty (title x) = true) makes.
Proof. unfold makes. repeat constructor. Qed.

Lemma colors_nonempty : Forall (fun x => nonempty (title x) = true) colors.
Proof. unfold colors. repeat constructor. Qed.

Lemma extract_vehicle_regex_shape (narrative : string) :
  extract_vehicle_regex narrative =
  [ ("make", of_opt_str (first_word makes (lower narrative)));
    ("model", VNone);
    ("color", of_opt_str (first_word colors (lower narrative)));
    ("plate", of_opt_str (extract_license_plate_regex narrative)) ].
Proof.
  unfold extract_vehicle_regex.
  destruct (first_word makes (lower narrative));
    destruct (first_word colors (lower narrative)); reflexivity.
Qed.

Lemma truthy_opt_nonempty (o : option string) :
  (forall s, o = Some s -> nonempty s = true) ->
  truthy (of_opt_str o) = populated (of_opt_str o).
Proof.
  destruct o as [s|]; simpl; [|reflexivity]. intro H. now apply H.
Qed.

Lemma vehicle_any_populated (narrative : string) :
  any (dict_values (extract_vehicle_regex narrative)) =
  any_populated (extract_vehicle_regex narrative).
Proof.
  rewrite extract_vehicle_regex_shape.
  unfold any, any_populated, dict_values.
  cbn [map snd existsb dict_get String.eqb Ascii.eqb Bool.eqb].
  cbn [truthy populated].
  rewrite (truthy_opt_nonempty (first_word makes (lower narrative))),
          (truthy_opt_nonempty (first_word colors (lower narrative))),
          (truthy_opt_nonempty (extract_license_plate_regex narrative)).
  - reflexivity.
  - intros s Hs. now apply extracted_plate_normal in Hs.
  - intros s. apply first_word_nonempty, colors_nonempty.
  - intros s. apply first_word_nonempty, makes_nonempty.
Qed.

(** C8.  The regex fallback returns no suspect, never fills the model
    of its vehicle, and lists its vehicle, alone, exactly when one of
    make, model, color and plate is populated. *)
Theorem fallback_suspects_model_vehicles (narrative : string) :
  let vehicle := extract_vehicle_regex narrative in
  let extracted := fallback_regex_extraction narrative in
  dict_get "suspects" extracted = VList [] /\
  dict_get "model" vehicle = VNone /\
  dict_get "vehicles" extracted =
    VList (if any_populated vehicle then [VDict vehicle] else []).
Proof.
  cbv zeta. split; [reflexivity|]. split.
  { rewrite extract_vehicle_regex_shape. reflexivity. }
  assert (E : dict_get "vehicles" (fallback_regex_extraction narrative) =
              VList (if any_populated (extract_vehicle_regex narrative)
                     then [VDict (extract_vehicle_regex narrative)] else [])).
  { unfold fallback_regex_extraction.
    rewrite vehicle_any_populated. reflexivity. }
  exact E.
Qed.

(** ** The entry-method extractor *)

Lemma entry_methods_names : map fst entry_methods = entry_method_order.
Proof. reflexivity. Qed.

Lemma first_method_first_match (rules : list (string * regex)) (text : string)
      (i : nat) (method : string) (pattern : regex) :
  nth_error rules i = Some (method, pattern) ->
  found pattern text = true ->
  (forall j m p, j < i -> nth_error rules j = Some (m, p) ->
                 found p text = false) ->
  first_method rules text = label method.
Proof.
  revert i. induction rules as [|[m0 p0] rules IH]; intros i Hi Hfound Hbefore.
  - destruct i; discriminate Hi.
  - destruct i as [|i]; simpl in *.
    + injection Hi as -> ->. now rewrite Hfound.
    + rewrite (Hbefore 0 m0 p0); [|lia|reflexivity].
      apply (IH i Hi Hfound). intros j m p Hj Hnth.
      apply (Hbefore (S j) m p); [lia | exact Hnth].
Qed.

(** C5.  When several rules match the lower-cased narrative, the label
    returned is the one of the first matching rule in the order
    window_smash, door_pry, door_kick, lock_pick, unlocked, cut_screen,
    garage_door, unknown. *)
Theorem entry_method_first_in_priority
        (narrative : string) (i : nat) (method : string) (pattern : regex) :
  nth_error entry_methods i = Some (method, pattern) ->
  found pattern (lower narrative) = true ->
  (forall j m p, j < i -> nth_error entry_methods j = Some (m, p) ->
                 found p (lower narrative) = false) ->
  nth_error entry_method_order i = Some method /\
  extract_entry_method_regex narrative = label method.
Proof.
  intros Hi Hfound Hbefore. split.
  - rewrite <- entry_methods_names, nth_error_map, Hi. reflexivity.
  - unfold extract_entry_method_regex.
    now apply (first_method_first_match entry_methods _ i method pattern).
Qed.

Lemma entry_method_first_in_priority_witness :
  let narrative := "Suspect smashed the window. Unknown entry point." in
  nth_error entry_method_order 0 = Some "window_smash" /\
  extract_entry_method_regex narrative = label "window_smash".
Proof.
  cbv zeta.
  eapply (entry_method_first_in_priority
            "Suspect smashed the window. Unknown entry point." 0 "window_smash").
  - reflexivity.
  - vm_compute. reflexivity.
  - intros j m p Hj. lia.
Defined.

(** The narrative of the witness matches the last rule as well, and the
    label is spelled with a space. *)
Example smashed_window_unknown_entry :
  let narrative := "Suspect smashed the window. Unknown entry point." in
  (exists p, nth_error entry_methods 7 = Some ("unknown", p) /\
             found p (lower narrative) = true) /\
  extract_entry_method_regex narrative = "window smash".
Proof.
  cbv zeta. split; [|vm_compute; reflexivity].
  eexists. split; [reflexivity | vm_compute; reflexivity].
Qed.

Example pick_lock_then_kicked_door :
  extract_entry_method_regex
    "Suspects attempted to pick lock, then kicked door open. Fled in red Toyota."
  = "door kick".
Proof. vm_compute. reflexivity. Qed.

Lemma first_method_in (rules : list (string * regex)) (text : string) :
  In (first_method rules text) (map label (map fst rules) ++ ["Not specified"]).
Proof.
  induction rules as [|[m p] rules IH]; simpl; [now left|].
  destruct (found p text); [now left | now right].
Qed.

(** C6.  The entry-method extractor returns one string, and that string
    is the label of one of the eight rules or the sentinel. *)
Theorem entry_method_in_fixed_set (narrative : string) :
  In (extract_entry_method_regex narrative)
     (map label entry_method_order ++ ["Not specified"]) /\
  map label entry_method_order ++ ["Not specified"] =
    [ "window smash"; "door pry"; "door kick"; "lock pick"; "unlocked";
      "cut screen"; "garage door"; "unknown"; "Not specified" ].
Proof.
  split; [|reflexivity].
  rewrite <- entry_methods_names. apply first_method_in.
Qed.

(** ** The retry loop *)

Section Retry.

Variable client : Client.
Variables narrative crime_code : string.

(** A request answered with a JSON object is accepted; its payload is
    returned with the three keys ensured. *)
Lemma extract_with_llm_accepts (w : World) (d : dict) :
  client narrative crime_code (calls w) = Some (VDict d) ->
  extract_with_llm client narrative crime_code w =
  (Ok (ensure_keys d), mkWorld (S (calls w)) (sleeps w) (stdout w)).
Proof.
  intro H. unfold extract_with_llm, wbind, request. now rewrite H.
Qed.

(** A request that raises, or whose answer is not a JSON object, makes
    [extract_with_llm] raise after the request. *)
Lemma extract_with_llm_rejects (w : World) :
  rejected (client narrative crime_code (calls w)) = true ->
  extract_with_llm client narrative crime_code w =
  (Raise LLMExtractionFailed, mkWorld (S (calls w)) (sleeps w) (stdout w)).
Proof.
  intro H. unfold extract_with_llm, wbind, request.
  destruct (client narrative crime_code (calls w)) as [[| | | | | |p]|];
    try reflexivity. discriminate H.
Qed.

(** When every request fails, [todo] attempts that end the loop make
    [todo] requests and sleep between two of them. *)
Lemma attempts_unreachable (retries : Z) (todo : nat) :
  (forall k, rejected (client narrative crime_code k) = true) ->
  forall (attempt : Z) (last_error : option exn) (w : World),
  (attempt + Z.of_nat todo = retries)%Z ->
  exists e,
    attempts client narrative crime_code retries todo attempt last_error w =
    (Ok (fallback_regex_extraction narrative),
     mkWorld (calls w + todo)
             (repeat Config.RETRY_DELAY (pred todo) ++ sleeps w)
             (FallingBack :: FallbackWarning retries e :: stdout w)).
Proof.
  intro Hdown. induction todo as [|todo IH]; intros attempt last_error w Hsum.
  - exists last_error. cbn. now rewrite Nat.add_0_r.
  - cbn [attempts]. unfold wtry at 1.
    rewrite extract_with_llm_rejects by apply Hdown.
    unfold wbind at 1.
    destruct (Z.ltb attempt (retries - 1)) eqn:Hlt.
    + apply Z.ltb_lt in Hlt. destruct todo as [|todo]; [lia|].
      unfold sleep at 1. cbn [calls sleeps stdout].
      edestruct (IH (attempt + 1)%Z (Some LLMExtractionFailed)) as [e ->];
        [lia|].
      exists e. cbn [calls sleeps stdout pred]. f_equal. f_equal.
      * lia.
      * cbn [repeat]. rewrite repeat_cons, <- app_assoc. reflexivity.
    + apply Z.ltb_ge in Hlt. destruct todo as [|todo]; [|lia].
      unfold wret at 1.
      edestruct (IH (attempt + 1)%Z (Some LLMExtractionFailed)) as [e ->];
        [lia|].
      exists e. cbn [calls sleeps stdout pred repeat app]. f_equal. f_equal. lia.
Qed.

End Retry.

(** C3.  With a client that fails on every call, by raising or by
    answering something that is not a JSON object, and a retry bound of
    at least one, [extract_with_llm_safe] makes exactly [max_retries]
    requests, sleeps exactly [max_retries - 1] times, each time for the
    fixed [RETRY_DELAY], and returns the regex fallback of the
    narrative. *)
Theorem retry_bound_then_fallback
        (client : Client) (narrative crime_code : string)
        (retries : option Z) (w : World) :
  (forall k, rejected (client narrative crime_code k) = true) ->
  (1 <= effective_retries retries)%Z ->
  let max_retries := effective_retries retries in
  let run := extract_with_llm_safe client narrative crime_code retries w in
  fst run = Ok (fallback_regex_extraction narrative) /\
  (Z.of_nat (calls (snd run)) = Z.of_nat (calls w) + max_retries)%Z /\
  exists n, sleeps (snd run) = repeat Config.RETRY_DELAY n ++ sleeps w /\
            (Z.of_nat n = max_retries - 1)%Z.
Proof.
  intros Hdown Hpos. cbv zeta.
  unfold extract_with_llm_safe. fold (effective_retries retries).
  set (r := effective_retries retries) in *.
  destruct (attempts_unreachable client narrative crime_code r (Z.to_nat r)
              Hdown 0%Z None w) as [e ->]; [lia|].
  cbn [fst snd calls sleeps]. split; [reflexivity|]. split; [lia|].
  exists (pred (Z.to_nat r)). split; [reflexivity | lia].
Qed.

Lemma retry_bound_then_fallback_witness :
  (forall k, rejected (flaky "Rear window smashed." "459" k) = true) /\
  (1 <= effective_retries None)%Z /\
  fst (extract_with_llm_safe flaky "Rear window smashed." "459" None idle)
    = Ok (fallback_regex_extraction "Rear window smashed.") /\
  (Z.of_nat (calls (snd (extract_with_llm_safe flaky
                           "Rear window smashed." "459" None idle)))
   = Z.of_nat (calls idle) + effective_retries None)%Z /\
  exists n,
    sleeps (snd (extract_with_llm_safe flaky
                   "Rear window smashed." "459" None idle))
      = repeat Config.RETRY_DELAY n ++ sleeps idle /\
    (Z.of_nat n = effective_retries None - 1)%Z.
Proof.
  assert (H : forall k, rejected (flaky "Rear window smashed." "459" k) = true).
  { intro k. unfold flaky. destruct (Nat.even k); reflexivity. }
  split; [exact H|].
  split; [vm_compute; discriminate|].
  apply (retry_bound_then_fallback flaky "Rear window smashed." "459"
           None idle).
  - exact H.
  - vm_compute. discriminate.
Defined.

(** The default bound: three requests, two sleeps of one second, with
    the service down as with a service that answers no object. *)
Example three_requests_two_sleeps :
  calls (snd (extract_with_llm_safe unreachable "Rear window smashed." "459"
                None idle)) = 3 /\
  sleeps (snd (extract_with_llm_safe unreachable "Rear window smashed." "459"
                 None idle)) = [1%Z; 1%Z] /\
  extract_with_llm_safe flaky "Rear window smashed." "459" None idle =
  (Ok (fallback_regex_extraction "Rear window smashed."),
   mkWorld 3 [1%Z; 1%Z]
           [FallingBack; FallbackWarning 3 (Some LLMExtractionFailed)]).
Proof. repeat split; reflexivity. Qed.

(** A bound of zero or less: no request, no sleep, the fallback. *)
Lemma no_attempt_without_retries
      (client : Client) (narrative crime_code : string) (r : Z) (w : World) :
  (r <= 0)%Z ->
  extract_with_llm_safe client narrative crime_code (Some r) w =
  (Ok (fallback_regex_extraction narrative),
   mkWorld (calls w) (sleeps w)
           (FallingBack :: FallbackWarning r None :: stdout w)).
Proof.
  intro H. unfold extract_with_llm_safe.
  replace (Z.to_nat r) with 0 by lia. reflexivity.
Qed.

(** ** The keys of a payload *)

Lemma dict_get_missing (k : string) (d : dict) :
  dict_has k d = false -> dict_get k d = VNone.
Proof.
  induction d as [|[k' v] d IH]; simpl; [reflexivity|].
  destruct (String.eqb k k'); [discriminate | exact IH].
Qed.

Lemma dict_set_absent (k : string) (v : value) (d : dict) :
  dict_has k d = false -> dict_set k v d = d ++ [(k, v)].
Proof.
  induction d as [|[k' v'] d IH]; simpl; [reflexivity|].
  destruct (String.eqb k k'); [discriminate|]. intro H. now rewrite IH.
Qed.

Lemma dict_has_app (k : string) (d e : dict) :
  dict_has k (d ++ e) = dict_has k d || dict_has k e.
Proof.
  induction d as [|[k' v] d IH]; simpl; [reflexivity|].
  now rewrite IH, orb_assoc.
Qed.

Lemma dict_get_app (k : string) (d e : dict) :
  dict_get k (d ++ e) = if dict_has k d then dict_get k d else dict_get k e.
Proof.
  induction d as [|[k' v] d IH]; simpl; [reflexivity|].
  destruct (String.eqb k k'); [reflexivity | exact IH].
Qed.

(** One of the three tests of [ensure_keys]. *)
Lemma ensure_key_appends (k : string) (v : value) (d : dict) :
  (if dict_has k d then d else dict_set k v d) =
  d ++ (if dict_has k d then [] else [(k, v)]).
Proof.
  destruct (dict_has k d) eqn:E; [now rewrite app_nil_r|].
  now apply dict_set_absent.
Qed.

Lemma ensure_keys_appends (d : dict) :
  ensure_keys d =
  d ++ (if dict_has "method_of_entry" d then []
        else [("method_of_entry", VNone)])
    ++ (if dict_has "suspects" d then [] else [("suspects", VList [])])
    ++ (if dict_has "vehicles" d then [] else [("vehicles", VList [])]).
Proof.
  unfold ensure_keys. cbv zeta.
  rewrite (ensure_key_appends "method_of_entry" VNone d).
  set (d1 := d ++ _).
  rewrite (ensure_key_appends "suspects" (VList []) d1).
  set (d2 := d1 ++ _).
  rewrite (ensure_key_appends "vehicles" (VList []) d2).
  subst d2 d1. rewrite !dict_has_app.
  destruct (dict_has "method_of_entry" d), (dict_has "suspects" d),
    (dict_has "vehicles" d); cbn; rewrite ?app_nil_r, <- ?app_assoc;
    reflexivity.
Qed.

(** What a key reads as after the backfill. *)
Lemma ensure_keys_get (d : dict) (k : string) :
  dict_get k (ensure_keys d) =
  if dict_has k d then dict_get k d else default_of k.
Proof.
  rewrite ensure_keys_appends, dict_get_app.
  destruct (dict_has k d) eqn:Hk; [reflexivity|].
  unfold default_of.
  destruct (String.eqb_spec k "method_of_entry") as [->|N1].
  - rewrite Hk. reflexivity.
  - destruct (String.eqb_spec k "suspects") as [->|N2].
    + rewrite Hk. destruct (dict_has "method_of_entry" d); reflexivity.
    + destruct (String.eqb_spec k "vehicles") as [->|N3].
      * rewrite Hk.
        destruct (dict_has "method_of_entry" d), (dict_has "suspects" d);
          reflexivity.
      * apply dict_get_missing. rewrite !dict_has_app.
        apply String.eqb_neq in N1, N2, N3.
        destruct (dict_has "method_of_entry" d), (dict_has "suspects" d),
          (dict_has "vehicles" d); cbn; rewrite ?N1, ?N2, ?N3; reflexivity.
Qed.


(** ** The shape of extraction results *)

Lemma first_method_nonempty (rules : list (string * regex)) (text : string) :
  Forall (fun rule => nonempty (label (fst rule)) = true) rules ->
  nonempty (first_method rules text) = true.
Proof.
  intro H. induction H as [|[m p] rules Hm _ IH]; simpl; [reflexivity|].
  destruct (found p text); [exact Hm | exact IH].
Qed.

Lemma entry_method_nonempty (narrative : string) :
  nonempty (extract_entry_method_regex narrative) = true.
Proof.
  apply first_method_nonempty. unfold entry_methods.
  repeat (constructor; [reflexivity|]). constructor.
Qed.

Lemma fallback_conforms (narrative : string) :
  conforms (fallback_regex_extraction narrative) = true.
Proof.
  unfold conforms, fallback_regex_extraction.
  cbn [dict_get String.eqb Ascii.eqb Bool.eqb].
  rewrite entry_method_nonempty, orb_true_r.
  destruct (any (dict_values (extract_vehicle_regex narrative))); reflexivity.
Qed.

Section Shape.

Variable client : Client.
Variables narrative crime_code : string.

Lemma extract_with_llm_from_payload (w : World) :
  match fst (extract_with_llm client narrative crime_code w) with
  | Ok d => from_payload client narrative crime_code d
  | Raise e => e = LLMExtractionFailed
  end.
Proof.
  unfold extract_with_llm, wbind, request.
  destruct (client narrative crime_code (calls w)) as [v|] eqn:E;
    [|reflexivity].
  destruct v; try reflexivity.
  cbn. exists (calls w), d. now split.
Qed.

Lemma extract_with_llm_cases (w : World) :
  (exists d w', extract_with_llm client narrative crime_code w = (Ok d, w')
                /\ from_payload client narrative crime_code d) \/
  (exists w', extract_with_llm client narrative crime_code w =
              (Raise LLMExtractionFailed, w')).
Proof.
  pose proof (extract_with_llm_from_payload w) as H.
  destruct (extract_with_llm client narrative crime_code w) as [[d|e] w'];
    cbn in H.
  - left. now exists d, w'.
  - right. subst e. now exists w'.
Qed.

(** The wrapper never raises, and returns a result of the service or
    the regex fallback. *)
Lemma attempts_total (retries : Z) (todo : nat) :
  forall (attempt : Z) (last_error : option exn) (w : World),
  exists d w',
    attempts client narrative crime_code retries todo attempt last_error w =
    (Ok d, w') /\
    (d = fallback_regex_extraction narrative \/ from_payload client narrative crime_code d).
Proof.
  induction todo as [|todo IH]; intros attempt last_error w.
  - eexists _, _. split; [reflexivity | now left].
  - cbn [attempts]. unfold wtry at 1.
    destruct (extract_with_llm_cases w) as [[d [w' [-> Hd]]]|[w' ->]].
    + exists d, w'. split; [reflexivity | now right].
    + unfold wbind at 1.
      destruct (Z.ltb attempt (retries - 1)); cbn; apply IH.
Qed.

Lemma extract_with_llm_safe_total (retries : option Z) (w : World) :
  exists d w',
    extract_with_llm_safe client narrative crime_code retries w = (Ok d, w') /\
    (d = fallback_regex_extraction narrative \/ from_payload client narrative crime_code d).
Proof. apply attempts_total. Qed.

End Shape.


(** When every payload of the service conforms once its keys are
    ensured, so does every result of the wrapper. *)
Corollary extract_with_llm_safe_conforms
          (client : Client) (narrative crime_code : string)
          (retries : option Z) (w : World) :
  (forall k payload, client narrative crime_code k = Some (VDict payload) ->
                     conforms (ensure_keys payload) = true) ->
  exists d,
    fst (extract_with_llm_safe client narrative crime_code retries w) = Ok d /\
    conforms d = true.
Proof.
  intro H.
  destruct (extract_with_llm_safe_total client narrative crime_code retries w)
    as [d [w' [E [->|[k [payload [Hk ->]]]]]]]; rewrite E; eexists; split;
    try reflexivity.
  - apply fallback_conforms.
  - now apply (H k).
Qed.


(** ** The row pipeline: skipped rows *)

Lemma skipped_by_text (text : string) :
  text = "" \/ In (lower text) ["nan"; "none"; ""] -> skipped text = true.
Proof.
  unfold skipped. intros [->|H]; [reflexivity|].
  apply orb_true_iff. right.
  cbn in H. destruct H as [<-|[<-|[<-|[]]]]; reflexivity.
Qed.

Lemma process_row_skipped (client : Client) (idx : nat) (row : Row)
      (st : State) :
  skipped (str (narrative row)) = true ->
  process_row client idx row st = (Ok false, st).
Proof.
  intro H. unfold process_row, try_except. now rewrite H.
Qed.

(** C4.  A row whose narrative is empty, or reads nan, none or nothing
    in any letter case, makes [process_row] return [False] at once, in
    the state it was called in: no request is sent, no sleep taken, the
    table is left as it is.  The loop of [process_all] then adds one to
    [failed] and to no other counter: after the row the loop goes on
    from the state [st'] given here in full, which is also the final
    state when the row is the last one. *)
Theorem skipped_row_is_failed_only
        (client : Client) (total idx : nat) (row : Row) (rest : list Row)
        (st : State) :
  str (narrative row) = "" \/
  In (lower (str (narrative row))) ["nan"; "none"; ""] ->
  let counted :=
    mkStats (total_rows (stats st)) (successful (stats st))
            (failed (stats st) + 1) (method_extracted (stats st))
            (suspects_found (stats st)) (vehicles_found (stats st)) in
  let console :=
    if Nat.eqb (Nat.modulo (idx + 1) 10) 0 || Nat.eqb idx 0
    then Progress (idx + 1) total :: stdout (world st)
    else stdout (world st) in
  let st' :=
    mkState (df st) counted
            (mkWorld (calls (world st)) (sleeps (world st)) console) in
  process_row client idx row st = (Ok false, st) /\
  process_rows client total idx [row] st = (Ok tt, st') /\
  process_rows client total idx (row :: rest) st =
    process_rows client total (S idx) rest st'.
Proof.
  intro H. apply skipped_by_text in H. cbv zeta.
  split; [now apply process_row_skipped|].
  assert (Hloop : forall rows,
    process_rows client total idx (row :: rows) st =
    process_rows client total (S idx) rows
      (mkState (df st)
         (mkStats (total_rows (stats st)) (successful (stats st))
                  (failed (stats st) + 1) (method_extracted (stats st))
                  (suspects_found (stats st)) (vehicles_found (stats st)))
         (mkWorld (calls (world st)) (sleeps (world st))
            (if Nat.eqb (Nat.modulo (idx + 1) 10) 0 || Nat.eqb idx 0
             then Progress (idx + 1) total :: stdout (world st)
             else stdout (world st))))).
  { intro rows. destruct st as [table counters [requests naps lines]].
    cbn [process_rows df stats world calls sleeps stdout
         total_rows successful failed method_extracted suspects_found
         vehicles_found].
    unfold bind at 1.
    destruct (Nat.eqb (Nat.modulo (idx + 1) 10) 0 || Nat.eqb idx 0).
    - cbn [call print world df stats]. unfold bind at 1.
      rewrite process_row_skipped by exact H.
      unfold bind at 1. reflexivity.
    - cbn [ret]. unfold bind at 1.
      rewrite process_row_skipped by exact H.
      unfold bind at 1. reflexivity. }
  split; [|apply Hloop].
  rewrite (Hloop []). reflexivity.
Qed.

Lemma skipped_row_is_failed_only_witness :
  (str (narrative (fresh_row (CellInt 510) CellNaN)) = "" \/
   In (lower (str (narrative (fresh_row (CellInt 510) CellNaN))))
      ["nan"; "none"; ""]) /\
  process_row (answering crowded_payload) 0 (fresh_row (CellInt 510) CellNaN)
              (table_of (fresh_row (CellInt 510) CellNaN))
  = (Ok false, table_of (fresh_row (CellInt 510) CellNaN)) /\
  process_rows (answering crowded_payload) 1 0
               [fresh_row (CellInt 510) CellNaN]
               (table_of (fresh_row (CellInt 510) CellNaN))
  = (Ok tt, mkState [fresh_row (CellInt 510) CellNaN]
                    (mkStats 0 0 1 0 0 0)
                    (mkWorld 0 [] [Progress 1 1])) /\
  process_rows (answering crowded_payload) 1 0
               [fresh_row (CellInt 510) CellNaN]
               (table_of (fresh_row (CellInt 510) CellNaN))
  = process_rows (answering crowded_payload) 1 1 []
      (mkState [fresh_row (CellInt 510) CellNaN]
               (mkStats 0 0 1 0 0 0)
               (mkWorld 0 [] [Progress 1 1])).
Proof.
  split; [right; left; reflexivity|].
  apply (skipped_row_is_failed_only (answering crowded_payload) 1 0
           (fresh_row (CellInt 510) CellNaN) []
           (table_of (fresh_row (CellInt 510) CellNaN))).
  right. left. reflexivity.
Defined.

(** A whole run over three rows, the service down: the missing
    narrative and the one that reads None are failed rows, and only the
    third row reaches the service. *)
Example run_with_skipped_rows :
  let st := snd (process_all unreachable
                   (load [ (CellInt 510, CellNaN);
                           (CellInt 220, CellStr "NONE");
                           (CellInt 459, CellStr "Rear window smashed.") ])) in
  stats st = mkStats 3 1 2 1 0 0 /\ calls (world st) = 3.
Proof. vm_compute. split; reflexivity. Qed.

(** ** The table and its columns *)

Lemma dict_get_set_same (k : string) (v : value) (d : dict) :
  dict_get k (dict_set k v d) = v.
Proof.
  induction d as [|[k' v'] d IH]; simpl.
  - now rewrite String.eqb_refl.
  - destruct (String.eqb k k') eqn:E; simpl; rewrite E; [reflexivity | exact IH].
Qed.

Lemma dict_get_set_other (k k' : string) (v : value) (d : dict) :
  k <> k' -> dict_get k' (dict_set k v d) = dict_get k' d.
Proof.
  intro Hne. induction d as [|[k0 v0] d IH]; simpl.
  - destruct (String.eqb k' k) eqn:E; [|reflexivity].
    apply String.eqb_eq in E. now elim Hne.
  - destruct (String.eqb k k0) eqn:E; simpl.
    + apply String.eqb_eq in E. subst k0.
      destruct (String.eqb k' k) eqn:E'; [|reflexivity].
      apply String.eqb_eq in E'. now elim Hne.
    + now rewrite IH.
Qed.

Lemma length_update_nth {A} (n : nat) (f : A -> A) (l : list A) :
  List.length (update_nth n f l) = List.length l.
Proof.
  revert n. induction l as [|x l IH]; intros [|n]; simpl; auto.
Qed.

Lemma nth_error_update_nth {A} (n m : nat) (f : A -> A) (l : list A) :
  nth_error (update_nth n f l) m =
  if Nat.eqb n m then option_map f (nth_error l m) else nth_error l m.
Proof.
  revert n m. induction l as [|x l IH]; intros [|n] [|m]; simpl;
    try reflexivity; try apply IH.
  all: now destruct (Nat.eqb n m).
Qed.

Lemma df_at_set_ok (idx : nat) (col : string) (v : value) (st : State) :
  fst (df_at_set idx col v st) = Ok tt.
Proof. reflexivity. Qed.

Lemma df_at_set_same (idx : nat) (col : string) (v : value) (st : State) :
  idx < List.length (df st) ->
  df_at (snd (df_at_set idx col v st)) idx col = v.
Proof.
  intro H. unfold df_at, df_at_set. cbn [snd df].
  rewrite nth_error_update_nth, Nat.eqb_refl.
  destruct (nth_error (df st) idx) as [r|] eqn:E.
  - cbn. apply dict_get_set_same.
  - apply nth_error_None in E. lia.
Qed.

Lemma df_at_set_other (idx j : nat) (col c : string) (v : value) (st : State) :
  col <> c ->
  df_at (snd (df_at_set idx col v st)) j c = df_at st j c.
Proof.
  intro H. unfold df_at, df_at_set. cbn [snd df].
  rewrite nth_error_update_nth.
  destruct (Nat.eqb idx j); [|reflexivity].
  destruct (nth_error (df st) j) as [r|]; [|reflexivity].
  cbn. now apply dict_get_set_other.
Qed.

(** ** Steps that leave columns and counters alone *)

Section Kept.

Variable cols : list string.
Variable proj : Stats -> Z.

Lemma kept_refl (st : State) : kept cols proj st st.
Proof. repeat split. Qed.

Lemma kept_trans (st1 st2 st3 : State) :
  kept cols proj st1 st2 -> kept cols proj st2 st3 -> kept cols proj st1 st3.
Proof.
  intros [L1 [C1 P1]] [L2 [C2 P2]]. repeat split.
  - now rewrite L2.
  - intros idx c Hc. now rewrite C2, C1.
  - now rewrite P2.
Qed.

Lemma keeps_ret {A} (a : A) : keeps cols proj (ret a).
Proof. intro st. apply kept_refl. Qed.

Lemma keeps_pure {A} (r : result A) : keeps cols proj (pure r).
Proof. intro st. apply kept_refl. Qed.

Lemma keeps_bind {A B} (m : M A) (k : A -> M B) :
  keeps cols proj m -> (forall a, keeps cols proj (k a)) ->
  keeps cols proj (bind m k).
Proof.
  intros Hm Hk st. unfold bind. specialize (Hm st).
  destruct (m st) as [[a|e] st1]; cbn in *; [|exact Hm].
  eapply kept_trans; [exact Hm | apply Hk].
Qed.

Lemma keeps_call {A} (m : W A) : keeps cols proj (call m).
Proof.
  intro st. unfold call. destruct (m (world st)) as [r w']. repeat split.
Qed.

Lemma keeps_try {A} (m : M A) (h : exn -> M A) :
  keeps cols proj m -> (forall e, keeps cols proj (h e)) ->
  keeps cols proj (try_except m h).
Proof.
  intros Hm Hh st. unfold try_except. specialize (Hm st).
  destruct (m st) as [[a|e] st1]; cbn in *; [exact Hm|].
  eapply kept_trans; [exact Hm | apply Hh].
Qed.

Lemma keeps_set_stats (f : Stats -> Stats) :
  (forall s, proj (f s) = proj s) -> keeps cols proj (set_stats f).
Proof. intros H st. repeat split. cbn. apply H. Qed.

Lemma keeps_df_at_set (idx : nat) (col : string) (v : value) :
  ~ In col cols -> keeps cols proj (df_at_set idx col v).
Proof.
  intros H st. repeat split.
  - cbn. apply length_update_nth.
  - intros j c Hc. apply df_at_set_other. intros ->. now apply H.
Qed.

Lemma keeps_fill_method (idx : nat) (extracted : dict) :
  ~ In "method_of_entry" cols ->
  (forall s, proj (incr_method_extracted s) = proj s) ->
  keeps cols proj (fill_method idx extracted).
Proof.
  intros Hc Hp. unfold fill_method.
  destruct (truthy _); [|apply keeps_ret].
  apply keeps_bind; [now apply keeps_df_at_set|].
  intros _. now apply keeps_set_stats.
Qed.

Lemma keeps_fill_suspects (idx : nat) (extracted : dict) :
  (forall x, ~ In (String.append "suspect_" x) cols) ->
  (forall s, proj (incr_suspects_found s) = proj s) ->
  keeps cols proj (fill_suspects idx extracted).
Proof.
  intros Hc Hp. unfold fill_suspects.
  destruct (_ && _); [|apply keeps_ret].
  generalize (firstn 2 (as_list (dict_get "suspects" extracted))) as l.
  generalize 0 as i. intros i l. revert i.
  induction l as [|suspect l IH]; intro i; cbn [fill_suspects_loop].
  - apply keeps_ret.
  - apply keeps_bind; [|intros _; apply IH].
    unfold fill_suspect. destruct suspect; try apply keeps_ret.
    destruct (dict_has _ _); [|apply keeps_ret].
    apply keeps_bind; [apply keeps_pure|]. intro desc.
    destruct (truthy desc); [|apply keeps_ret].
    apply keeps_bind; [apply keeps_df_at_set, Hc|]. intros _.
    destruct (Nat.eqb i 0); [now apply keeps_set_stats | apply keeps_ret].
Qed.

Lemma keeps_fill_vehicle (idx : nat) (extracted : dict) :
  (forall c, In c ["vehicle_make"; "vehicle_model"; "vehicle_color";
                   "vehicle_plate"] -> ~ In c cols) ->
  (forall s, proj (incr_vehicles_found s) = proj s) ->
  keeps cols proj (fill_vehicle idx extracted).
Proof.
  intros Hc Hp. unfold fill_vehicle.
  destruct (_ && _); [|apply keeps_ret].
  generalize (as_list (dict_get "vehicles" extracted)) as l.
  induction l as [|vehicle l IH]; cbn [fill_vehicle_loop].
  - apply keeps_ret.
  - destruct vehicle; try exact IH.
    destruct (any _); [|exact IH].
    apply keeps_bind; [apply keeps_df_at_set, Hc; cbn; tauto|]. intros _.
    apply keeps_bind; [apply keeps_df_at_set, Hc; cbn; tauto|]. intros _.
    apply keeps_bind; [apply keeps_df_at_set, Hc; cbn; tauto|]. intros _.
    apply keeps_bind; [|intros _; now apply keeps_set_stats].
    destruct (truthy _); [|apply keeps_ret].
    apply keeps_bind; [apply keeps_pure|]. intro p.
    apply keeps_df_at_set, Hc. cbn. tauto.
Qed.

End Kept.

(** ** The row pipeline: a processed row *)

Lemma bind_ok {A B} (m : M A) (k : A -> M B) (st st1 : State) (a : A) :
  m st = (Ok a, st1) -> bind m k st = k a st1.
Proof. intro H. unfold bind. now rewrite H. Qed.

Lemma run_ok {A} (m : M A) (st : State) (a : A) :
  fst (m st) = Ok a -> m st = (Ok a, snd (m st)).
Proof. destruct (m st) as [r st1]. cbn. now intros ->. Qed.

Lemma try_bind_ok {A B} (m : M A) (k : A -> M B) (h : exn -> M B)
      (st : State) (a : A) :
  fst (m st) = Ok a ->
  try_except (bind m k) h st = try_except (k a) h (snd (m st)).
Proof.
  unfold try_except, bind. destruct (m st) as [[a'|e] st1]; cbn;
    [intros [= ->]; reflexivity | discriminate].
Qed.

Lemma try_bind_raise {A B} (m : M A) (k : A -> M B) (h : exn -> M B)
      (st : State) (e : exn) :
  fst (m st) = Raise e ->
  try_except (bind m k) h st = h e (snd (m st)).
Proof.
  unfold try_except, bind. destruct (m st) as [[a|e'] st1]; cbn;
    [discriminate | now intros [= ->]].
Qed.

Lemma fill_method_ok (idx : nat) (extracted : dict) (st : State) :
  fst (fill_method idx extracted st) = Ok tt.
Proof. unfold fill_method. destruct (truthy _); reflexivity. Qed.

(** What the method step writes and counts. *)
Lemma fill_method_effect (idx : nat) (extracted : dict) (st : State) :
  idx < List.length (df st) ->
  let v := dict_get "method_of_entry" extracted in
  let st' := snd (fill_method idx extracted st) in
  df_at st' idx "method_of_entry" =
    (if truthy v then v else df_at st idx "method_of_entry") /\
  method_extracted (stats st') =
    (method_extracted (stats st) + count (truthy v))%Z.
Proof.
  intro Hidx. cbv zeta. unfold fill_method.
  destruct (truthy (dict_get "method_of_entry" extracted)).
  - unfold bind. cbn [df_at_set set_stats snd fst stats].
    split; [|reflexivity].
    apply (df_at_set_same idx "method_of_entry" _ st Hidx).
  - cbn. split; [reflexivity | lia].
Qed.

Section Row.

Variable client : Client.
Variable idx : nat.
Variable row : Row.
Variable st : State.

Hypothesis not_skipped : skipped (str (narrative row)) = false.

(** [process_row] extracts, fills the method and goes on from there. *)
Lemma process_row_steps :
  exists st1,
    df st1 = df st /\ stats st1 = stats st /\
    process_row client idx row st =
    try_except
      (fill_suspects idx (extraction client row (world st)) ;;;
       fill_vehicle idx (extraction client row (world st)) ;;; ret true)
      (fun e => call (print (RowError idx e)) ;;; ret false)
      (snd (fill_method idx (extraction client row (world st)) st1)).
Proof.
  unfold process_row. rewrite not_skipped.
  destruct (extract_with_llm_safe_total client (str (narrative row))
              (str (crime_code row)) None (world st)) as [d [w' [E _]]].
  exists (mkState (df st) (stats st) w'). split; [reflexivity|].
  split; [reflexivity|].
  assert (Ed : extraction client row (world st) = d)
    by (unfold extraction; now rewrite E).
  rewrite Ed.
  rewrite (try_bind_ok _ _ _ st d) by (unfold call; now rewrite E).
  replace (snd (call (extract_with_llm_safe client (str (narrative row))
                        (str (crime_code row)) None) st))
    with (mkState (df st) (stats st) w')
    by (unfold call; now rewrite E).
  rewrite (try_bind_ok _ _ _ _ tt) by apply fill_method_ok.
  reflexivity.
Qed.

Lemma keeps_handler (cols : list string) (proj : Stats -> Z) (e : exn) :
  keeps cols proj (call (print (RowError idx e)) ;;; ret false).
Proof.
  apply keeps_bind; [apply keeps_call | intros _; apply keeps_ret].
Qed.

End Row.

(** ** The method column *)

Lemma suspect_column_is_not_method (x : string) :
  ~ In (String.append "suspect_" x) ["method_of_entry"].
Proof. intros [H|[]]. discriminate H. Qed.

Lemma vehicle_columns_are_not_method (c : string) :
  In c ["vehicle_make"; "vehicle_model"; "vehicle_color"; "vehicle_plate"] ->
  ~ In c ["method_of_entry"].
Proof.
  intros [<-|[<-|[<-|[<-|[]]]]] [H|[]]; discriminate H.
Qed.

(** C1, as amended.  For every processed row the method_of_entry column
    receives the entry method of the extraction result exactly when
    that value is truthy (a non-empty string, the sentinel included),
    and the method counter goes up by one exactly then. *)
Theorem method_column_set_when_truthy
        (client : Client) (idx : nat) (row : Row) (st : State) :
  nth_error (df st) idx = Some row ->
  skipped (str (narrative row)) = false ->
  let v := dict_get "method_of_entry" (extraction client row (world st)) in
  let st' := snd (process_row client idx row st) in
  df_at st' idx "method_of_entry" =
    (if truthy v then v else df_at st idx "method_of_entry") /\
  method_extracted (stats st') =
    (method_extracted (stats st) + count (truthy v))%Z.
Proof.
  intros Hrow Hskip. cbv zeta.
  destruct (process_row_steps client idx row st Hskip)
    as [st1 [Hdf [Hstats ->]]].
  set (d := extraction client row (world st)).
  assert (Hidx : idx < List.length (df st1)).
  { rewrite Hdf. apply nth_error_Some. now rewrite Hrow. }
  destruct (fill_method_effect idx d st1 Hidx) as [Hcol Hcount].
  assert (K : keeps ["method_of_entry"] method_extracted
                (try_except
                   (fill_suspects idx d ;;; fill_vehicle idx d ;;; ret true)
                   (fun e => call (print (RowError idx e)) ;;; ret false))).
  { apply keeps_try; [|intro e; apply keeps_handler].
    apply keeps_bind;
      [apply keeps_fill_suspects;
         [apply suspect_column_is_not_method | reflexivity]|].
    intros _. apply keeps_bind; [|intros _; apply keeps_ret].
    apply keeps_fill_vehicle;
      [apply vehicle_columns_are_not_method | reflexivity]. }
  destruct (K (snd (fill_method idx d st1))) as [_ [Kcol Kcount]].
  rewrite (Kcol idx "method_of_entry") by now left.
  rewrite Kcount, Hcol, Hcount.
  unfold df_at. now rewrite Hdf, Hstats.
Qed.

Lemma method_column_set_when_truthy_witness :
  nth_error (df (table_of smashed_row)) 0 = Some smashed_row /\
  skipped (str (narrative smashed_row)) = false /\
  df_at (snd (process_row unreachable 0 smashed_row (table_of smashed_row)))
        0 "method_of_entry"
  = (if truthy (dict_get "method_of_entry"
                  (extraction unreachable smashed_row
                     (world (table_of smashed_row))))
     then dict_get "method_of_entry"
            (extraction unreachable smashed_row (world (table_of smashed_row)))
     else df_at (table_of smashed_row) 0 "method_of_entry").
Proof.
  split; [reflexivity|]. split; [reflexivity|].
  apply (method_column_set_when_truthy unreachable 0 smashed_row
           (table_of smashed_row)); reflexivity.
Defined.

Example smashed_row_method :
  df_at (snd (process_row unreachable 0 smashed_row (table_of smashed_row)))
        0 "method_of_entry" = VStr "window smash".
Proof. vm_compute. reflexivity. Qed.

(** C1, as stated, fails on the sentinel: with the service down and a
    narrative that no rule matches, the extraction result holds
    "Not specified", and [process_row] writes it and counts it. *)
Lemma sentinel_is_written_and_counted :
  dict_get "method_of_entry"
    (extraction unreachable overnight_row (world (table_of overnight_row)))
    = VStr "Not specified" /\
  df_at (snd (process_row unreachable 0 overnight_row
                (table_of overnight_row)))
        0 "method_of_entry" = VStr "Not specified" /\
  method_extracted
    (stats (snd (process_row unreachable 0 overnight_row
                   (table_of overnight_row)))) = 1%Z.
Proof. vm_compute. repeat split; reflexivity. Qed.

(** ** The suspect columns *)

Lemma take_strip_empty : take 100 (strip "") = "".
Proof. reflexivity. Qed.

(** The body of the suspect loop on a suspect described by text: it
    writes the cleaned description, if there is one, and counts it at
    index 0. *)
Lemma fill_suspect_effect (idx i : nat) (suspect : value) (st : State) :
  described_by_text suspect = true ->
  fill_suspect idx i suspect st =
  match cleaned suspect with
  | Some t =>
      (df_at_set idx (String.append "suspect_" (str_of_int (Z.of_nat i + 1)))
                 (VStr t) ;;;
       (if Nat.eqb i 0 then set_stats incr_suspects_found else ret tt)) st
  | None => (Ok tt, st)
  end.
Proof.
  unfold fill_suspect, cleaned, description_of, described_by_text.
  destruct suspect as [| | | | |l|d]; try reflexivity.
  destruct (dict_has "description" d); [|reflexivity].
  destruct (dict_get "description" d) as [|b|z|f|s|l|d'] eqn:E;
    cbn [negb orb]; intro H;
    try (unfold bind, pure, clean_suspect_description;
         rewrite ?H; apply negb_true_iff in H; rewrite ?H; reflexivity).
  unfold bind at 1, pure, clean_suspect_description.
  destruct s as [|c s]; [reflexivity|]. cbn [nonempty negb orb].
  destruct (String.eqb (String c s) "null"); [reflexivity|].
  cbn [truthy].
  destruct (nonempty (take 100 (strip (String c s)))); reflexivity.
Qed.

Lemma fill_suspects_as_loop (idx : nat) (extracted : dict) (st : State) :
  fill_suspects idx extracted st =
  fill_suspects_loop idx 0 (first_suspects extracted) st.
Proof.
  unfold fill_suspects, first_suspects.
  destruct (dict_get "suspects" extracted) as [|b|z|f|s|l|d];
    cbn [is_list as_list]; rewrite ?andb_false_r; try reflexivity.
  destruct l; reflexivity.
Qed.

Lemma first_suspects_short (extracted : dict) :
  List.length (first_suspects extracted) <= 2.
Proof. unfold first_suspects. apply firstn_le_length. Qed.

Lemma suspect_columns_differ :
  "suspect_1" <> "suspect_2" /\ "suspect_2" <> "suspect_1".
Proof. split; discriminate. Qed.

(** Writing one suspect column. *)
Lemma write_suspect (idx : nat) (col : string) (t : string) (st : State)
      (f : Stats -> Stats) :
  idx < List.length (df st) ->
  let st' := snd ((df_at_set idx col (VStr t) ;;; set_stats f) st) in
  fst ((df_at_set idx col (VStr t) ;;; set_stats f) st) = Ok tt /\
  List.length (df st') = List.length (df st) /\
  df_at st' idx col = VStr t /\
  (forall c, col <> c -> df_at st' idx c = df_at st idx c) /\
  stats st' = f (stats st).
Proof.
  intro H. cbv zeta. unfold bind. cbn [df_at_set set_stats fst snd].
  split; [reflexivity|]. split; [apply length_update_nth|].
  split; [apply (df_at_set_same idx col (VStr t) st H)|].
  split; [|reflexivity].
  intros c Hc. now apply (df_at_set_other idx idx col c (VStr t) st).
Qed.

Lemma write_suspect_uncounted (idx : nat) (col : string) (t : string)
      (st : State) :
  (df_at_set idx col (VStr t) ;;; ret tt) st =
  (df_at_set idx col (VStr t) ;;; set_stats (fun s => s)) st.
Proof.
  unfold bind. cbn. f_equal. f_equal. now destruct (stats st).
Qed.

(** One turn of the loop on a table where [idx] is a row. *)
Lemma fill_suspect_turn (idx i : nat) (suspect : value) (st : State) :
  described_by_text suspect = true ->
  idx < List.length (df st) ->
  let col := String.append "suspect_" (str_of_int (Z.of_nat i + 1)) in
  let st' := snd (fill_suspect idx i suspect st) in
  fst (fill_suspect idx i suspect st) = Ok tt /\
  List.length (df st') = List.length (df st) /\
  df_at st' idx col = column_after (cleaned suspect) (df_at st idx col) /\
  (forall c, col <> c -> df_at st' idx c = df_at st idx c) /\
  suspects_found (stats st') =
    (suspects_found (stats st) +
     (if Nat.eqb i 0 then count (is_some (cleaned suspect)) else 0))%Z.
Proof.
  intros Htext Hidx. cbv zeta. rewrite (fill_suspect_effect idx i _ st Htext).
  destruct (cleaned suspect) as [t|]; cbn [column_after is_some count].
  - destruct (Nat.eqb i 0).
    + destruct (write_suspect idx
                  (String.append "suspect_" (str_of_int (Z.of_nat i + 1)))
                  t st incr_suspects_found Hidx) as [H1 [H2 [H3 [H4 H5]]]].
      repeat split; try assumption; try (now rewrite H5).
    + rewrite write_suspect_uncounted.
      destruct (write_suspect idx
                  (String.append "suspect_" (str_of_int (Z.of_nat i + 1)))
                  t st (fun s => s) Hidx) as [H1 [H2 [H3 [H4 H5]]]].
      repeat split; try assumption; try (rewrite H5; lia).
  - cbn [fst snd]. repeat split; try reflexivity;
      try (destruct (Nat.eqb i 0); lia).
Qed.

(** What the suspect step writes and counts. *)
Lemma fill_suspects_effect (idx : nat) (extracted : dict) (st : State) :
  idx < List.length (df st) ->
  forallb described_by_text (first_suspects extracted) = true ->
  let st' := snd (fill_suspects idx extracted st) in
  fst (fill_suspects idx extracted st) = Ok tt /\
  df_at st' idx "suspect_1" =
    column_after (cleaned_at extracted 1) (df_at st idx "suspect_1") /\
  df_at st' idx "suspect_2" =
    column_after (cleaned_at extracted 2) (df_at st idx "suspect_2") /\
  suspects_found (stats st') =
    (suspects_found (stats st) + count (is_some (cleaned_at extracted 1)))%Z.
Proof.
  intros Hidx Htext. cbv zeta. rewrite fill_suspects_as_loop.
  unfold cleaned_at. pose proof (first_suspects_short extracted) as Hlen.
  destruct (first_suspects extracted) as [|a [|b [|c l]]];
    cbn [forallb] in Htext; cbn [List.length] in Hlen; [| | |lia].
  - cbn. repeat split; try reflexivity. lia.
  - apply andb_true_iff in Htext as [Ha _].
    destruct (fill_suspect_turn idx 0 a st Ha Hidx) as [H1 [H2 [H3 [H4 H5]]]].
    cbn [fill_suspects_loop].
    rewrite (bind_ok _ _ _ _ _ (run_ok _ _ _ H1)).
    set (st1 := snd (fill_suspect idx 0 a st)) in *.
    cbn [ret fst snd Nat.sub nth_error].
    repeat split; try assumption.
    cbn [column_after]. apply H4. discriminate.
  - apply andb_true_iff in Htext as [Ha Hb].
    apply andb_true_iff in Hb as [Hb _].
    destruct (fill_suspect_turn idx 0 a st Ha Hidx) as [H1 [H2 [H3 [H4 H5]]]].
    cbn [fill_suspects_loop].
    rewrite (bind_ok _ _ _ _ _ (run_ok _ _ _ H1)).
    set (st1 := snd (fill_suspect idx 0 a st)) in *.
    assert (Hidx1 : idx < List.length (df st1)) by now rewrite H2.
    destruct (fill_suspect_turn idx 1 b st1 Hb Hidx1)
      as [G1 [G2 [G3 [G4 G5]]]].
    rewrite (bind_ok _ _ _ _ _ (run_ok _ _ _ G1)).
    set (st2 := snd (fill_suspect idx 1 b st1)) in *.
    cbn [ret fst snd Nat.sub nth_error].
    split; [reflexivity|]. split; [|split].
    + rewrite (G4 "suspect_1") by discriminate. exact H3.
    + change (String.append "suspect_" (str_of_int (Z.of_nat 1 + 1)))
        with "suspect_2" in G3.
      rewrite G3. f_equal. apply H4. discriminate.
    + rewrite G5, H5. cbn [Nat.eqb]. lia.
Qed.

(** *** Trimming and cutting *)

Lemma take_length (n : nat) (s : string) : String.length (take n s) <= n.
Proof.
  revert s. induction n as [|n IH]; intros [|c s]; simpl; try lia.
  specialize (IH s). lia.
Qed.

Lemma lstrip_fixed (s : string) : no_leading_space (lstrip s) = true.
Proof.
  induction s as [|c s IH]; [reflexivity|]. cbn [lstrip].
  destruct (is_space c) eqn:E; [exact IH|]. cbn. now rewrite E.
Qed.

Lemma rstrip_keeps_head (s : string) :
  no_leading_space s = true -> no_leading_space (rstrip s) = true.
Proof.
  destruct s as [|c s]; [reflexivity|]. cbn [no_leading_space rstrip].
  intro H. destruct (rstrip s); [|exact H].
  apply negb_true_iff in H. rewrite H. cbn. now rewrite H.
Qed.

Lemma take_keeps_head (n : nat) (s : string) :
  no_leading_space s = true -> no_leading_space (take n s) = true.
Proof. destruct n, s; cbn; auto. Qed.

(** [lstrip] removes a run of white space from the front. *)
Lemma lstrip_split (s : string) :
  exists lead,
    s = (lead ++ lstrip s)%string /\ all_chars is_space lead = true.
Proof.
  induction s as [|c s [lead [E A]]]; [now exists ""|].
  cbn [lstrip]. destruct (is_space c) eqn:Sc.
  - exists (String c lead). split.
    + cbn [append]. f_equal. exact E.
    + cbn [all_chars]. now rewrite Sc, A.
  - now exists "".
Qed.

(** [rstrip] removes a run of white space from the end, and all of
    it. *)
Lemma rstrip_split (s : string) :
  exists trail,
    s = (rstrip s ++ trail)%string /\ all_chars is_space trail = true /\
    no_trailing_space (rstrip s) = true.
Proof.
  induction s as [|c s [trail [E [A N]]]]; [now exists ""|].
  cbn [rstrip]. destruct (rstrip s) as [|c' r] eqn:R.
  - cbn [append] in E. subst trail.
    destruct (is_space c) eqn:Sc.
    + exists (String c s). split; [reflexivity|].
      split; [cbn [all_chars]; now rewrite Sc, A | reflexivity].
    + exists s. split; [reflexivity|].
      split; [exact A | cbn; now rewrite Sc].
  - exists trail. split; [|split; [exact A | exact N]].
    cbn [append]. f_equal. exact E.
Qed.

Lemma strip_trimmed (s : string) : trimmed s (strip s).
Proof.
  destruct (lstrip_split s) as [lead [E1 A1]].
  destruct (rstrip_split (lstrip s)) as [trail [E2 [A2 N]]].
  exists lead, trail. unfold strip.
  split; [now rewrite <- E2|]. split; [exact A1|]. split; [exact A2|].
  split; [apply rstrip_keeps_head, lstrip_fixed | exact N].
Qed.


(** [s[:n]] is the prefix of [n] characters, or all of [s]. *)
Lemma take_cut (n : nat) (s : string) : cut_at n s (take n s).
Proof.
  unfold cut_at. revert s. induction n as [|n IH]; intro s.
  - exists s. destruct s; split; reflexivity.
  - destruct s as [|c s]; [exists ""; split; reflexivity|].
    destruct (IH s) as [rest [E L]]. exists rest.
    cbn [take append String.length]. split; [f_equal; exact E|].
    cbn [Nat.min]. now rewrite L.
Qed.








(** White space above code 127 is trimmed like any other: a no-break
    space (160) in front and a next-line control (133) behind are
    removed, and a description of no-break spaces only leaves nothing
    to write. *)
Example no_break_space_is_trimmed :
  clean_suspect_description (VStr (String "160" (String "t" (String "133" ""))))
    = Ok (VStr "t") /\
  cleaned (VDict [("description", VStr (String "160" (String "160" "")))])
    = None.
Proof. split; reflexivity. Qed.

(** Two suspects, the first one given as the literal null: suspect_1
    stays empty, suspect_2 is written and nothing is counted. *)
Example second_suspect_alone_is_not_counted :
  df_at (snd (process_row (answering lookout_payload) 0 lookout_row
                (table_of lookout_row))) 0 "suspect_1" = VNone /\
  df_at (snd (process_row (answering lookout_payload) 0 lookout_row
                (table_of lookout_row))) 0 "suspect_2"
    = VStr "female, blonde, lookout" /\
  stats (snd (process_row (answering lookout_payload) 0 lookout_row
                (table_of lookout_row))) = mkStats 0 0 0 1 0 0.
Proof. vm_compute. repeat split; reflexivity. Qed.

(* ------------------------------------------------------------------ *)
(** * Further properties of the extraction engine *)

(** ** The retry loop, whatever the service does *)

Section RetryAnyClient.

Variable client : Client.
Variables narrative crime_code : string.

(** [k] failed requests, then an accepted payload, all within the
    attempts that are left. *)
Lemma attempts_succeed_after (retries : Z) (d : dict) (k : nat) :
  forall (todo : nat) (attempt : Z) (last_error : option exn) (w : World),
  (attempt + Z.of_nat todo = retries)%Z ->
  k < todo ->
  (forall j, j < k ->
             rejected (client narrative crime_code (calls w + j)) = true) ->
  client narrative crime_code (calls w + k) = Some (VDict d) ->
  attempts client narrative crime_code retries todo attempt last_error w =
  (Ok (ensure_keys d),
   mkWorld (calls w + S k)
           (repeat Config.RETRY_DELAY k ++ sleeps w)
           (stdout w)).
Proof.
  induction k as [|k IH]; intros todo attempt last_error w Hsum Hk Hfail Hok;
    (destruct todo as [|todo]; [lia|]); cbn [attempts]; unfold wtry at 1.
  - rewrite Nat.add_0_r in Hok. rewrite (extract_with_llm_accepts client narrative crime_code w d Hok).
    cbn [repeat app]. do 2 f_equal. lia.
  - rewrite extract_with_llm_rejects
      by (rewrite <- (Nat.add_0_r (calls w)); apply Hfail; lia).
    unfold wbind at 1.
    replace (Z.ltb attempt (retries - 1)) with true
      by (symmetry; apply Z.ltb_lt; lia).
    unfold sleep at 1. cbn [calls sleeps stdout].
    rewrite (IH todo (attempt + 1)%Z (Some LLMExtractionFailed)).
    + cbn [calls sleeps stdout]. do 2 f_equal; [lia|].
      cbn [repeat]. rewrite repeat_cons, <- app_assoc. reflexivity.
    + lia.
    + lia.
    + cbn [calls]. intros j Hj.
      replace (S (calls w) + j) with (calls w + S j) by lia.
      apply Hfail. lia.
    + cbn [calls]. replace (S (calls w) + k) with (calls w + S k) by lia.
      exact Hok.
Qed.

(** The requests and sleeps of the loop are bounded by the attempts
    left.  A payload is returned at the first request that is accepted,
    and the fallback is announced and taken only after every attempt
    left was made and failed. *)
Lemma attempts_bounded (retries : Z) (todo : nat) :
  forall (attempt : Z) (last_error : option exn) (w : World),
  todo = 0 \/ (attempt + Z.of_nat todo = retries)%Z ->
  exists d c n out,
    attempts client narrative crime_code retries todo attempt last_error w =
    (Ok d, mkWorld (calls w + c)
                   (repeat Config.RETRY_DELAY n ++ sleeps w) out) /\
    c <= todo /\ n <= c /\ n <= pred todo /\
    ((out = stdout w /\ from_payload client narrative crime_code d /\
      n = pred c /\ 0 < c /\
      (exists payload,
          client narrative crime_code (calls w + pred c) =
            Some (VDict payload) /\
          d = ensure_keys payload) /\
      (forall j, j < pred c ->
                 rejected (client narrative crime_code (calls w + j)) = true)) \/
     ((exists e, out = FallingBack :: FallbackWarning retries e :: stdout w) /\
      d = fallback_regex_extraction narrative /\ c = todo /\ n = pred todo /\
      (forall j, j < c ->
                 rejected (client narrative crime_code (calls w + j)) = true))).
Proof.
  induction todo as [|todo IH]; intros attempt last_error w Hsum.
  - exists (fallback_regex_extraction narrative), 0, 0,
      (FallingBack :: FallbackWarning retries last_error :: stdout w).
    split; [cbn; now rewrite Nat.add_0_r|].
    do 3 (split; [lia|]). right.
    split; [now exists last_error|].
    do 3 (split; [reflexivity|]). intros j Hj. lia.
  - destruct Hsum as [Hsum|Hsum]; [discriminate Hsum|].
    cbn [attempts]. unfold wtry at 1.
    destruct (rejected (client narrative crime_code (calls w))) eqn:R.
    + rewrite (extract_with_llm_rejects client narrative crime_code w R).
      unfold wbind at 1.
      assert (Hshift : forall c' : nat, forall P : nat -> Prop,
                 P (calls w) ->
                 (forall j, j < c' -> P (S (calls w) + j)) ->
                 forall j, j < S c' -> P (calls w + j)).
      { intros c' P H0 HS j Hj. destruct j as [|j].
        - now rewrite Nat.add_0_r.
        - replace (calls w + S j) with (S (calls w) + j) by lia.
          apply HS. lia. }
      destruct (Z.ltb attempt (retries - 1)) eqn:Hlt.
      * apply Z.ltb_lt in Hlt. unfold sleep at 1. cbn [calls sleeps stdout].
        destruct (IH (attempt + 1)%Z (Some LLMExtractionFailed)
                     (mkWorld (S (calls w))
                              (Config.RETRY_DELAY :: sleeps w) (stdout w)))
          as [d [c [n [out [E [Hc [Hn [Hp Hout]]]]]]]]; [right; lia|].
        rewrite E. cbn [calls sleeps stdout] in *.
        exists d, (S c), (S n), out.
        split.
        { do 2 f_equal; [lia|].
          cbn [repeat]. rewrite repeat_cons, <- app_assoc. reflexivity. }
        do 3 (split; [lia|]).
        destruct Hout as [[-> [Hd [Hn' [Hc' [[p [Hp1 Hp2]] Hrej]]]]]
                         |[He [-> [-> [-> Hrej]]]]].
        -- left. split; [reflexivity|]. split; [exact Hd|].
           split; [lia|]. split; [lia|]. split.
           ++ exists p. split; [|exact Hp2].
              replace (calls w + pred (S c)) with (S (calls w) + pred c)
                by lia. exact Hp1.
           ++ replace (pred (S c)) with (S (pred c)) by lia.
              apply (Hshift (pred c)
                       (fun k => rejected (client narrative crime_code k)
                                 = true)); assumption.
        -- right. split; [exact He|]. split; [reflexivity|].
           split; [reflexivity|]. split; [lia|].
           apply (Hshift todo
                    (fun k => rejected (client narrative crime_code k)
                              = true)); assumption.
      * apply Z.ltb_ge in Hlt. unfold wret at 1. cbn [calls sleeps stdout].
        assert (todo = 0) by lia. subst todo.
        destruct (IH (attempt + 1)%Z (Some LLMExtractionFailed)
                     (mkWorld (S (calls w)) (sleeps w) (stdout w)))
          as [d [c [n [out [E [Hc [Hn [Hp Hout]]]]]]]]; [now left|].
        rewrite E. cbn [calls sleeps stdout] in *.
        exists d, (S c), n, out.
        split; [do 2 f_equal; lia|].
        do 3 (split; [lia|]).
        destruct Hout as [[_ [_ [_ [Hc' _]]]]|[He [-> [-> [-> Hrej]]]]];
          [lia|].
        right. split; [exact He|]. split; [reflexivity|].
        split; [reflexivity|]. split; [reflexivity|].
        intros j Hj. assert (j = 0) by lia. subst j.
        now rewrite Nat.add_0_r.
    + destruct (client narrative crime_code (calls w)) as [[| | | | | |p]|]
        eqn:E; try discriminate R.
      rewrite (extract_with_llm_accepts client narrative crime_code w p E).
      exists (ensure_keys p), 1, 0, (stdout w).
      split; [cbn [repeat app]; do 2 f_equal; lia|].
      do 3 (split; [lia|]). left.
      split; [reflexivity|]. split; [now exists (calls w), p|].
      split; [reflexivity|]. split; [lia|]. split.
      * exists p. split; [|reflexivity]. cbn [pred].
        now rewrite Nat.add_0_r.
      * intros j Hj. cbn [pred] in Hj. lia.
Qed.

End RetryAnyClient.

(** X1.  When the first [k] requests fail, [k] below the retry bound,
    and the next one is answered with a JSON object, the wrapper stops
    there: [k + 1] requests, [k] sleeps of [RETRY_DELAY], nothing
    printed, and the payload returned with its keys ensured. *)
Theorem retry_stops_at_first_success
        (client : Client) (narrative crime_code : string)
        (retries : option Z) (w : World) (k : nat) (d : dict) :
  (Z.of_nat k < effective_retries retries)%Z ->
  (forall j, j < k ->
             rejected (client narrative crime_code (calls w + j)) = true) ->
  client narrative crime_code (calls w + k) = Some (VDict d) ->
  extract_with_llm_safe client narrative crime_code retries w =
  (Ok (ensure_keys d),
   mkWorld (calls w + S k) (repeat Config.RETRY_DELAY k ++ sleeps w)
           (stdout w)).
Proof.
  intros Hk Hfail Hok. unfold extract_with_llm_safe.
  fold (effective_retries retries).
  apply attempts_succeed_after; try assumption; lia.
Qed.

Lemma retry_stops_at_first_success_witness :
  (Z.of_nat 2 < effective_retries None)%Z /\
  extract_with_llm_safe (failing_first 2 lookout_payload)
    "S1 pried front door." "220" None idle =
  (Ok (ensure_keys [ ("method_of_entry", VStr "door pry");
          ("suspects",
            VList [ VDict [("id", VStr "S1"); ("description", VStr "null")];
                    VDict [("id", VStr "S2");
                           ("description", VStr "  female, blonde, lookout ")];
                    VDict [("id", VStr "S3"); ("description", VStr "driver")] ]);
          ("vehicles", VList []) ]),
   mkWorld (calls idle + 3) (repeat Config.RETRY_DELAY 2 ++ sleeps idle)
           (stdout idle)).
Proof.
  split; [reflexivity|].
  apply (retry_stops_at_first_success (failing_first 2 lookout_payload)
           "S1 pried front door." "220" None idle 2).
  - reflexivity.
  - intros j Hj. destruct j as [|[|j]]; [reflexivity | reflexivity | lia].
  - reflexivity.
Defined.

(** X2.  Whatever the service does, the wrapper returns a result after
    at most [max_retries] requests and sleeps only between two
    requests.  It prints nothing when it returns a payload, which is
    then the answer to its last request, all earlier requests having
    failed; and it takes the regex fallback, announced by its two
    lines, only when it made all [max_retries] requests and every one
    of them failed. *)
Theorem retry_requests_and_sleeps_bounded
        (client : Client) (narrative crime_code : string)
        (retries : option Z) (w : World) :
  exists d c out,
    extract_with_llm_safe client narrative crime_code retries w =
    (Ok d, mkWorld (calls w + c)
                   (repeat Config.RETRY_DELAY (pred c) ++ sleeps w) out) /\
    (Z.of_nat c <= Z.max 0 (effective_retries retries))%Z /\
    ((out = stdout w /\ 0 < c /\
      (exists payload,
          client narrative crime_code (calls w + pred c) =
            Some (VDict payload) /\
          d = ensure_keys payload) /\
      (forall j, j < pred c ->
                 rejected (client narrative crime_code (calls w + j)) = true)) \/
     ((exists e, out = FallingBack ::
                       FallbackWarning (effective_retries retries) e ::
                       stdout w) /\
      d = fallback_regex_extraction narrative /\
      Z.of_nat c = Z.max 0 (effective_retries retries) /\
      (forall j, j < c ->
                 rejected (client narrative crime_code (calls w + j)) = true))).
Proof.
  unfold extract_with_llm_safe. fold (effective_retries retries).
  set (r := effective_retries retries).
  destruct (attempts_bounded client narrative crime_code r (Z.to_nat r)
              0%Z None w) as [d [c [n [out [E [Hc [Hn [Hp Hout]]]]]]]];
    [destruct (Z.to_nat r) eqn:T; [now left | right; lia]|].
  exists d, c, out.
  assert (n = pred c) as ->
      by (destruct Hout as [[_ [_ [-> _]]]|[_ [_ [-> [-> _]]]]]; reflexivity).
  split; [exact E|]. split; [lia|].
  destruct Hout as [[-> [_ [_ [Hc0 [Hp1 Hrej]]]]]|[He [-> [-> [_ Hrej]]]]].
  - left. split; [reflexivity|]. split; [exact Hc0|]. now split.
  - right. split; [exact He|]. split; [reflexivity|]. split; [lia|].
    exact Hrej.
Qed.

(** The service answers an object to the second request only: two
    requests, one sleep, nothing printed. *)
Example second_request_answered :
  extract_with_llm_safe (failing_first 1 lookout_payload)
    "S1 pried front door." "220" None idle =
  (Ok (ensure_keys (match lookout_payload with
                    | VDict d => d
                    | _ => []
                    end)),
   mkWorld 2 [Config.RETRY_DELAY] []).
Proof. reflexivity. Qed.

(** ** The key backfill *)

(** X3.  [ensure_keys] only fills gaps: every entry of the payload keeps
    its place and its value, a key the payload lacks reads as its
    default afterwards ([None], or the empty list for suspects and
    vehicles), the three keys are present, and a second pass changes
    nothing. *)
Theorem ensure_keys_fills_gaps_only (d : dict) (k : string) :
  (exists missing, ensure_keys d = d ++ missing) /\
  dict_get k (ensure_keys d) =
    (if dict_has k d then dict_get k d else default_of k) /\
  dict_has "method_of_entry" (ensure_keys d) = true /\
  dict_has "suspects" (ensure_keys d) = true /\
  dict_has "vehicles" (ensure_keys d) = true /\
  ensure_keys (ensure_keys d) = ensure_keys d.
Proof.
  assert (Hm : dict_has "method_of_entry" (ensure_keys d) = true).
  { rewrite ensure_keys_appends, !dict_has_app.
    destruct (dict_has "method_of_entry" d); reflexivity. }
  assert (Hs : dict_has "suspects" (ensure_keys d) = true).
  { rewrite ensure_keys_appends, !dict_has_app.
    destruct (dict_has "suspects" d); [reflexivity|].
    destruct (dict_has "method_of_entry" d); reflexivity. }
  assert (Hv : dict_has "vehicles" (ensure_keys d) = true).
  { rewrite ensure_keys_appends, !dict_has_app.
    destruct (dict_has "vehicles" d); [reflexivity|].
    destruct (dict_has "method_of_entry" d), (dict_has "suspects" d);
      reflexivity. }
  split; [rewrite ensure_keys_appends; eexists; reflexivity|].
  split; [apply ensure_keys_get|].
  split; [exact Hm|]. split; [exact Hs|]. split; [exact Hv|].
  rewrite (ensure_keys_appends (ensure_keys d)), Hm, Hs, Hv.
  now rewrite !app_nil_r.
Qed.

(** ** The regex extractors: sentinel, word lists *)

Lemma first_method_sentinel (rules : list (string * regex)) (text : string) :
  Forall (fun rule => String.eqb (label (fst rule)) "Not specified" = false)
         rules ->
  String.eqb (first_method rules text) "Not specified" = none_found rules text.
Proof.
  intro H. induction H as [|[m p] rules Hm _ IH]; simpl; [reflexivity|].
  destruct (found p text); simpl; [exact Hm | exact IH].
Qed.

(** X4.  The entry-method extractor returns the sentinel exactly when
    none of the eight patterns is found in the lower-cased narrative. *)
Theorem sentinel_iff_no_rule_matches (narrative : string) :
  String.eqb (extract_entry_method_regex narrative) "Not specified" =
  none_found entry_methods (lower narrative).
Proof.
  apply first_method_sentinel. unfold entry_methods.
  repeat (constructor; [reflexivity|]). constructor.
Qed.

Lemma to_lower_idem (c : ascii) : to_lower (to_lower c) = to_lower c.
Proof. destruct c as [[] [] [] [] [] [] [] []]; vm_compute; reflexivity. Qed.

Lemma lower_lower (s : string) : lower (lower s) = lower s.
Proof.
  induction s as [|c s IH]; simpl; [reflexivity|].
  now rewrite to_lower_idem, IH.
Qed.

(** Upper-casing is not a character-wise map: the sharp s (223) becomes
    two letters, which the plate patterns then read as letters. *)
Example sharp_s_is_two_capitals :
  upper (String "223" "a 123") = "SSA 123" /\
  extract_license_plate_regex (String "223" "a 123") = Some "SSA123" /\
  extract_license_plate_regex "a 123" = None.
Proof. vm_compute. repeat split. Qed.

(** X5.  The entry method, the make and the color do not depend on the
    narrative being lower-cased beforehand: the extractors lower-case
    it themselves, and lower-casing twice is lower-casing once.
    Upper-casing beforehand is not neutral: the sharp s of
    [smashed_glass_sharp_s] becomes SS, then ss, and a rule matches
    that did not match the narrative as written. *)
Theorem lower_casing_first_is_neutral (narrative : string) :
  extract_entry_method_regex (lower narrative) =
    extract_entry_method_regex narrative /\
  dict_get "make" (extract_vehicle_regex (lower narrative)) =
    dict_get "make" (extract_vehicle_regex narrative) /\
  dict_get "color" (extract_vehicle_regex (lower narrative)) =
    dict_get "color" (extract_vehicle_regex narrative) /\
  extract_entry_method_regex smashed_glass_sharp_s = "Not specified" /\
  extract_entry_method_regex (upper smashed_glass_sharp_s) = "window smash".
Proof.
  split; [|split; [|split; [|split; reflexivity]]].
  - unfold extract_entry_method_regex. now rewrite lower_lower.
  - unfold extract_vehicle_regex. cbv zeta. rewrite lower_lower.
    rewrite !(dict_get_set_other "plate" "make") by discriminate.
    reflexivity.
  - unfold extract_vehicle_regex. cbv zeta. rewrite lower_lower.
    rewrite !(dict_get_set_other "plate" "color") by discriminate.
    reflexivity.
Qed.

Lemma first_word_first_match (words : list string) (text : string)
      (i : nat) (w : string) :
  nth_error words i = Some w ->
  found (whole_word w) text = true ->
  (forall j w', j < i -> nth_error words j = Some w' ->
                found (whole_word w') text = false) ->
  first_word words text = Some (title w).
Proof.
  revert i. induction words as [|w0 words IH]; intros i Hi Hfound Hbefore.
  - destruct i; discriminate Hi.
  - destruct i as [|i]; simpl in *.
    + injection Hi as ->. now rewrite Hfound.
    + rewrite (Hbefore 0 w0); [|lia|reflexivity].
      apply (IH i Hi Hfound). intros j w' Hj Hnth.
      apply (Hbefore (S j) w'); [lia | exact Hnth].
Qed.

Lemma first_word_some (words : list string) (text : string) :
  is_some (first_word words text) = some_word_found words text.
Proof.
  induction words as [|w words IH]; simpl; [reflexivity|].
  destruct (found (whole_word w) text); [reflexivity | exact IH].
Qed.

Lemma populated_of_opt_str (o : option string) :
  populated (of_opt_str o) = is_some o.
Proof. now destruct o. Qed.

(** X6.  The make and the color of the regex vehicle are read off their
    word lists in list order: the attribute is the first listed word
    that occurs in the lower-cased narrative as a whole word,
    title-cased, and it is left empty exactly when no listed word
    occurs. *)
Theorem vehicle_word_first_listed
        (narrative key : string) (words : list string) (i : nat) (w : string) :
  word_attribute key words ->
  nth_error words i = Some w ->
  found (whole_word w) (lower narrative) = true ->
  (forall j w', j < i -> nth_error words j = Some w' ->
                found (whole_word w') (lower narrative) = false) ->
  dict_get key (extract_vehicle_regex narrative) = VStr (title w) /\
  forall text,
    populated (dict_get key (extract_vehicle_regex text)) =
    some_word_found words (lower text).
Proof.
  intros Hkey Hi Hfound Hbefore.
  pose proof (first_word_first_match words (lower narrative) i w
                Hi Hfound Hbefore) as E.
  destruct Hkey as [[-> ->]|[-> ->]]; split;
    try intro text; rewrite extract_vehicle_regex_shape;
    cbn [dict_get String.eqb Ascii.eqb Bool.eqb];
    rewrite ?E, ?populated_of_opt_str, ?first_word_some; reflexivity.
Qed.

Lemma vehicle_word_first_listed_witness :
  word_attribute "make" makes /\
  dict_get "make"
    (extract_vehicle_regex "Fled in a grey Chevy, maybe a Chevrolet.")
  = VStr (title "chevrolet").
Proof.
  split; [left; split; reflexivity|].
  apply (vehicle_word_first_listed
           "Fled in a grey Chevy, maybe a Chevrolet." "make" makes 3
           "chevrolet").
  - left. split; reflexivity.
  - reflexivity.
  - vm_compute. reflexivity.
  - intros j w' Hj Hnth.
    destruct j as [|[|[|j]]]; [| | |lia]; injection Hnth as <-;
      vm_compute; reflexivity.
Defined.

(** ** The shape of an extracted plate *)

Lemma power_app (L : list ascii -> Prop) (a b : nat) (m1 m2 : list ascii) :
  power L a m1 -> power L b m2 -> power L (a + b) (m1 ++ m2).
Proof.
  revert m1. induction a as [|a IH]; intros m1; simpl.
  - now intros ->.
  - intros [x [y [-> [Hx Hy]]]] H2. exists x, (y ++ m2).
    split; [now rewrite app_assoc|]. split; [exact Hx | now apply IH].
Qed.

Lemma matches_rep_upto (L : list ascii -> Prop) (f : cursor -> list cursor)
      (extra : nat) :
  matches_in L f ->
  matches_in (fun m => exists n, n <= extra /\ power L n m) (rep_upto f extra).
Proof.
  intro Hf. induction extra as [|extra IH]; intros c e; simpl.
  - intros [<-|[]]. exists []. split; [reflexivity|]. now exists 0.
  - rewrite in_app_iff, in_flat_map. intros [[c1 [H1 H2]]|[<-|[]]].
    + destruct (Hf _ _ H1) as [m1 [E1 L1]].
      destruct (IH _ _ H2) as [m2 [E2 [n [Hn Pn]]]].
      exists (m1 ++ m2). split; [now rewrite E1, E2, app_assoc|].
      exists (S n). split; [lia|]. now exists m1, m2.
    + exists []. split; [reflexivity|]. exists 0. split; [lia | reflexivity].
Qed.

Lemma matches_rep_exact (L K : list ascii -> Prop)
      (f k : cursor -> list cursor) (lo : nat) :
  matches_in L f -> matches_in K k ->
  matches_in (fun m => exists m1 m2, m = m1 ++ m2 /\ power L lo m1 /\ K m2)
             (rep_exact f lo k).
Proof.
  intros Hf Hk. induction lo as [|lo IH]; intros c e; simpl.
  - intro H. destruct (Hk _ _ H) as [m [E Km]].
    exists m. split; [exact E|]. now exists [], m.
  - rewrite in_flat_map. intros [c1 [H1 H2]].
    destruct (Hf _ _ H1) as [m1 [E1 L1]].
    destruct (IH _ _ H2) as [m [E2 [x [y [-> [Px Ky]]]]]].
    exists (m1 ++ x ++ y). split; [now rewrite E1, E2, app_assoc|].
    exists (m1 ++ x), y. split; [now rewrite app_assoc|].
    split; [|exact Ky]. now exists m1, x.
Qed.

(** The matcher is sound for [lang]. *)
Lemma rmatch_in_lang (r : regex) : matches_in (lang r) (rmatch r).
Proof.
  induction r as [|p|r1 IH1 r2 IH2|r1 IH1 r2 IH2|r IH lo extra|];
    intros c e; simpl.
  - intros [<-|[]]. now exists [].
  - destruct c as [b [|x a]]; simpl; [intros []|].
    destruct (p x) eqn:E; [|intros []]. intros [<-|[]].
    exists [x]. split; [reflexivity|]. now exists x.
  - rewrite in_flat_map. intros [c1 [H1 H2]].
    destruct (IH1 _ _ H1) as [m1 [E1 L1]].
    destruct (IH2 _ _ H2) as [m2 [E2 L2]].
    exists (m1 ++ m2). split; [now rewrite E1, E2, app_assoc|].
    now exists m1, m2.
  - rewrite in_app_iff. intros [H|H].
    + destruct (IH1 _ _ H) as [m [E Lm]]. exists m. split; [exact E | now left].
    + destruct (IH2 _ _ H) as [m [E Lm]]. exists m. split; [exact E | now right].
  - intro H.
    destruct (matches_rep_exact _ _ _ _ lo IH
                (matches_rep_upto _ _ extra IH) _ _ H)
      as [m [E [m1 [m2 [-> [P1 [n [Hn P2]]]]]]]].
    exists (m1 ++ m2). split; [exact E|].
    exists (lo + n). split; [lia | now apply power_app].
  - destruct (xorb _ _); [|intros []]. intros [<-|[]]. now exists [].
Qed.

Lemma power_chr (p : ascii -> bool) (n : nat) (m : list ascii) :
  power (lang (Chr p)) n m -> List.length m = n /\ forallb p m = true.
Proof.
  revert m. induction n as [|n IH]; intros m; simpl.
  - now intros ->.
  - intros [m1 [m2 [-> [[x [-> Hx]] H2]]]]. destruct (IH _ H2) as [Hl Hp].
    cbn. now rewrite Hl, Hx, Hp.
Qed.

Lemma lang_rep_chr (p : ascii -> bool) (lo extra : nat) (m : list ascii) :
  lang (Rep (Chr p) lo extra) m ->
  lo <= List.length m <= lo + extra /\ forallb p m = true.
Proof.
  intros [n [Hn P]]. destruct (power_chr p n m P) as [<- Hp]. now split.
Qed.

Lemma strip_separators_of_list (l : list ascii) :
  strip_separators (string_of_list_ascii l) =
  string_of_list_ascii (filter (fun c => negb (separator c)) l).
Proof.
  induction l as [|x l IH]; [reflexivity|].
  cbn [string_of_list_ascii filter]. rewrite strip_separators_cons, IH.
  now destruct (separator x).
Qed.

Lemma filter_keeps (p q : ascii -> bool) (l : list ascii) :
  (forall x, p x = true -> q x = true) ->
  forallb p l = true -> filter q l = l.
Proof.
  intros Hpq. induction l as [|x l IH]; simpl; [reflexivity|].
  rewrite andb_true_iff. intros [Hx Hl]. now rewrite (Hpq x Hx), IH.
Qed.

Lemma upper_not_separator (x : ascii) :
  is_upper x = true -> negb (separator x) = true.
Proof.
  destruct x as [[] [] [] [] [] [] [] []]; vm_compute; intro H;
    first [reflexivity | discriminate H].
Qed.

Lemma digit_not_separator (x : ascii) :
  is_digit x = true -> negb (separator x) = true.
Proof.
  destruct x as [[] [] [] [] [] [] [] []]; vm_compute; intro H;
    first [reflexivity | discriminate H].
Qed.

(** What is left of a matched separator once spaces and hyphens are
    removed. *)
Lemma lang_opt_sep (m : list ascii) :
  lang (opt class_sep) m ->
  List.length (filter (fun c => negb (separator c)) m) <= 1 /\
  forallb other_space (filter (fun c => negb (separator c)) m) = true.
Proof.
  intros [n [Hn P]]. destruct n as [|[|n]]; [| |lia]; simpl in P.
  - subst m. now split.
  - destruct P as [m1 [m2 [-> [[x [-> Hx]] ->]]]]. cbn.
    destruct (separator x) eqn:S; cbn; [now split|].
    split; [lia|]. rewrite andb_true_r. revert Hx S.
    destruct x as [[] [] [] [] [] [] [] []]; vm_compute; intros Hx S;
      first [reflexivity | discriminate Hx | discriminate S].
Qed.

Lemma plate_shape_of_parts (head letters sep digits : list ascii) :
  List.length head <= 1 -> forallb is_digit head = true ->
  lang (Rep class_AZ 2 1) letters \/ lang (Rep class_AZ 3 0) letters ->
  lang (opt class_sep) sep ->
  (head = [] /\ (lang (Rep class_09 3 1) digits \/
                 lang (Rep class_09 4 0) digits)) \/
  lang (Rep class_09 3 0) digits ->
  plate_shape
    (strip_separators
       (string_of_list_ascii (head ++ letters ++ sep ++ digits))).
Proof.
  intros Hh Hhd Hl Hs Hd.
  assert (Ll : 2 <= List.length letters <= 3 /\
               forallb is_upper letters = true).
  { destruct Hl as [H|H]; apply (lang_rep_chr is_upper) in H;
      destruct H; split; [lia | assumption | lia | assumption]. }
  assert (Ld : 3 <= List.length digits <= 4 /\
               forallb is_digit digits = true).
  { destruct Hd as [[_ [H|H]]|H]; apply (lang_rep_chr is_digit) in H;
      destruct H; split; try lia; assumption. }
  assert (Lhd : List.length head + List.length digits <= 4).
  { destruct Hd as [[-> [H|H]]|H]; apply (lang_rep_chr is_digit) in H;
      destruct H; cbn; lia. }
  destruct Ll as [Ll Lu]. destruct Ld as [Ld Ldig].
  destruct (lang_opt_sep sep Hs) as [Hs1 Hs2].
  rewrite strip_separators_of_list, !filter_app.
  rewrite (filter_keeps is_digit _ head digit_not_separator Hhd).
  rewrite (filter_keeps is_upper _ letters upper_not_separator Lu).
  rewrite (filter_keeps is_digit _ digits digit_not_separator Ldig).
  exists head, letters, (filter (fun c => negb (separator c)) sep), digits.
  repeat split; try assumption; lia.
Qed.

Lemma plate_patterns_shape :
  Forall (fun r => forall m, lang r m ->
            plate_shape (strip_separators (string_of_list_ascii m)))
         plate_patterns.
Proof.
  unfold plate_patterns. repeat constructor; intros m H.
  - destruct H as [b1 [m1 [-> [Hb1 H]]]].
    destruct H as [letters [m2 [-> [Hl H]]]].
    destruct H as [sep [m3 [-> [Hs H]]]].
    destruct H as [digits [b2 [-> [Hd Hb2]]]].
    cbn in Hb1, Hb2. subst b1 b2. rewrite app_nil_r.
    apply (plate_shape_of_parts [] letters sep digits); auto.
  - destruct H as [b1 [m1 [-> [Hb1 H]]]].
    destruct H as [head [m2 [-> [Hh H]]]].
    destruct H as [letters [m3 [-> [Hl H]]]].
    destruct H as [sep [m4 [-> [Hs H]]]].
    destruct H as [digits [b2 [-> [Hd Hb2]]]].
    cbn in Hb1, Hb2. subst b1 b2. rewrite app_nil_r.
    destruct Hh as [x [-> Hx]].
    apply (plate_shape_of_parts [x] letters sep digits); auto.
    cbn. now rewrite Hx.
  - destruct H as [b1 [m1 [-> [Hb1 H]]]].
    destruct H as [letters [m2 [-> [Hl H]]]].
    destruct H as [sep [m3 [-> [Hs H]]]].
    destruct H as [digits [b2 [-> [Hd Hb2]]]].
    cbn in Hb1, Hb2. subst b1 b2. rewrite app_nil_r.
    apply (plate_shape_of_parts [] letters sep digits); auto.
Qed.

Lemma search_group0_in_lang (r : regex) (s : string) (m : cursor * cursor) :
  search r s = Some m ->
  exists t, group0 m = string_of_list_ascii t /\ lang r t.
Proof.
  unfold search. intro Hs.
  destruct (search_from_sound _ _ _ _ Hs) as [Hin _].
  destruct (rmatch_in_lang r _ _ Hin) as [t [E Lt]].
  exists t. split; [|exact Lt].
  unfold group0. now rewrite E, firstn_app_exact.
Qed.

Lemma first_plate_shape (patterns : list regex) (text v : string) :
  Forall (fun r => forall m, lang r m ->
            plate_shape (strip_separators (string_of_list_ascii m)))
         patterns ->
  first_plate patterns text = Some v -> plate_shape v.
Proof.
  intro H. induction H as [|r rs Hr _ IH]; simpl; [discriminate|].
  destruct (search r text) as [m|] eqn:Hs; [|exact IH].
  intro E. assert (v = strip_separators (group0 m)) as ->
    by (unfold strip_separators; congruence).
  destruct (search_group0_in_lang r text m Hs) as [t [-> Lt]].
  now apply Hr.
Qed.

Lemma length_of_list (l : list ascii) :
  String.length (string_of_list_ascii l) = List.length l.
Proof. induction l as [|x l IH]; simpl; [reflexivity | now rewrite IH]. Qed.

(** X7.  A plate returned by the regex extractor is made of an optional
    digit, two or three upper-case letters, three or four digits, and,
    between letters and digits, at most one white-space character other
    than the space (a tab or a line break matched as separator is not
    removed); it has five to eight characters. *)
Theorem extracted_plate_shape (narrative v : string) :
  extract_license_plate_regex narrative = Some v ->
  plate_shape v /\ 5 <= String.length v <= 8.
Proof.
  intro H. apply first_plate_shape in H; [|apply plate_patterns_shape].
  split; [exact H|].
  destruct H as [head [letters [sep [digits
    [-> [Hh [_ [Hl [_ [Hs [_ [Hd [_ Hhd]]]]]]]]]]]]].
  rewrite length_of_list, !length_app. lia.
Qed.

Lemma extracted_plate_shape_witness :
  extract_license_plate_regex
    (String.append "tag 7abc" (String "009" "123 seen")) =
    Some (String.append "7ABC" (String "009" "123")) /\
  5 <= String.length (String.append "7ABC" (String "009" "123")) <= 8.
Proof.
  split; [reflexivity|].
  apply (extracted_plate_shape
           (String.append "tag 7abc" (String "009" "123 seen"))).
  reflexivity.
Defined.

(** A no-break space (160) between letters and digits is a separator
    for the pattern, and stays in the plate. *)
Example plate_with_no_break_space :
  extract_license_plate_regex (String.append "abc" (String "160" "1234"))
  = Some (String.append "ABC" (String "160" "1234")).
Proof. vm_compute. reflexivity. Qed.

(** An accented letter (233) is a word character: a make that follows
    it is not a whole word. *)
Example accented_letter_joins_the_word :
  dict_get "make" (extract_vehicle_regex (String "233" "ford")) = VNone /\
  dict_get "make" (extract_vehicle_regex (String "215" "ford")) = VStr "Ford".
Proof. vm_compute. split; reflexivity. Qed.

(** ** The counters of a run *)

Lemma within_refl (st : State) : within 0 0 0 st st.
Proof. unfold within. repeat split; lia. Qed.

Lemma within_trans (a1 b1 c1 a2 b2 c2 : Z) (st1 st2 st3 : State) :
  within a1 b1 c1 st1 st2 -> within a2 b2 c2 st2 st3 ->
  within (a1 + a2) (b1 + b2) (c1 + c2) st1 st3.
Proof. unfold within. intros H1 H2. repeat split; lia. Qed.

Lemma within_weaken (a b c a' b' c' : Z) (st st' : State) :
  (a <= a')%Z -> (b <= b')%Z -> (c <= c')%Z ->
  within a b c st st' -> within a' b' c' st st'.
Proof. unfold within. intros Ha Hb Hc H. repeat split; lia. Qed.

Lemma costs_weaken (a b c a' b' c' : Z) {A} (m : M A) :
  (a <= a')%Z -> (b <= b')%Z -> (c <= c')%Z ->
  costs a b c m -> costs a' b' c' m.
Proof. intros Ha Hb Hc H st. now apply (within_weaken a b c). Qed.

Lemma costs_ret {A} (a : A) : costs 0 0 0 (ret a).
Proof. intro st. apply within_refl. Qed.

Lemma costs_pure {A} (r : result A) : costs 0 0 0 (pure r).
Proof. intro st. apply within_refl. Qed.

Lemma costs_call {A} (m : W A) : costs 0 0 0 (call m).
Proof.
  intro st. unfold call. destruct (m (world st)).
  unfold within. cbn. repeat split; lia.
Qed.

Lemma costs_df_at_set (idx : nat) (col : string) (v : value) :
  costs 0 0 0 (df_at_set idx col v).
Proof. intro st. unfold within. cbn. repeat split; lia. Qed.

Lemma costs_bind (a1 b1 c1 a2 b2 c2 : Z) {A B} (m : M A) (k : A -> M B) :
  costs a1 b1 c1 m -> (forall x, costs a2 b2 c2 (k x)) ->
  (0 <= a2)%Z -> (0 <= b2)%Z -> (0 <= c2)%Z ->
  costs (a1 + a2) (b1 + b2) (c1 + c2) (bind m k).
Proof.
  intros Hm Hk Ha Hb Hc st. unfold bind. specialize (Hm st).
  destruct (m st) as [[x|e] st1]; cbn [snd] in *.
  - eapply within_trans; [exact Hm | apply Hk].
  - revert Hm. apply within_weaken; lia.
Qed.

Lemma costs_try (a1 b1 c1 a2 b2 c2 : Z) {A} (m : M A) (h : exn -> M A) :
  costs a1 b1 c1 m -> (forall e, costs a2 b2 c2 (h e)) ->
  (0 <= a2)%Z -> (0 <= b2)%Z -> (0 <= c2)%Z ->
  costs (a1 + a2) (b1 + b2) (c1 + c2) (try_except m h).
Proof.
  intros Hm Hh Ha Hb Hc st. unfold try_except. specialize (Hm st).
  destruct (m st) as [[x|e] st1]; cbn [snd] in *.
  - revert Hm. apply within_weaken; lia.
  - eapply within_trans; [exact Hm | apply Hh].
Qed.

Lemma costs_fill_method (idx : nat) (extracted : dict) :
  costs 1 0 0 (fill_method idx extracted).
Proof.
  unfold fill_method. destruct (truthy _).
  - intro st. unfold within. cbn. repeat split; lia.
  - apply (costs_weaken 0 0 0); try lia. apply costs_ret.
Qed.

Lemma costs_fill_suspect (idx i : nat) (suspect : value) :
  costs 0 (if Nat.eqb i 0 then 1 else 0) 0 (fill_suspect idx i suspect).
Proof.
  assert (Z0 : forall A (m : M A),
             costs 0 0 0 m ->
             costs 0 (if Nat.eqb i 0 then 1 else 0) 0 m).
  { intros A m. apply costs_weaken; try lia. destruct (Nat.eqb i 0); lia. }
  unfold fill_suspect. destruct suspect; try (apply Z0, costs_ret).
  destruct (dict_has _ _); [|apply Z0, costs_ret].
  intro st. unfold bind at 1, pure.
  destruct (clean_suspect_description _) as [desc|e]; cbn [snd];
    [destruct (truthy desc)|];
    destruct (Nat.eqb i 0); unfold within; cbn; repeat split; lia.
Qed.

Lemma costs_fill_suspects_later (idx i : nat) (suspects : list value) :
  costs 0 0 0 (fill_suspects_loop idx (S i) suspects).
Proof.
  revert i. induction suspects as [|s l IH]; intro i; cbn [fill_suspects_loop].
  - apply costs_ret.
  - apply (costs_bind 0 0 0 0 0 0); try lia; [|intros _; apply IH].
    apply (costs_fill_suspect idx (S i) s).
Qed.

Lemma costs_fill_suspects (idx : nat) (extracted : dict) :
  costs 0 1 0 (fill_suspects idx extracted).
Proof.
  unfold fill_suspects.
  destruct (_ && _); [|apply (costs_weaken 0 0 0); try lia; apply costs_ret].
  destruct (firstn 2 (as_list (dict_get "suspects" extracted))) as [|s l];
    cbn [fill_suspects_loop].
  - apply (costs_weaken 0 0 0); try lia. apply costs_ret.
  - apply (costs_bind 0 1 0 0 0 0); try lia.
    + apply (costs_fill_suspect idx 0 s).
    + intros _. apply costs_fill_suspects_later.
Qed.

Lemma costs_fill_vehicle (idx : nat) (extracted : dict) :
  costs 0 0 1 (fill_vehicle idx extracted).
Proof.
  unfold fill_vehicle.
  destruct (_ && _); [|apply (costs_weaken 0 0 0); try lia; apply costs_ret].
  induction (as_list (dict_get "vehicles" extracted)) as [|vehicle l IH];
    cbn [fill_vehicle_loop].
  - apply (costs_weaken 0 0 0); try lia. apply costs_ret.
  - destruct vehicle; try exact IH. destruct (any _); [|exact IH].
    apply (costs_bind 0 0 0 0 0 1); try lia; [apply costs_df_at_set|].
    intros _.
    apply (costs_bind 0 0 0 0 0 1); try lia; [apply costs_df_at_set|].
    intros _.
    apply (costs_bind 0 0 0 0 0 1); try lia; [apply costs_df_at_set|].
    intros _.
    apply (costs_bind 0 0 0 0 0 1); try lia.
    + destruct (truthy _); [|apply costs_ret].
      apply (costs_bind 0 0 0 0 0 0); try lia; [apply costs_pure|].
      intro p. apply costs_df_at_set.
    + intros _ st. unfold within. cbn. repeat split; lia.
Qed.

(** One row: the totals are left to the caller, and each found-counter
    goes up by one at most. *)
Lemma costs_process_row (client : Client) (idx : nat) (row : Row) :
  costs 1 1 1 (process_row client idx row).
Proof.
  unfold process_row.
  apply (costs_try 1 1 1 0 0 0); try lia.
  - destruct (skipped _);
      [apply (costs_weaken 0 0 0); try lia; apply costs_ret|].
    apply (costs_bind 0 0 0 1 1 1); try lia; [apply costs_call|].
    intro d.
    apply (costs_bind 1 0 0 0 1 1); try lia; [apply costs_fill_method|].
    intros _.
    apply (costs_bind 0 1 0 0 0 1); try lia; [apply costs_fill_suspects|].
    intros _.
    apply (costs_bind 0 0 1 0 0 0); try lia; [apply costs_fill_vehicle|].
    intros _. apply costs_ret.
  - intro e. apply (costs_bind 0 0 0 0 0 0); try lia; [apply costs_call|].
    intros _. apply costs_ret.
Qed.

(** ** What a row leaves alone *)

Lemma untouched_refl (idx : nat) (st : State) : untouched idx st st.
Proof. repeat split. Qed.

Lemma untouched_trans (idx : nat) (st1 st2 st3 : State) :
  untouched idx st1 st2 -> untouched idx st2 st3 -> untouched idx st1 st3.
Proof.
  intros [I1 [J1 C1]] [I2 [J2 C2]]. repeat split.
  - now rewrite I2.
  - intros j Hj. now rewrite J2, J1.
  - intros c Hc. now rewrite C2, C1.
Qed.

Lemma map_update_nth {A B} (g : A -> B) (f : A -> A) (n : nat) (l : list A) :
  (forall x, g (f x) = g x) -> map g (update_nth n f l) = map g l.
Proof.
  intro H. revert n. induction l as [|x l IH]; intros [|n]; simpl;
    try reflexivity; [now rewrite H | now rewrite IH].
Qed.

Lemma confined_ret (idx : nat) {A} (a : A) : confined idx (ret a).
Proof. intro st. apply untouched_refl. Qed.

Lemma confined_pure (idx : nat) {A} (r : result A) : confined idx (pure r).
Proof. intro st. apply untouched_refl. Qed.

Lemma confined_call (idx : nat) {A} (m : W A) : confined idx (call m).
Proof.
  intro st. unfold call. destruct (m (world st)). repeat split.
Qed.

Lemma confined_set_stats (idx : nat) (f : Stats -> Stats) :
  confined idx (set_stats f).
Proof. intro st. repeat split. Qed.

Lemma confined_df_at_set (idx : nat) (col : string) (v : value) :
  In col output_columns -> confined idx (df_at_set idx col v).
Proof.
  intros Hcol st. repeat split.
  - cbn [df_at_set snd df]. now apply map_update_nth.
  - intros j Hj. cbn [df_at_set snd df]. rewrite nth_error_update_nth.
    destruct (Nat.eqb_spec idx j); [now elim Hj | reflexivity].
  - intros c Hc. apply df_at_set_other. intros ->. now apply Hc.
Qed.

Lemma confined_bind (idx : nat) {A B} (m : M A) (k : A -> M B) :
  confined idx m -> (forall a, confined idx (k a)) -> confined idx (bind m k).
Proof.
  intros Hm Hk st. unfold bind. specialize (Hm st).
  destruct (m st) as [[a|e] st1]; cbn [snd] in *; [|exact Hm].
  eapply untouched_trans; [exact Hm | apply Hk].
Qed.

Lemma confined_try (idx : nat) {A} (m : M A) (h : exn -> M A) :
  confined idx m -> (forall e, confined idx (h e)) ->
  confined idx (try_except m h).
Proof.
  intros Hm Hh st. unfold try_except. specialize (Hm st).
  destruct (m st) as [[a|e] st1]; cbn [snd] in *; [exact Hm|].
  eapply untouched_trans; [exact Hm | apply Hh].
Qed.

Lemma confined_fill_method (idx : nat) (extracted : dict) :
  confined idx (fill_method idx extracted).
Proof.
  unfold fill_method. destruct (truthy _); [|apply confined_ret].
  apply confined_bind; [|intros _; apply confined_set_stats].
  apply confined_df_at_set. cbn. tauto.
Qed.

Lemma confined_fill_suspect (idx i : nat) (suspect : value) :
  i < 2 -> confined idx (fill_suspect idx i suspect).
Proof.
  intro Hi. unfold fill_suspect. destruct suspect; try apply confined_ret.
  destruct (dict_has _ _); [|apply confined_ret].
  apply confined_bind; [apply confined_pure|]. intro desc.
  destruct (truthy desc); [|apply confined_ret].
  apply confined_bind.
  - apply confined_df_at_set.
    destruct i as [|[|i]]; [| |lia]; vm_compute; tauto.
  - intros _. destruct (Nat.eqb i 0);
      [apply confined_set_stats | apply confined_ret].
Qed.

Lemma confined_fill_suspects (idx : nat) (extracted : dict) :
  confined idx (fill_suspects idx extracted).
Proof.
  unfold fill_suspects. destruct (_ && _); [|apply confined_ret].
  destruct (as_list (dict_get "suspects" extracted)) as [|a [|b l]];
    cbn [firstn fill_suspects_loop].
  - apply confined_ret.
  - apply confined_bind; [apply confined_fill_suspect; lia|].
    intros _. apply confined_ret.
  - apply confined_bind; [apply confined_fill_suspect; lia|]. intros _.
    apply confined_bind; [apply confined_fill_suspect; lia|]. intros _.
    apply confined_ret.
Qed.

Lemma confined_fill_vehicle (idx : nat) (extracted : dict) :
  confined idx (fill_vehicle idx extracted).
Proof.
  unfold fill_vehicle. destruct (_ && _); [|apply confined_ret].
  induction (as_list (dict_get "vehicles" extracted)) as [|vehicle l IH];
    cbn [fill_vehicle_loop]; [apply confined_ret|].
  destruct vehicle; try exact IH. destruct (any _); [|exact IH].
  apply confined_bind; [apply confined_df_at_set; cbn; tauto|]. intros _.
  apply confined_bind; [apply confined_df_at_set; cbn; tauto|]. intros _.
  apply confined_bind; [apply confined_df_at_set; cbn; tauto|]. intros _.
  apply confined_bind; [|intros _; apply confined_set_stats].
  destruct (truthy _); [|apply confined_ret].
  apply confined_bind; [apply confined_pure|]. intro p.
  apply confined_df_at_set. cbn. tauto.
Qed.

Lemma confined_process_row (client : Client) (idx : nat) (row : Row) :
  confined idx (process_row client idx row).
Proof.
  unfold process_row. apply confined_try.
  - destruct (skipped _); [apply confined_ret|].
    apply confined_bind; [apply confined_call|]. intro d.
    apply confined_bind; [apply confined_fill_method|]. intros _.
    apply confined_bind; [apply confined_fill_suspects|]. intros _.
    apply confined_bind; [apply confined_fill_vehicle|]. intros _.
    apply confined_ret.
  - intro e. apply confined_bind; [apply confined_call|]. intros _.
    apply confined_ret.
Qed.

(** X8.  Working on row [idx], [process_row] writes nothing but the
    seven extraction columns of that row: the input cells of all rows,
    all other rows and all other columns of the row stay as they
    were, whatever the service answers and whether or not the row
    fails. *)
Theorem process_row_writes_own_columns_only
        (client : Client) (idx : nat) (row : Row) (st : State) :
  let st' := snd (process_row client idx row st) in
  map inputs (df st') = map inputs (df st) /\
  List.length (df st') = List.length (df st) /\
  (forall j, j <> idx -> nth_error (df st') j = nth_error (df st) j) /\
  (forall c, ~ In c output_columns -> df_at st' idx c = df_at st idx c).
Proof.
  cbv zeta. destruct (confined_process_row client idx row st) as [I [J C]].
  split; [exact I|]. split; [|now split].
  rewrite <- (length_map inputs (df st)), <- I. symmetry. apply length_map.
Qed.

(** ** A whole run *)

Lemma process_row_ok (client : Client) (idx : nat) (row : Row) (st : State) :
  exists b, fst (process_row client idx row st) = Ok b.
Proof.
  unfold process_row, try_except.
  match goal with |- context [match ?m st with _ => _ end] =>
    destruct (m st) as [[b|e] st1] end.
  - now exists b.
  - exists false. unfold bind, call, print. reflexivity.
Qed.

Lemma progress_step (c : bool) (l : line) (st : State) :
  exists st0,
    (if c then call (print l) else ret tt) st = (Ok tt, st0) /\
    df st0 = df st /\ stats st0 = stats st.
Proof.
  destruct c; eexists; (split; [reflexivity|]); split; reflexivity.
Qed.

Lemma tallied_step (st0 st1 : State) (b : bool) :
  within 1 1 1 st0 st1 ->
  tallied 1 st0 (snd (set_stats (if b then incr_successful else incr_failed)
                        st1)).
Proof.
  unfold within, tallied. intro H. destruct b; cbn; repeat split; lia.
Qed.

Lemma tallied_trans (a b : Z) (st1 st2 st3 : State) :
  tallied a st1 st2 -> tallied b st2 st3 -> tallied (a + b) st1 st3.
Proof. unfold tallied. intros H1 H2. repeat split; lia. Qed.

(** The loop of [process_all] over the rows that are left. *)
Lemma process_rows_tally (client : Client) (total : nat) (rows : list Row) :
  forall (idx : nat) (st : State),
  exists st',
    process_rows client total idx rows st = (Ok tt, st') /\
    tallied (Z.of_nat (List.length rows)) st st' /\
    map inputs (df st') = map inputs (df st).
Proof.
  induction rows as [|row rows IH]; intros idx st.
  - exists st. split; [reflexivity|]. split; [|reflexivity].
    unfold tallied. cbn. repeat split; lia.
  - cbn [process_rows].
    destruct (progress_step
                (Nat.eqb (Nat.modulo (idx + 1) 10) 0 || Nat.eqb idx 0)
                (Progress (idx + 1) total) st) as [st0 [E0 [D0 S0]]].
    rewrite (bind_ok _ _ _ _ _ E0).
    destruct (process_row_ok client idx row st0) as [b Hb].
    rewrite (bind_ok _ _ _ _ _ (run_ok _ _ _ Hb)).
    pose proof (costs_process_row client idx row st0) as Hc.
    destruct (confined_process_row client idx row st0) as [Hi _].
    set (st1 := snd (process_row client idx row st0)) in *.
    pose proof (tallied_step st0 st1 b Hc) as Ht.
    unfold bind at 1. cbn [set_stats fst snd] in *.
    match goal with |- context [process_rows _ _ _ _ ?s] =>
      destruct (IH (S idx) s) as [st' [E [T I]]]; set (st2 := s) in *
    end.
    exists st'. split; [exact E|]. split.
    + replace (Z.of_nat (List.length (row :: rows)))
        with (1 + Z.of_nat (List.length rows))%Z
        by (cbn [List.length]; lia).
      apply (tallied_trans 1 _ st st2 st'); [|exact T].
      unfold tallied in *. rewrite <- S0. exact Ht.
    + rewrite I. subst st2. cbn [df]. now rewrite Hi, D0.
Qed.

Lemma call_print (l : line) (st : State) :
  call (print l) st =
  (Ok tt, mkState (df st) (stats st)
                  (mkWorld (calls (world st)) (sleeps (world st))
                           (l :: stdout (world st)))).
Proof. reflexivity. Qed.

Lemma call_print_bind {A} (l : line) (a : A) (st : State) :
  (call (print l) ;;; ret a) st =
  (Ok a, mkState (df st) (stats st)
                 (mkWorld (calls (world st)) (sleeps (world st))
                          (l :: stdout (world st)))).
Proof. reflexivity. Qed.

Lemma set_stats_run (f : Stats -> Stats) (st : State) :
  set_stats f st = (Ok tt, mkState (df st) (f (stats st)) (world st)).
Proof. reflexivity. Qed.

(** X9.  [process_all] never raises and counts every row once: it sets
    total_rows to the number of rows, adds that number to successful
    and failed together, raises each of the three found-counters by no
    more than that number, and leaves every input cell as it was.  On
    the fresh counters of a new extractor, successful + failed =
    total_rows and no found-counter exceeds total_rows. *)
Theorem process_all_counts_every_row_once (client : Client) (st : State) :
  let n := Z.of_nat (List.length (df st)) in
  let s := stats st in
  let s' := stats (snd (process_all client st)) in
  fst (process_all client st) = Ok tt /\
  map inputs (df (snd (process_all client st))) = map inputs (df st) /\
  total_rows s' = n /\
  (successful s' + failed s' = successful s + failed s + n)%Z /\
  (successful s <= successful s')%Z /\ (failed s <= failed s')%Z /\
  (method_extracted s <= method_extracted s' <= method_extracted s + n)%Z /\
  (suspects_found s <= suspects_found s' <= suspects_found s + n)%Z /\
  (vehicles_found s <= vehicles_found s' <= vehicles_found s + n)%Z.
Proof.
  cbv zeta. unfold process_all.
  rewrite (bind_ok _ _ _ _ tt (call_print _ st)).
  rewrite (bind_ok _ _ _ _ tt (call_print _ _)).
  rewrite (bind_ok _ _ _ _ tt (set_stats_run _ _)).
  match goal with |- context [bind (process_rows _ _ _ _) _ ?s0] =>
    destruct (process_rows_tally client (List.length (df st)) (df st) 0 s0)
      as [st' [E [T I]]]
  end.
  cbn [df stats world calls sleeps stdout] in *.
  rewrite !(bind_ok _ _ _ _ _ E).
  rewrite !(bind_ok _ _ _ _ tt (call_print _ _)).
  rewrite !call_print. cbn [fst snd df stats].
  split; [reflexivity|]. split; [exact I|].
  unfold tallied in T. cbn [stats total_rows successful failed
    method_extracted suspects_found vehicles_found set_total_rows] in T.
  repeat split; lia.
Qed.

(** ** The outcome of a row *)

Lemma quiet_ret {A} (a : A) : quiet (ret a).
Proof. intro st. split; [reflexivity | discriminate]. Qed.

Lemma quiet_set_stats (f : Stats -> Stats) : quiet (set_stats f).
Proof. intro st. split; [reflexivity | discriminate]. Qed.

Lemma quiet_df_at_set (idx : nat) (col : string) (v : value) :
  quiet (df_at_set idx col v).
Proof. intro st. split; [reflexivity | discriminate]. Qed.

Lemma quiet_pure {A} (r : result A) :
  (forall e, r = Raise e -> e = AttributeError) -> quiet (pure r).
Proof. intros H st. split; [reflexivity | exact H]. Qed.

Lemma quiet_bind {A B} (m : M A) (k : A -> M B) :
  quiet m -> (forall a, quiet (k a)) -> quiet (bind m k).
Proof.
  intros Hm Hk st. unfold bind. destruct (Hm st) as [W R].
  destruct (m st) as [[a|e] st1]; cbn [fst snd] in *.
  - destruct (Hk a st1) as [W' R']. split; [now rewrite W' | exact R'].
  - split; [exact W|]. intros e' [= <-]. now apply R.
Qed.

Lemma clean_raises_attribute_error (v : value) (e : exn) :
  clean_suspect_description v = Raise e -> e = AttributeError.
Proof.
  destruct v; cbn;
    repeat match goal with |- context [if ?c then _ else _] => destruct c end;
    congruence.
Qed.

Lemma format_raises_attribute_error (v : value) (e : exn) :
  format_license_plate v = Raise e -> e = AttributeError.
Proof.
  destruct v; cbn;
    repeat match goal with |- context [if ?c then _ else _] => destruct c end;
    congruence.
Qed.

Lemma quiet_fill_method (idx : nat) (extracted : dict) :
  quiet (fill_method idx extracted).
Proof.
  unfold fill_method. destruct (truthy _); [|apply quiet_ret].
  apply quiet_bind; [apply quiet_df_at_set | intros _; apply quiet_set_stats].
Qed.

Lemma quiet_fill_suspects (idx : nat) (extracted : dict) :
  quiet (fill_suspects idx extracted).
Proof.
  unfold fill_suspects. destruct (_ && _); [|apply quiet_ret].
  generalize (firstn 2 (as_list (dict_get "suspects" extracted))) as l.
  generalize 0 as i. intros i l. revert i.
  induction l as [|suspect l IH]; intro i; cbn [fill_suspects_loop].
  - apply quiet_ret.
  - apply quiet_bind; [|intros _; apply IH].
    unfold fill_suspect. destruct suspect; try apply quiet_ret.
    destruct (dict_has _ _); [|apply quiet_ret].
    apply quiet_bind;
      [apply quiet_pure, clean_raises_attribute_error|].
    intro desc. destruct (truthy desc); [|apply quiet_ret].
    apply quiet_bind; [apply quiet_df_at_set|]. intros _.
    destruct (Nat.eqb i 0); [apply quiet_set_stats | apply quiet_ret].
Qed.

Lemma quiet_fill_vehicle (idx : nat) (extracted : dict) :
  quiet (fill_vehicle idx extracted).
Proof.
  unfold fill_vehicle. destruct (_ && _); [|apply quiet_ret].
  induction (as_list (dict_get "vehicles" extracted)) as [|vehicle l IH];
    cbn [fill_vehicle_loop]; [apply quiet_ret|].
  destruct vehicle; try exact IH. destruct (any _); [|exact IH].
  apply quiet_bind; [apply quiet_df_at_set|]. intros _.
  apply quiet_bind; [apply quiet_df_at_set|]. intros _.
  apply quiet_bind; [apply quiet_df_at_set|]. intros _.
  apply quiet_bind; [|intros _; apply quiet_set_stats].
  destruct (truthy _); [|apply quiet_ret].
  apply quiet_bind; [apply quiet_pure, format_raises_attribute_error|].
  intro p. apply quiet_df_at_set.
Qed.

(** The three steps after the extraction: the world is left alone, and
    they end with [True] or with an [AttributeError]. *)
Lemma steps_outcome (idx : nat) (d : dict) (st : State) :
  world (snd ((fill_method idx d ;;; fill_suspects idx d ;;;
               fill_vehicle idx d ;;; ret true) st)) = world st /\
  (fst ((fill_method idx d ;;; fill_suspects idx d ;;;
         fill_vehicle idx d ;;; ret true) st) = Ok true \/
   fst ((fill_method idx d ;;; fill_suspects idx d ;;;
         fill_vehicle idx d ;;; ret true) st) = Raise AttributeError).
Proof.
  assert (Q : quiet (fill_method idx d ;;; fill_suspects idx d ;;;
                     fill_vehicle idx d ;;; ret true)).
  { apply quiet_bind; [apply quiet_fill_method|]. intros _.
    apply quiet_bind; [apply quiet_fill_suspects|]. intros _.
    apply quiet_bind; [apply quiet_fill_vehicle|]. intros _.
    apply quiet_ret. }
  destruct (Q st) as [W R]. split; [exact W|].
  clear Q W. revert R. unfold bind, ret.
  destruct (fill_method idx d st) as [[[]|e1] s1]; cbn [fst snd];
    [|intro R; right; f_equal; now apply R].
  destruct (fill_suspects idx d s1) as [[[]|e2] s2]; cbn [fst snd];
    [|intro R; right; f_equal; now apply R].
  destruct (fill_vehicle idx d s2) as [[[]|e3] s3]; cbn [fst snd];
    [now left | intro R; right; f_equal; now apply R].
Qed.

(** X10.  [process_row] never raises.  A skipped row gives [False] and
    changes nothing; any other row costs exactly one call of the retry
    wrapper and gives [True], or gives [False] after an
    [AttributeError] that is printed with the row index. *)
Theorem process_row_outcome
        (client : Client) (idx : nat) (row : Row) (st : State) :
  let w1 := snd (extract_with_llm_safe client (str (narrative row))
                   (str (crime_code row)) None (world st)) in
  let run := process_row client idx row st in
  if skipped (str (narrative row))
  then run = (Ok false, st)
  else (fst run = Ok true /\ world (snd run) = w1) \/
       (fst run = Ok false /\
        world (snd run) =
          mkWorld (calls w1) (sleeps w1)
                  (RowError idx AttributeError :: stdout w1)).
Proof.
  cbv zeta. destruct (skipped (str (narrative row))) eqn:Hskip;
    [now apply process_row_skipped|].
  unfold process_row. rewrite Hskip.
  destruct (extract_with_llm_safe_total client (str (narrative row))
              (str (crime_code row)) None (world st)) as [d [w' [E _]]].
  rewrite E. cbn [snd].
  unfold try_except.
  rewrite (bind_ok _ _ st (mkState (df st) (stats st) w') d)
    by (unfold call; now rewrite E).
  destruct (steps_outcome idx d (mkState (df st) (stats st) w')) as [W R].
  cbn [world] in W.
  destruct ((fill_method idx d ;;; fill_suspects idx d ;;;
             fill_vehicle idx d ;;; ret true)
              (mkState (df st) (stats st) w')) as [[b|e] st2];
    cbn [fst snd] in *.
  - left. destruct R as [R|R]; [|discriminate R]. now split.
  - right. destruct R as [R|R]; [discriminate R|]. injection R as ->.
    rewrite call_print_bind. cbn [fst snd world]. now rewrite W.
Qed.

(** ** The vehicle columns *)

Lemma fill_vehicle_loop_skips (idx : nat) (skip rest : list value) (st : State) :
  forallb (fun v => negb (usable_vehicle v)) skip = true ->
  fill_vehicle_loop idx (skip ++ rest) st = fill_vehicle_loop idx rest st.
Proof.
  induction skip as [|v skip IH]; [reflexivity|].
  cbn [forallb app fill_vehicle_loop]. rewrite andb_true_iff.
  intros [Hv Hs]. apply negb_true_iff in Hv.
  destruct v; try exact (IH Hs). cbn [usable_vehicle] in Hv.
  rewrite Hv. exact (IH Hs).
Qed.

Lemma df_at_set_length (idx : nat) (col : string) (v : value) (st : State) :
  List.length (df (snd (df_at_set idx col v st))) = List.length (df st).
Proof. cbn. apply length_update_nth. Qed.

Lemma format_plate_text (d : dict) :
  plate_is_text d = true ->
  exists p, format_license_plate (dict_get "plate" d) = Ok p.
Proof.
  unfold plate_is_text, format_license_plate.
  destruct (dict_get "plate" d); cbn [truthy negb];
    try (intro H; apply negb_true_iff in H; rewrite ?H; eexists; reflexivity);
    intros _; try (eexists; reflexivity).
  destruct (_ || _); eexists; reflexivity.
Qed.

Lemma format_plate_not_text (d : dict) :
  plate_is_text d = false ->
  truthy (dict_get "plate" d) = true /\
  format_license_plate (dict_get "plate" d) = Raise AttributeError.
Proof.
  unfold plate_is_text, format_license_plate.
  destruct (dict_get "plate" d); intro H; try discriminate H;
    apply negb_false_iff in H; rewrite H; split; reflexivity.
Qed.

(** The loop stops at a usable vehicle and writes its attributes: all
    four and the counter when the plate is text or empty; make, model
    and color only, before [format_license_plate] raises, when the
    plate is something else. *)
Lemma fill_vehicle_loop_takes (idx : nat) (d : dict) (rest : list value)
      (st : State) :
  idx < List.length (df st) ->
  any (dict_values d) = true ->
  let run := fill_vehicle_loop idx (VDict d :: rest) st in
  fst run = (if plate_is_text d then Ok tt else Raise AttributeError) /\
  world (snd run) = world st /\
  df_at (snd run) idx "vehicle_make" = dict_get "make" d /\
  df_at (snd run) idx "vehicle_model" = dict_get "model" d /\
  df_at (snd run) idx "vehicle_color" = dict_get "color" d /\
  df_at (snd run) idx "vehicle_plate" =
    plate_after d (df_at st idx "vehicle_plate") /\
  vehicles_found (stats (snd run)) =
    (vehicles_found (stats st) + count (plate_is_text d))%Z.
Proof.
  intros Hidx Hany. cbv zeta.
  destruct (plate_is_text d) eqn:Htext; cycle 1.
  { destruct (format_plate_not_text d Htext) as [T Hp].
    set (sa := snd (df_at_set idx "vehicle_make" (dict_get "make" d) st)).
    set (sb := snd (df_at_set idx "vehicle_model" (dict_get "model" d) sa)).
    set (sc := snd (df_at_set idx "vehicle_color" (dict_get "color" d) sb)).
    assert (E : fill_vehicle_loop idx (VDict d :: rest) st =
                (Raise AttributeError, sc)).
    { cbn [fill_vehicle_loop]. rewrite Hany, T. unfold bind, pure.
      cbn [df_at_set fst snd]. rewrite Hp. reflexivity. }
    rewrite E. cbn [fst snd count].
    assert (La : idx < List.length (df sa))
      by (subst sa; now rewrite df_at_set_length).
    assert (Lb : idx < List.length (df sb))
      by (subst sb; now rewrite df_at_set_length).
    unfold plate_after. rewrite T, Hp.
    split; [reflexivity|]. split; [reflexivity|].
    split.
    { subst sc. rewrite df_at_set_other by discriminate.
      subst sb. rewrite df_at_set_other by discriminate.
      subst sa. now apply df_at_set_same. }
    split.
    { subst sc. rewrite df_at_set_other by discriminate.
      subst sb. now apply df_at_set_same. }
    split; [subst sc; now apply df_at_set_same|].
    split.
    { subst sc. rewrite df_at_set_other by discriminate.
      subst sb. rewrite df_at_set_other by discriminate.
      subst sa. now rewrite df_at_set_other by discriminate. }
    cbn. lia. }
  cbn [count].
  destruct (format_plate_text d Htext) as [p Hp].
  set (sa := snd (df_at_set idx "vehicle_make" (dict_get "make" d) st)).
  set (sb := snd (df_at_set idx "vehicle_model" (dict_get "model" d) sa)).
  set (sc := snd (df_at_set idx "vehicle_color" (dict_get "color" d) sb)).
  assert (La : idx < List.length (df sa))
    by (subst sa; now rewrite df_at_set_length).
  assert (Lb : idx < List.length (df sb))
    by (subst sb; now rewrite df_at_set_length).
  assert (Lc : idx < List.length (df sc))
    by (subst sc; now rewrite df_at_set_length).
  assert (Make : df_at sc idx "vehicle_make" = dict_get "make" d).
  { subst sc. rewrite df_at_set_other by discriminate.
    subst sb. rewrite df_at_set_other by discriminate.
    subst sa. now apply df_at_set_same. }
  assert (Model : df_at sc idx "vehicle_model" = dict_get "model" d).
  { subst sc. rewrite df_at_set_other by discriminate.
    subst sb. now apply df_at_set_same. }
  assert (Color : df_at sc idx "vehicle_color" = dict_get "color" d).
  { subst sc. now apply df_at_set_same. }
  assert (Plate : df_at sc idx "vehicle_plate" = df_at st idx "vehicle_plate").
  { subst sc. rewrite df_at_set_other by discriminate.
    subst sb. rewrite df_at_set_other by discriminate.
    subst sa. now rewrite df_at_set_other by discriminate. }
  assert (Stats : stats sc = stats st) by reflexivity.
  unfold plate_after. rewrite Hp.
  destruct (truthy (dict_get "plate" d)) eqn:T.
  all: cbv beta iota.
  - set (sd := snd (df_at_set idx "vehicle_plate" p sc)).
    assert (E : fill_vehicle_loop idx (VDict d :: rest) st =
                (Ok tt, snd (set_stats incr_vehicles_found sd))).
    { cbn [fill_vehicle_loop]. rewrite Hany, T. unfold bind, pure.
      cbn [df_at_set fst snd]. rewrite Hp. reflexivity. }
    rewrite E.
    cbn [fst snd set_stats stats]. split; [reflexivity|].
    split; [reflexivity|].
    change (df_at (mkState (df sd) (incr_vehicles_found (stats sd)) (world sd)))
      with (df_at sd).
    subst sd. rewrite !(df_at_set_other idx idx "vehicle_plate") by discriminate.
    rewrite (df_at_set_same idx "vehicle_plate" p sc Lc).
    repeat split; try assumption; try (cbn; now rewrite Stats).
  - assert (E : fill_vehicle_loop idx (VDict d :: rest) st =
                (Ok tt, snd (set_stats incr_vehicles_found sc))).
    { cbn [fill_vehicle_loop]. rewrite Hany, T. reflexivity. }
    rewrite E.
    cbn [fst snd set_stats stats]. split; [reflexivity|].
    split; [reflexivity|].
    change (df_at (mkState (df sc) (incr_vehicles_found (stats sc)) (world sc)))
      with (df_at sc).
    repeat split; try assumption; try (cbn; now rewrite Stats).
Qed.

Lemma vehicle_columns_not_method :
  ~ In "method_of_entry"
       ["vehicle_make"; "vehicle_model"; "vehicle_color"; "vehicle_plate"].
Proof. intros [H|[H|[H|[H|[]]]]]; discriminate H. Qed.

Lemma vehicle_columns_not_suspect (x : string) :
  ~ In (String.append "suspect_" x)
       ["vehicle_make"; "vehicle_model"; "vehicle_color"; "vehicle_plate"].
Proof. intros [H|[H|[H|[H|[]]]]]; discriminate H. Qed.

Lemma fill_vehicle_at_usable (idx : nat) (extracted : dict)
      (skip rest : list value) (d : dict) (st : State) :
  dict_get "vehicles" extracted = VList (skip ++ VDict d :: rest) ->
  forallb (fun v => negb (usable_vehicle v)) skip = true ->
  fill_vehicle idx extracted st = fill_vehicle_loop idx (VDict d :: rest) st.
Proof.
  intros Hv Hskip. unfold fill_vehicle. rewrite Hv.
  cbn [is_list as_list].
  replace (truthy (VList (skip ++ VDict d :: rest))) with true
    by (destruct skip; reflexivity).
  cbn [andb]. now apply fill_vehicle_loop_skips.
Qed.

(** X11.  For a processed row whose suspects are described by text, the
    vehicle columns come from the first vehicle of the extraction
    result that is a dict with a truthy value: vehicles before it that
    have none are passed over, vehicles after it are ignored, make,
    model and color are copied as they are, and the plate column
    receives the formatted plate when the plate is a non-empty string
    and is left as it was otherwise.  When the plate is a string or an
    empty value the vehicle counter goes up by one and the row returns
    [True].  When it is anything else that is truthy, a number for
    instance, [format_license_plate] raises after make, model and color
    were written: they stay written, the counter is not raised, the
    error is printed and the row returns [False]. *)
Theorem vehicle_columns_from_first_usable
        (client : Client) (idx : nat) (row : Row) (st : State)
        (skip rest : list value) (d : dict) :
  nth_error (df st) idx = Some row ->
  skipped (str (narrative row)) = false ->
  forallb described_by_text
          (first_suspects (extraction client row (world st))) = true ->
  dict_get "vehicles" (extraction client row (world st)) =
    VList (skip ++ VDict d :: rest) ->
  forallb (fun v => negb (usable_vehicle v)) skip = true ->
  any (dict_values d) = true ->
  let run := process_row client idx row st in
  df_at (snd run) idx "vehicle_make" = dict_get "make" d /\
  df_at (snd run) idx "vehicle_model" = dict_get "model" d /\
  df_at (snd run) idx "vehicle_color" = dict_get "color" d /\
  df_at (snd run) idx "vehicle_plate" =
    plate_after d (df_at st idx "vehicle_plate") /\
  if plate_is_text d
  then fst run = Ok true /\
       vehicles_found (stats (snd run)) = (vehicles_found (stats st) + 1)%Z
  else fst run = Ok false /\
       vehicles_found (stats (snd run)) = vehicles_found (stats st) /\
       exists out,
         stdout (world (snd run)) = RowError idx AttributeError :: out.
Proof.
  intros Hrow Hskip Htext Hveh Hunusable Hany. cbv zeta.
  destruct (process_row_steps client idx row st Hskip)
    as [st1 [Hdf [Hstats ->]]].
  set (d0 := extraction client row (world st)) in *.
  destruct (keeps_fill_method
              ["vehicle_make"; "vehicle_model"; "vehicle_color";
               "vehicle_plate"] vehicles_found idx d0
              vehicle_columns_not_method (fun s => eq_refl) st1)
    as [L2 [C2 P2]].
  set (st2 := snd (fill_method idx d0 st1)) in *.
  assert (Hidx2 : idx < List.length (df st2)).
  { rewrite L2, Hdf. apply nth_error_Some. now rewrite Hrow. }
  destruct (fill_suspects_effect idx d0 st2 Hidx2 Htext) as [Hok _].
  rewrite (try_bind_ok _ _ _ st2 tt Hok).
  destruct (keeps_fill_suspects
              ["vehicle_make"; "vehicle_model"; "vehicle_color";
               "vehicle_plate"] vehicles_found idx d0
              vehicle_columns_not_suspect (fun s => eq_refl) st2)
    as [L3 [C3 P3]].
  set (st3 := snd (fill_suspects idx d0 st2)) in *.
  assert (Hidx3 : idx < List.length (df st3)) by now rewrite L3.
  destruct (fill_vehicle_loop_takes idx d rest st3 Hidx3 Hany)
    as [Vok [Vworld [Vmake [Vmodel [Vcolor [Vplate Vcount]]]]]].
  rewrite <- (fill_vehicle_at_usable idx d0 skip rest d st3 Hveh Hunusable)
    in Vok, Vworld, Vmake, Vmodel, Vcolor, Vplate, Vcount.
  assert (Hold : df_at st3 idx "vehicle_plate" = df_at st idx "vehicle_plate").
  { rewrite (C3 idx "vehicle_plate") by (cbn; tauto).
    rewrite (C2 idx "vehicle_plate") by (cbn; tauto).
    unfold df_at. now rewrite Hdf. }
  assert (Hcount : vehicles_found (stats st3) = vehicles_found (stats st))
    by (rewrite P3, P2; now rewrite Hstats).
  rewrite Hold in Vplate. rewrite Hcount in Vcount.
  set (st4 := snd (fill_vehicle idx d0 st3)) in *.
  destruct (plate_is_text d).
  - rewrite (try_bind_ok _ _ _ st3 tt Vok).
    cbn [try_except ret fst snd]. fold st4. cbn [count] in Vcount.
    repeat split; assumption.
  - rewrite (try_bind_raise _ _ _ st3 AttributeError Vok).
    fold st4. rewrite call_print_bind. cbn [fst snd df stats world stdout].
    change (df_at (mkState (df st4) (stats st4)
                     (mkWorld (calls (world st4)) (sleeps (world st4))
                              (RowError idx AttributeError ::
                               stdout (world st4)))))
      with (df_at st4).
    cbn [count] in Vcount.
    repeat split; try assumption; [lia | eexists; reflexivity].
Qed.

Lemma vehicle_columns_from_first_usable_witness :
  forallb described_by_text
    (first_suspects (extraction (answering getaway_payload) getaway_row
                       (world (table_of getaway_row)))) = true /\
  let d := [("make", VStr "Toyota"); ("model", VStr "Camry");
            ("color", VStr "red"); ("plate", VStr "ab-12 34")] in
  let run := process_row (answering getaway_payload) 0 getaway_row
               (table_of getaway_row) in
  df_at (snd run) 0 "vehicle_make" = dict_get "make" d /\
  df_at (snd run) 0 "vehicle_model" = dict_get "model" d /\
  df_at (snd run) 0 "vehicle_color" = dict_get "color" d /\
  df_at (snd run) 0 "vehicle_plate" =
    plate_after d (df_at (table_of getaway_row) 0 "vehicle_plate") /\
  if plate_is_text d
  then fst run = Ok true /\
       vehicles_found (stats (snd run)) =
         (vehicles_found (stats (table_of getaway_row)) + 1)%Z
  else fst run = Ok false /\
       vehicles_found (stats (snd run)) =
         vehicles_found (stats (table_of getaway_row)) /\
       exists out,
         stdout (world (snd run)) = RowError 0 AttributeError :: out.
Proof.
  split; [reflexivity|].
  exact (vehicle_columns_from_first_usable (answering getaway_payload) 0
           getaway_row (table_of getaway_row)
           [VDict [("make", VNone); ("model", VNone);
                   ("color", VNone); ("plate", VStr "")]]
           [VDict [("make", VStr "Ford"); ("model", VNone);
                   ("color", VNone); ("plate", VNone)]]
           [("make", VStr "Toyota"); ("model", VStr "Camry");
            ("color", VStr "red"); ("plate", VStr "ab-12 34")]
           eq_refl eq_refl eq_refl eq_refl eq_refl eq_refl).
Defined.

(** A vehicle whose plate is a number: make and color are written, then
    the row fails; the vehicle is not counted. *)
Example numbered_plate_fails_the_row :
  let run := process_row (answering numbered_plate_payload) 0 getaway_row
               (table_of getaway_row) in
  fst run = Ok false /\
  df_at (snd run) 0 "vehicle_make" = VStr "Toyota" /\
  df_at (snd run) 0 "vehicle_color" = VStr "red" /\
  df_at (snd run) 0 "vehicle_plate" = VNone /\
  stats (snd run) = mkStats 0 0 0 0 0 0 /\
  stdout (world (snd run)) = [RowError 0 AttributeError].
Proof. vm_compute. repeat split; reflexivity. Qed.

Example getaway_vehicle_columns :
  df_at (snd (process_row (answering getaway_payload) 0 getaway_row
                (table_of getaway_row))) 0 "vehicle_make" = VStr "Toyota" /\
  df_at (snd (process_row (answering getaway_payload) 0 getaway_row
                (table_of getaway_row))) 0 "vehicle_plate" = VStr "AB1234" /\
  stats (snd (process_row (answering getaway_payload) 0 getaway_row
                (table_of getaway_row))) = mkStats 0 0 0 0 0 1.
Proof. vm_compute. repeat split; reflexivity. Qed.

(** ** Code fences around the answer of the service *)

Lemma str_app_assoc (a b c : string) :
  String.append (String.append a b) c = String.append a (String.append b c).
Proof. induction a as [|x a IH]; simpl; [reflexivity | now rewrite IH]. Qed.

Lemma str_length_app (a b : string) :
  String.length (String.append a b) = String.length a + String.length b.
Proof. induction a as [|x a IH]; simpl; [reflexivity | now rewrite IH]. Qed.

Lemma strip_prefix_sound (l s r : string) :
  strip_prefix l s = Some r -> s = String.append l r.
Proof.
  revert s. induction l as [|a l IH]; intros s; simpl.
  - now intros [= ->].
  - destruct s as [|b s]; [discriminate|].
    destruct (Ascii.eqb a b) eqn:E; [|discriminate].
    apply Ascii.eqb_eq in E. subst b. intro H. now rewrite (IH s H).
Qed.

Lemma strip_prefix_longer (l l' s : string) :
  strip_prefix l s = None -> strip_prefix (String.append l l') s = None.
Proof.
  revert s. induction l as [|a l IH]; intros s; simpl; [discriminate|].
  destruct s as [|b s]; [reflexivity|].
  destruct (Ascii.eqb a b); [apply IH | reflexivity].
Qed.

Lemma rstrip_idem (s : string) : rstrip (rstrip s) = rstrip s.
Proof.
  induction s as [|c s IH]; [reflexivity|]. cbn [rstrip].
  destruct (rstrip s) as [|a r] eqn:E.
  - destruct (is_space c) eqn:Sc; [reflexivity|]. cbn. now rewrite Sc.
  - cbn [rstrip]. cbn [rstrip] in IH. now rewrite IH.
Qed.

Lemma rstrip_fixed_tail (c : ascii) (s : string) :
  rstrip (String c s) = String c s -> rstrip s = s.
Proof.
  cbn [rstrip]. destruct (rstrip s) as [|a r] eqn:E.
  - destruct (is_space c); [discriminate|]. now intros [= <-].
  - now intros [= <-].
Qed.

Lemma rstrip_fixed_last (c : ascii) :
  rstrip (String c "") = String c "" -> is_space c = false.
Proof. cbn. destruct (is_space c); [discriminate | reflexivity]. Qed.

Lemma rstrip_app_fixed (x y : string) :
  nonempty y = true -> rstrip y = y ->
  rstrip (String.append x y) = String.append x y.
Proof.
  intros Hy Hf. induction x as [|c x IH]; [exact Hf|].
  cbn [String.append rstrip]. rewrite IH.
  destruct (String.append x y) eqn:E; [|reflexivity].
  destruct x; [|discriminate E]. cbn in E. subst y. discriminate Hy.
Qed.

(** After the start, a pattern anchored at the start matches nowhere. *)
Lemma sub_from_anchored (fuel : nat) (p : list atom) (s : string) :
  sub_from fuel (Bos :: p) false s = s.
Proof.
  revert s. induction fuel as [|fuel IH]; intro s; [reflexivity|].
  cbn [sub_from match_here]. destruct s as [|c s]; [reflexivity|].
  now rewrite IH.
Qed.

(** An opening pattern leaves a text that does not open with its
    literal as it is. *)
Lemma sub_opening_absent (l : string) (s : string) :
  strip_prefix l s = None -> sub [Bos; Lit l; Spaces] s = s.
Proof.
  intro H. unfold sub. cbn [sub_from match_here]. rewrite H.
  destruct s as [|c s]; [reflexivity|]. now rewrite sub_from_anchored.
Qed.

(** An opening pattern drops its literal and the white space after
    it. *)
Lemma sub_opening_present (l : string) (c : ascii) (rest : string) :
  nonempty l = true -> is_space c = false ->
  sub [Bos; Lit l; Spaces]
      (String.append l (String "010" (String c rest))) = String c rest.
Proof.
  intros Hl Hc. unfold sub. cbn [sub_from match_here].
  assert (P : strip_prefix l (String.append l (String "010" (String c rest)))
              = Some (String "010" (String c rest))).
  { clear Hl. induction l as [|a l IH]; [reflexivity|].
    cbn. now rewrite Ascii.eqb_refl. }
  rewrite P, Hl. cbn [andb negb spaces match_here].
  replace (is_space "010") with true by reflexivity.
  rewrite Hc.
  replace (Nat.ltb (String.length (String c rest))
             (String.length (String.append l (String "010" (String c rest)))))
    with true.
  - apply sub_from_anchored.
  - symmetry. apply Nat.ltb_lt. rewrite str_length_app. cbn. lia.
Qed.

Lemma closing_exact (start : bool) (t r : string) :
  match_here [Lit "```"; Eos] start t = Some r ->
  String.length t = 3 + String.length r /\ String.length r <= 1.
Proof.
  cbn [match_here]. destruct (strip_prefix "```" t) as [r'|] eqn:P;
    [|discriminate].
  destruct (at_end r') eqn:E; [|discriminate]. intros [= <-].
  apply strip_prefix_sound in P. subst t. rewrite str_length_app.
  split; [reflexivity|]. unfold at_end in E. apply orb_true_iff in E.
  destruct E as [E|E]; apply String.eqb_eq in E; subst r'; cbn; lia.
Qed.

Lemma space_is_not_backquote (c : ascii) (s : string) :
  is_space c = true -> strip_prefix "```" (String c s) = None.
Proof.
  intro H. cbn [strip_prefix].
  destruct (Ascii.eqb "`" c) eqn:E; [|reflexivity].
  apply Ascii.eqb_eq in E. subst c. discriminate H.
Qed.

(** Inside a body without trailing white space the closing pattern does
    not match. *)
Lemma closing_not_inside (X : string) :
  nonempty X = true -> rstrip X = X ->
  forall start,
    match_here closing start
      (String.append X (String "010" "```")) = None.
Proof.
  unfold closing. cbn [match_here].
  induction X as [|c X IH]; [discriminate|]. intros _ Hfix start.
  cbn [String.append spaces].
  assert (K : match_here [Lit "```"; Eos] start
                (String c (String.append X (String "010" "```"))) = None).
  { destruct (match_here [Lit "```"; Eos] start
                (String c (String.append X (String "010" "```"))))
      as [r|] eqn:E; [|reflexivity].
    apply closing_exact in E. cbn [String.length] in E.
    rewrite str_length_app in E. cbn in E. lia. }
  destruct (is_space c) eqn:Sc; [|exact K].
  destruct X as [|a X'].
  - apply rstrip_fixed_last in Hfix. congruence.
  - rewrite (IH eq_refl (rstrip_fixed_tail _ _ Hfix) false). exact K.
Qed.

(** The closing pattern takes the fence off a body without trailing
    white space, and nothing else. *)
Lemma sub_closing_body (X : string) :
  rstrip X = X ->
  forall fuel start,
    String.length X < fuel ->
    sub_from fuel closing start (String.append X (String "010" "```")) = X.
Proof.
  induction X as [|c X IH]; intros Hfix fuel start Hfuel.
  - destruct fuel as [|fuel]; [lia|]. cbn. now destruct fuel.
  - destruct fuel as [|fuel]; [cbn in Hfuel; lia|].
    cbn [sub_from].
    rewrite (closing_not_inside (String c X) eq_refl Hfix start).
    cbn [String.append]. f_equal.
    apply IH; [exact (rstrip_fixed_tail _ _ Hfix) | cbn in Hfuel; lia].
Qed.

Lemma ends_with_tail (suffix : string) (c : ascii) (s : string) :
  ends_with suffix (String c s) = false -> ends_with suffix s = false.
Proof.
  cbn [ends_with]. intro H. now apply orb_false_iff in H as [_ H].
Qed.

(** Where the closing pattern matches, the text ends with the fence,
    or with the fence and a line feed. *)
Lemma closing_match_ends (s : string) :
  forall start r,
    match_here closing start s = Some r ->
    ends_with "```" s || ends_with (String.append "```" (String "010" "")) s
    = true.
Proof.
  assert (K : forall start t r,
             match_here [Lit "```"; Eos] start t = Some r ->
             String.eqb t "```" ||
             String.eqb t (String.append "```" (String "010" "")) = true).
  { intros start t r. cbn [match_here].
    destruct (strip_prefix "```" t) as [r'|] eqn:P; [|discriminate].
    destruct (at_end r') eqn:E; [|discriminate]. intros _.
    apply strip_prefix_sound in P. subst t. unfold at_end in E.
    apply orb_true_iff in E. destruct E as [E|E];
      apply String.eqb_eq in E; subst r'; reflexivity. }
  assert (Up : forall t,
             String.eqb t "```" ||
             String.eqb t (String.append "```" (String "010" "")) = true ->
             ends_with "```" t ||
             ends_with (String.append "```" (String "010" "")) t = true).
  { intros t H. apply orb_true_iff in H. apply orb_true_iff.
    destruct H as [H|H]; [left|right];
      destruct t; cbn [ends_with]; rewrite H; reflexivity. }
  unfold closing.
  change (match_here [Spaces; Lit "```"; Eos])
    with (spaces (match_here [Lit "```"; Eos])).
  set (k := match_here [Lit "```"; Eos]) in *.
  induction s as [|c s IH]; intros start r; cbn [spaces].
  - intro H. apply Up. exact (K _ _ _ H).
  - destruct (is_space c).
    + destruct (spaces k false s) as [r'|] eqn:E.
      * intros _. specialize (IH false r' E).
        apply orb_true_iff in IH. apply orb_true_iff.
        destruct IH as [H|H]; [left|right]; cbn [ends_with]; rewrite H;
          apply orb_true_r.
      * intro H. apply Up. exact (K _ _ _ H).
    + intro H. apply Up. exact (K _ _ _ H).
Qed.

(** The closing pattern leaves a text that does not end with the fence
    as it is. *)
Lemma sub_closing_absent (s : string) :
  ends_with "```" s = false ->
  ends_with (String.append "```" (String "010" "")) s = false ->
  forall fuel start, sub_from fuel closing start s = s.
Proof.
  intros H1 H2 fuel. revert s H1 H2.
  induction fuel as [|fuel IH]; intros s H1 H2 start; [reflexivity|].
  cbn [sub_from].
  destruct (match_here closing start s) as [r|] eqn:E.
  - apply closing_match_ends in E. now rewrite H1, H2 in E.
  - destruct s as [|c s]; [reflexivity|]. f_equal.
    apply IH; [exact (ends_with_tail _ _ _ H1) | exact (ends_with_tail _ _ _ H2)].
Qed.

Lemma rstrip_fixed_no_final_newline (s : string) :
  rstrip s = s ->
  ends_with (String.append "```" (String "010" "")) s = false.
Proof.
  induction s as [|c s IH]; [reflexivity|]. intro Hfix.
  cbn [ends_with]. rewrite (IH (rstrip_fixed_tail _ _ Hfix)), orb_false_r.
  destruct (String.eqb (String c s) (String.append "```" (String "010" "")))
    eqn:E; [|reflexivity].
  apply String.eqb_eq in E. rewrite E in Hfix. discriminate Hfix.
Qed.

(** X12.  An answer that, once trimmed, neither opens nor ends with a
    code fence goes to [json.loads] trimmed and otherwise as it is. *)
Theorem unfenced_answer_is_only_trimmed (content : string) :
  strip_prefix "```" (strip content) = None ->
  ends_with "```" (strip content) = false ->
  strip_fences content = strip content.
Proof.
  intros Hopen Hclose. unfold strip_fences. cbv zeta.
  rewrite (sub_opening_absent "```json" (strip content))
    by (apply (strip_prefix_longer "```" "json"), Hopen).
  rewrite (sub_opening_absent "```" (strip content) Hopen).
  unfold sub. fold closing. apply sub_closing_absent; [exact Hclose|].
  apply rstrip_fixed_no_final_newline. unfold strip. apply rstrip_idem.
Qed.

Lemma unfenced_answer_is_only_trimmed_witness :
  strip_prefix "```" (strip "  {} ") = None /\
  strip_fences "  {} " = strip "  {} ".
Proof.
  split; [reflexivity|].
  apply (unfenced_answer_is_only_trimmed "  {} "); reflexivity.
Defined.

Lemma strip_fenced (tag body : string) :
  tag = "```json" \/ tag = "```" ->
  rstrip (fenced tag body) = fenced tag body /\
  lstrip (fenced tag body) = fenced tag body.
Proof.
  intro Htag. split.
  - unfold fenced.
    replace (String.append tag
               (String "010" (String.append body (String "010" "```"))))
      with (String.append (String.append tag (String "010" body))
                          (String "010" "```")).
    + now apply rstrip_app_fixed.
    + rewrite str_app_assoc. reflexivity.
  - destruct Htag as [->| ->]; reflexivity.
Qed.

(** X13.  An answer wrapped in a code fence, tagged json or not, whose
    body starts with a character that is neither white space nor a
    back-quote and has no trailing white space, goes to [json.loads]
    as the body alone; when [json.loads] decodes the body to a dict,
    [extract_with_llm] returns that dict with its keys ensured, at the
    cost of one request. *)
Theorem fenced_answer_is_unwrapped (tag : string) (c : ascii) (rest : string) :
  tag = "```json" \/ tag = "```" ->
  is_space c = false ->
  c <> "`"%char ->
  rstrip (String c rest) = String c rest ->
  strip_fences (fenced tag (String c rest)) = String c rest /\
  forall (post : string -> string -> nat -> option string)
         (loads : string -> option value)
         (narrative crime_code : string) (w : World) (d : dict),
    post narrative crime_code (calls w) = Some (fenced tag (String c rest)) ->
    loads (String c rest) = Some (VDict d) ->
    extract_with_llm (decoded post loads) narrative crime_code w =
    (Ok (ensure_keys d), mkWorld (S (calls w)) (sleeps w) (stdout w)).
Proof.
  intros Htag Hspace Hquote Hfix.
  assert (Hbody : strip_fences (fenced tag (String c rest)) = String c rest).
  { unfold strip_fences. cbv zeta.
    destruct (strip_fenced tag (String c rest) Htag) as [Hr Hl].
    unfold strip. rewrite Hl, Hr.
    assert (Hnone : strip_prefix "```"
                      (String.append (String c rest) (String "010" "```"))
                    = None).
    { cbn [String.append strip_prefix].
      destruct (Ascii.eqb "`" c) eqn:E; [|reflexivity].
      apply Ascii.eqb_eq in E. now elim Hquote. }
    assert (Hclose : sub closing
                       (String.append (String c rest) (String "010" "```"))
                     = String c rest).
    { unfold sub. apply sub_closing_body; [exact Hfix|].
      rewrite str_length_app. cbn. lia. }
    unfold fenced.
    change (String.append (String c rest) (String "010" "```"))
      with (String c (String.append rest (String "010" "```"))) in *.
    destruct Htag as [->| ->].
    - rewrite (sub_opening_present "```json" c
                 (String.append rest (String "010" "```")) eq_refl Hspace).
      rewrite (sub_opening_absent "```" _ Hnone). exact Hclose.
    - rewrite (sub_opening_absent "```json") by reflexivity.
      rewrite (sub_opening_present "```" c
                 (String.append rest (String "010" "```")) eq_refl Hspace).
      exact Hclose. }
  split; [exact Hbody|].
  intros post loads narrative crime_code w d Hpost Hloads.
  apply extract_with_llm_accepts. unfold decoded.
  now rewrite Hpost, Hbody.
Qed.

Lemma fenced_answer_is_unwrapped_witness :
  rstrip "{}" = "{}" /\
  strip_fences (fenced "```json" "{}") = "{}".
Proof.
  split; [reflexivity|].
  apply (fenced_answer_is_unwrapped "```json" "{" "}");
    [now left | reflexivity | discriminate | reflexivity].
Defined.

(** A fenced empty object, decoded by a [json.loads] that knows this
    one text. *)
Example fenced_empty_object_is_accepted :
  extract_with_llm
    (decoded (fun _ _ _ => Some (fenced "```json" "{}"))
             (fun s => if String.eqb s "{}" then Some (VDict []) else None))
    "Burglary." "220" idle =
  (Ok [ ("method_of_entry", VNone); ("suspects", VList []);
        ("vehicles", VList []) ],
   mkWorld 1 [] []).
Proof. vm_compute. reflexivity. Qed.

(** White space above code 127 goes the way of a space: a no-break
    space (160) around the answer is trimmed away, and one between the
    body and the closing fence is dropped with the fence. *)
Example no_break_space_around_fences :
  strip_fences (String "160" (String.append "{}" (String "160" ""))) = "{}" /\
  strip_fences (fenced "```json" (String.append "{}" (String "160" "")))
    = "{}".
Proof. vm_compute. split; reflexivity. Qed.

(** ** The two cleaning functions *)

(** X14.  [clean_suspect_description] raises, an [AttributeError],
    exactly on truthy values that are not strings.  On a string it
    returns [None] for the empty string and the literal null, and
    otherwise a string of at most 100 characters that does not start
    with white space; on other empty values it returns [None]. *)
Theorem clean_suspect_description_range (v : value) :
  match clean_suspect_description v with
  | Raise e => e = AttributeError /\ raising v = true
  | Ok VNone =>
      raising v = false /\
      match v with
      | VStr s => String.eqb s "" || String.eqb s "null" = true
      | _ => truthy v = false
      end
  | Ok (VStr t) =>
      (String.length t <= 100 /\ no_leading_space t = true) /\
      exists s, v = VStr s /\ t = take 100 (strip s) /\
                String.eqb s "" || String.eqb s "null" = false /\
                exists core, trimmed s core /\ cut_at 100 core t
  | Ok _ => False
  end.
Proof.
  destruct v as [|b|z|f|s|l|d]; cbn [clean_suspect_description raising].
  1-4, 6-7: destruct (truthy _) eqn:T; repeat split; reflexivity.
  destruct s as [|c s]; [cbn; repeat split; reflexivity|].
  cbn [nonempty negb orb].
  destruct (String.eqb (String c s) "null") eqn:N.
  - split; reflexivity.
  - split.
    + split; [apply take_length|].
      apply take_keeps_head, rstrip_keeps_head, lstrip_fixed.
    + exists (String c s). split; [reflexivity|]. split; [reflexivity|].
      split; [cbn [String.eqb]; exact N|].
      exists (strip (String c s)). split; [apply strip_trimmed | apply take_cut].
Qed.



(** ** A row that fails half-way *)

Lemma clean_raising (v : value) :
  raising v = true -> clean_suspect_description v = Raise AttributeError.
Proof.
  destruct v; cbn; try discriminate; intro H; now rewrite H.
Qed.

(** The suspect step stops at a first suspect it cannot clean. *)
Lemma fill_suspects_raises (idx : nat) (extracted : dict) (ds : dict)
      (tail : list value) (st : State) :
  dict_get "suspects" extracted = VList (VDict ds :: tail) ->
  dict_has "description" ds = true ->
  raising (dict_get "description" ds) = true ->
  fill_suspects idx extracted st = (Raise AttributeError, st).
Proof.
  intros Hs Hhas Hraise. unfold fill_suspects. rewrite Hs.
  cbn [truthy is_list as_list andb firstn fill_suspects_loop].
  unfold bind at 1, fill_suspect. rewrite Hhas.
  unfold bind at 1, pure. now rewrite (clean_raising _ Hraise).
Qed.

(** X16.  A row whose first suspect has a truthy description that is
    not a string fails half-way: [process_row] prints the error and
    returns [False], the entry method written before stays written and
    counted, and neither the suspect nor the vehicle columns and
    counters are touched, whatever vehicles the result holds. *)
Theorem failed_row_keeps_method_only
        (client : Client) (idx : nat) (row : Row) (st : State)
        (ds : dict) (tail : list value) :
  nth_error (df st) idx = Some row ->
  skipped (str (narrative row)) = false ->
  dict_get "suspects" (extraction client row (world st)) =
    VList (VDict ds :: tail) ->
  dict_has "description" ds = true ->
  raising (dict_get "description" ds) = true ->
  let m := dict_get "method_of_entry" (extraction client row (world st)) in
  let run := process_row client idx row st in
  fst run = Ok false /\
  (exists out, stdout (world (snd run)) = RowError idx AttributeError :: out) /\
  df_at (snd run) idx "method_of_entry" =
    (if truthy m then m else df_at st idx "method_of_entry") /\
  method_extracted (stats (snd run)) =
    (method_extracted (stats st) + count (truthy m))%Z /\
  (forall c, In c ["suspect_1"; "suspect_2"; "vehicle_make"; "vehicle_model";
                   "vehicle_color"; "vehicle_plate"] ->
             df_at (snd run) idx c = df_at st idx c) /\
  suspects_found (stats (snd run)) = suspects_found (stats st) /\
  vehicles_found (stats (snd run)) = vehicles_found (stats st).
Proof.
  intros Hrow Hskip Hs Hhas Hraise. cbv zeta.
  destruct (process_row_steps client idx row st Hskip)
    as [st1 [Hdf [Hstats ->]]].
  set (d0 := extraction client row (world st)) in *.
  assert (Hidx : idx < List.length (df st1)).
  { rewrite Hdf. apply nth_error_Some. now rewrite Hrow. }
  destruct (fill_method_effect idx d0 st1 Hidx) as [Hcol Hcount].
  assert (Kc : forall c,
             In c ["suspect_1"; "suspect_2"; "vehicle_make"; "vehicle_model";
                   "vehicle_color"; "vehicle_plate"] ->
             df_at (snd (fill_method idx d0 st1)) idx c = df_at st1 idx c).
  { intros c Hc.
    destruct (keeps_fill_method
                ["suspect_1"; "suspect_2"; "vehicle_make"; "vehicle_model";
                 "vehicle_color"; "vehicle_plate"] suspects_found idx d0)
      with (st := st1) as [_ [C _]];
      [intros [H|[H|[H|[H|[H|[H|[]]]]]]]; discriminate H | reflexivity |].
    now apply C. }
  assert (Ks : suspects_found (stats (snd (fill_method idx d0 st1))) =
               suspects_found (stats st1)).
  { unfold fill_method. destruct (truthy _); reflexivity. }
  assert (Kv : vehicles_found (stats (snd (fill_method idx d0 st1))) =
               vehicles_found (stats st1)).
  { unfold fill_method. destruct (truthy _); reflexivity. }
  set (st2 := snd (fill_method idx d0 st1)) in *.
  pose proof (fill_suspects_raises idx d0 ds tail st2 Hs Hhas Hraise) as E.
  rewrite (try_bind_raise _ _ _ st2 AttributeError) by now rewrite E.
  rewrite E, call_print_bind. cbn [fst snd df stats world stdout].
  split; [reflexivity|]. split; [eexists; reflexivity|].
  change (df_at (mkState (df st2) (stats st2)
                   (mkWorld (calls (world st2)) (sleeps (world st2))
                            (RowError idx AttributeError ::
                             stdout (world st2)))))
    with (df_at st2).
  split; [rewrite Hcol; unfold df_at; now rewrite Hdf|].
  split; [now rewrite Hcount, Hstats|].
  split; [intros c Hc; rewrite (Kc c Hc); unfold df_at; now rewrite Hdf|].
  split; [now rewrite Ks, Hstats | now rewrite Kv, Hstats].
Qed.

Lemma failed_row_keeps_method_only_witness :
  raising (dict_get "description"
             [("id", VStr "S1"); ("description", VInt 1)]) = true /\
  fst (process_row (answering numbered_payload) 0 kicked_row
         (table_of kicked_row)) = Ok false.
Proof.
  split; [reflexivity|].
  apply (failed_row_keeps_method_only (answering numbered_payload) 0
           kicked_row (table_of kicked_row)
           [("id", VStr "S1"); ("description", VInt 1)]
           [VDict [("id", VStr "S2"); ("description", VStr "tall")]]);
    reflexivity.
Defined.

Example kicked_row_counters :
  stats (snd (process_row (answering numbered_payload) 0 kicked_row
                (table_of kicked_row))) = mkStats 0 0 0 1 0 0 /\
  df_at (snd (process_row (answering numbered_payload) 0 kicked_row
                (table_of kicked_row))) 0 "vehicle_make" = VNone.
Proof. vm_compute. split; reflexivity. Qed.

(** ** Vehicles without a value *)

Lemma fill_vehicle_none_usable (idx : nat) (extracted : dict) (st : State) :
  forallb (fun v => negb (usable_vehicle v))
          (as_list (dict_get "vehicles" extracted)) = true ->
  fill_vehicle idx extracted st = (Ok tt, st).
Proof.
  intro H. unfold fill_vehicle. destruct (_ && _); [|reflexivity].
  rewrite <- (app_nil_r (as_list (dict_get "vehicles" extracted))).
  now rewrite fill_vehicle_loop_skips.
Qed.

(** X17.  When no vehicle of the extraction result is a dict with a
    truthy value (an empty list, or vehicles whose attributes are all
    null), the vehicle columns and the vehicle counter of the row stay
    as they were. *)
Theorem no_usable_vehicle_no_write
        (client : Client) (idx : nat) (row : Row) (st : State) :
  forallb (fun v => negb (usable_vehicle v))
          (as_list (dict_get "vehicles" (extraction client row (world st))))
    = true ->
  let st' := snd (process_row client idx row st) in
  (forall c, In c ["vehicle_make"; "vehicle_model"; "vehicle_color";
                   "vehicle_plate"] ->
             df_at st' idx c = df_at st idx c) /\
  vehicles_found (stats st') = vehicles_found (stats st).
Proof.
  intro Hnone. cbv zeta.
  destruct (skipped (str (narrative row))) eqn:Hskip.
  { rewrite (process_row_skipped client idx row st Hskip). now split. }
  destruct (process_row_steps client idx row st Hskip)
    as [st1 [Hdf [Hstats ->]]].
  set (d0 := extraction client row (world st)) in *.
  assert (K : keeps ["vehicle_make"; "vehicle_model"; "vehicle_color";
                     "vehicle_plate"] vehicles_found
                (fill_method idx d0 ;;;
                 try_except
                   (fill_suspects idx d0 ;;; fill_vehicle idx d0 ;;; ret true)
                   (fun e => call (print (RowError idx e)) ;;; ret false))).
  { apply keeps_bind;
      [apply keeps_fill_method;
         [apply vehicle_columns_not_method | reflexivity]|].
    intros _. apply keeps_try; [|intro e; apply keeps_handler].
    apply keeps_bind;
      [apply keeps_fill_suspects;
         [apply vehicle_columns_not_suspect | reflexivity]|].
    intros _ s. unfold bind.
    rewrite (fill_vehicle_none_usable idx d0 s Hnone). apply kept_refl. }
  specialize (K st1). unfold bind at 1 in K.
  rewrite (run_ok _ _ _ (fill_method_ok idx d0 st1)) in K. cbn [snd] in K.
  destruct K as [_ [C P]]. split.
  - intros c Hc. rewrite (C idx c Hc). unfold df_at. now rewrite Hdf.
  - now rewrite P, Hstats.
Qed.

Lemma no_usable_vehicle_no_write_witness :
  forallb (fun v => negb (usable_vehicle v))
    (as_list (dict_get "vehicles"
                (extraction (answering no_vehicle_payload) smashed_row
                   (world (table_of smashed_row))))) = true /\
  vehicles_found
    (stats (snd (process_row (answering no_vehicle_payload) 0 smashed_row
                   (table_of smashed_row))))
  = vehicles_found (stats (table_of smashed_row)).
Proof.
  split; [reflexivity|].
  apply (no_usable_vehicle_no_write (answering no_vehicle_payload) 0
           smashed_row (table_of smashed_row)).
  reflexivity.
Defined.

(** ** The requests of a run *)

Lemma spent_trans (a b : nat) (w1 w2 w3 : World) :
  spent a w1 w2 -> spent b w2 w3 -> spent (a + b) w1 w3.
Proof. unfold spent. intros H1 H2. lia. Qed.

Lemma spent_same (w w' : World) :
  calls w' = calls w -> sleeps w' = sleeps w -> spent 0 w w'.
Proof. unfold spent. intros -> ->. lia. Qed.

Lemma extract_with_llm_safe_spent
      (client : Client) (narrative crime_code : string) (w : World) :
  spent 1 w (snd (extract_with_llm_safe client narrative crime_code None w)).
Proof.
  unfold extract_with_llm_safe.
  destruct (attempts_bounded client narrative crime_code Config.MAX_RETRIES
              (Z.to_nat Config.MAX_RETRIES) 0%Z None w)
    as [d [c [n [out [E [Hc [Hn [Hp _]]]]]]]]; [right; reflexivity|].
  rewrite E. unfold spent. cbn [snd calls sleeps].
  rewrite length_app, repeat_length.
  change (Z.to_nat Config.MAX_RETRIES) with 3 in *. cbn [pred] in Hp. lia.
Qed.

(** The requests and sleeps of a row are those of its one call of the
    retry wrapper, if it is not skipped. *)
Lemma process_row_world (client : Client) (idx : nat) (row : Row) (st : State) :
  let w1 := if skipped (str (narrative row)) then world st
            else snd (extract_with_llm_safe client (str (narrative row))
                        (str (crime_code row)) None (world st)) in
  calls (world (snd (process_row client idx row st))) = calls w1 /\
  sleeps (world (snd (process_row client idx row st))) = sleeps w1.
Proof.
  cbv zeta. destruct (skipped (str (narrative row))) eqn:Hskip.
  { rewrite (process_row_skipped client idx row st Hskip). now split. }
  unfold process_row. rewrite Hskip.
  destruct (extract_with_llm_safe_total client (str (narrative row))
              (str (crime_code row)) None (world st)) as [d [w' [E _]]].
  rewrite E. cbn [snd]. unfold try_except.
  rewrite (bind_ok _ _ st (mkState (df st) (stats st) w') d)
    by (unfold call; now rewrite E).
  destruct (steps_outcome idx d (mkState (df st) (stats st) w')) as [W _].
  cbn [world] in W.
  destruct ((fill_method idx d ;;; fill_suspects idx d ;;;
             fill_vehicle idx d ;;; ret true)
              (mkState (df st) (stats st) w')) as [[b|e] st2];
    cbn [fst snd] in *.
  - now rewrite W.
  - rewrite call_print_bind. cbn [snd world calls sleeps]. now rewrite W.
Qed.

Lemma process_row_spent (client : Client) (idx : nat) (row : Row) (st : State) :
  spent 1 (world st) (world (snd (process_row client idx row st))).
Proof.
  destruct (process_row_world client idx row st) as [Hc Hs].
  pose proof (extract_with_llm_safe_spent client (str (narrative row))
                (str (crime_code row)) (world st)) as S.
  unfold spent in *. rewrite Hc, Hs.
  destruct (skipped (str (narrative row))); [lia | exact S].
Qed.

Lemma process_rows_spent (client : Client) (total : nat) (rows : list Row) :
  forall (idx : nat) (st : State),
    spent (List.length rows) (world st)
          (world (snd (process_rows client total idx rows st))).
Proof.
  induction rows as [|row rows IH]; intros idx st.
  - apply spent_same; reflexivity.
  - cbn [process_rows].
    assert (P : exists st0,
               (if Nat.eqb (Nat.modulo (idx + 1) 10) 0 || Nat.eqb idx 0
                then call (print (Progress (idx + 1) total))
                else ret tt) st = (Ok tt, st0) /\
               spent 0 (world st) (world st0)).
    { destruct (_ || _); eexists; (split; [reflexivity|]);
        apply spent_same; reflexivity. }
    destruct P as [st0 [E0 S0]].
    rewrite (bind_ok _ _ _ _ _ E0).
    destruct (process_row_ok client idx row st0) as [b Hb].
    rewrite (bind_ok _ _ _ _ _ (run_ok _ _ _ Hb)).
    pose proof (process_row_spent client idx row st0) as S1.
    set (st1 := snd (process_row client idx row st0)) in *.
    rewrite (bind_ok _ _ _ _ tt (set_stats_run _ st1)).
    match goal with |- context [process_rows _ _ _ _ ?s] =>
      specialize (IH (S idx) s)
    end.
    cbn [world] in IH.
    change (List.length (row :: rows)) with (0 + 1 + List.length rows).
    eapply spent_trans; [|exact IH].
    eapply spent_trans; [exact S0 | exact S1].
Qed.

(** X18.  At the default retry bound a run sends at most three
    requests and takes at most two sleeps for every row of the table,
    whatever the service does. *)
Theorem process_all_request_budget (client : Client) (st : State) :
  let n := List.length (df st) in
  let w := world st in
  let w' := world (snd (process_all client st)) in
  calls w <= calls w' <= calls w + 3 * n /\
  List.length (sleeps w) <= List.length (sleeps w')
    <= List.length (sleeps w) + 2 * n.
Proof.
  cbv zeta. unfold process_all.
  rewrite (bind_ok _ _ _ _ tt (call_print _ st)).
  rewrite (bind_ok _ _ _ _ tt (call_print _ _)).
  rewrite (bind_ok _ _ _ _ tt (set_stats_run _ _)).
  match goal with |- context [bind (process_rows _ _ _ _) _ ?s0] =>
    pose proof (process_rows_spent client (List.length (df st)) (df st) 0 s0)
      as S;
    destruct (process_rows_tally client (List.length (df st)) (df st) 0 s0)
      as [st' [E _]]
  end.
  rewrite E in S. cbn [snd world calls sleeps] in S.
  rewrite !(bind_ok _ _ _ _ _ E).
  rewrite !(bind_ok _ _ _ _ tt (call_print _ _)).
  rewrite !call_print. cbn [snd world calls sleeps].
  exact S.
Qed.
